(** * ice-melt: the state-machine engine of [ice-melt.py]

    A shallow embedding of the supervision core of [ice-melt.py]: the scale
    mappers ([SensorConfig], [ControlConfig]), the trigger parser
    ([parse_sensor_trigger]), the per-state declarations ([StateConfig]) and
    the machine itself ([IceMeltState]) with its guarded [transition], its
    cascade and its timers.

    Conventions of the embedding.
    - Python [int] is [Z].  Python [float] is read twice.  The machine
      computes with exact rationals [Q] (the rounding of binary64
      arithmetic, [nan] and [inf] are abstracted), which is what the
      properties that depend on the order of the values only are stated on.
      The module [Binary64] repeats the arithmetic of the scales, the test
      of a trigger and the loop over the triggers on IEEE binary64 values,
      as CPython computes them; what depends on a computed value is stated
      on it.
    - Python [str] is [string] (one character per byte).
    - An exception is a constructor of [exn]; pure fallible code returns
      [result], stateful code runs in the monad [M], whose outcome always
      carries the store, because a Python exception does not undo the
      assignments made before it.
    - [int()] and [float()] are builtins of the interpreter, not code of the
      program: they are fields of the class [PyBuiltins].
    - [datetime.now()] reads a counter [clock] that ticks at every read.
    - [threading.Timer] objects live in a store [timers]; the machine holds an
      index into it.  The lock is not represented: every operation below is
      one critical section, or a sequence of critical sections run without
      interleaving; the interleavings are the traces of [Sched.run]. *)

From Stdlib Require Import ZArith QArith Qminmax Lia Lqa String Ascii List Bool.
From Stdlib Require Import DecimalString DecimalNat SpecFloat.
From stdpp Require Import base option list gmap strings.

Local Open Scope string_scope.
Local Open Scope Z_scope.
Local Open Scope list_scope.

(** ** Exceptions and results *)

Inductive exn : Type :=
  | KeyError
  | ValueError
  | ZeroDivisionError
  | TypeError
  | IndexError
  | RecursionError
  | OverflowError.

Inductive result (A : Type) : Type :=
  | Ok (a : A)
  | Err (e : exn).
Arguments Ok {A} a.
Arguments Err {A} e.

Definition rbind {A B} (r : result A) (k : A -> result B) : result B :=
  match r with
  | Ok a => k a
  | Err e => Err e
  end.

Notation "'let?' x ':=' r 'in' k" := (rbind r (fun x => k))
  (at level 10, x pattern, r at level 100, k at level 200).

(** The builtins [int(s)] and [float(s)]: [None] stands for [ValueError].
    The value of [float(s)] is the rational that the float stands for; the
    strings that [float] reads as an infinity or as NaN have none here, and
    a threshold of that kind is a threshold of [Binary64.SensorTrigger]
    only. *)
Class PyBuiltins : Type := {
  py_int : string -> option Z;
  py_float : string -> option Q
}.

Definition of_option {A} (e : exn) (o : option A) : result A :=
  match o with
  | Some a => Ok a
  | None => Err e
  end.

(** ** Python string operations used by the program *)

Module Str.

(** [c.isspace()] on the characters 0..255: TAB..CR, FS..US, the space,
    NEL (133) and the no-break space (160). *)
Definition isspace (c : ascii) : bool :=
  let n := nat_of_ascii c in
  ((9 <=? n) && (n <=? 13) || (28 <=? n) && (n <=? 32)
   || (n =? 133) || (n =? 160))%nat.

Fixpoint lstrip (s : string) : string :=
  match s with
  | String c s' => if isspace c then lstrip s' else s
  | EmptyString => EmptyString
  end.

(** [s.strip()] *)
Definition strip (s : string) : string :=
  String.rev (lstrip (String.rev (lstrip s))).

(** [s.split()]: the maximal runs of non-space characters, in order. *)
Fixpoint split_go (cur : string) (s : string) : list string :=
  match s with
  | EmptyString => if String.eqb cur "" then [] else [String.rev cur]
  | String c s' =>
      if isspace c
      then (if String.eqb cur "" then split_go "" s'
            else String.rev cur :: split_go "" s')
      else split_go (String c cur) s'
  end.

Definition split (s : string) : list string := split_go "" s.

(** [s.startswith(p)] *)
Definition startswith (s p : string) : bool := String.prefix p s.

(** [s.find(sub)]: the lowest index of an occurrence, or -1. *)
Definition find (s sub : string) : Z :=
  match String.index 0 sub s with
  | Some i => Z.of_nat i
  | None => -1
  end.

(** [len(s)] *)
Definition len (s : string) : Z := Z.of_nat (String.length s).

(** The bound of a slice: a negative index counts from the end, and the
    result is clipped to [0, len(s)]. *)
Definition slice_bound (s : string) (i : Z) : nat :=
  let i' := if i <? 0 then Z.max 0 (len s + i) else Z.min i (len s) in
  Z.to_nat i'.

(** [s[a:b]] *)
Definition slice (s : string) (a b : Z) : string :=
  let a' := slice_bound s a in
  let b' := slice_bound s b in
  String.substring a' (b' - a')%nat s.

(** [s[a:]] *)
Definition slice_from (s : string) (a : Z) : string :=
  let a' := slice_bound s a in
  String.substring a' (String.length s - a')%nat s.

(** [s[len(s)::-1]]: the start index is clipped to the last character, the
    step is -1 and there is no stop: the whole string, reversed. *)
Definition reversed (s : string) : string := String.rev s.

(** [l[-1]] *)
Definition last_item {A} (l : list A) : result A := of_option IndexError (last l).

(** [s.split(sep)] for a one-character separator: the pieces between the
    separators, empty ones included. *)
Fixpoint split_on_go (sep : ascii) (cur : string) (s : string) : list string :=
  match s with
  | EmptyString => [String.rev cur]
  | String c s' =>
      if Ascii.eqb c sep then String.rev cur :: split_on_go sep "" s'
      else split_on_go sep (String c cur) s'
  end.

Definition split_on (sep : ascii) (s : string) : list string := split_on_go sep "" s.

(** [[i for i, c in enumerate(s) if c == ch]], counting from [i]. *)
Fixpoint indices_of (ch : ascii) (i : nat) (s : string) : list nat :=
  match s with
  | EmptyString => []
  | String c s' =>
      if Ascii.eqb c ch then i :: indices_of ch (S i) s' else indices_of ch (S i) s'
  end.

(** [''.join(l)] *)
Fixpoint join (l : list string) : string :=
  match l with
  | [] => EmptyString
  | s :: l' => String.append s (join l')
  end.

(** [str(n)] for a natural number: its decimal digits. *)
Definition of_nat (n : nat) : string := NilEmpty.string_of_uint (Nat.to_uint n).

(** The characters of a string, in order. *)
Definition chars (s : string) : list ascii := list_ascii_of_string s.

End Str.

(** ** Prefixes *)

Definition SENSOR_PREFIX : string := "sensor".
Definition CONTROL_PREFIX : string := "control".
Definition STATE_PREFIX : string := "state".
Definition PID_PREFIX : string := "pid controller".
Definition ACTION_PREFIX : string := "user clicks".

(** ** Configuration sections

    A section of the configuration file, as [configparser] hands it to the
    program: the option names and their values, in file order, the options
    of [DEFAULT] included, and each value as it is after interpolation.  A
    file in which the interpolation of a value raises is no section of this
    model: what is proved of a section is proved of the files that
    [configparser] reads without an error. *)

Definition section : Type := list (string * string).

Module SectionProxy.

(** [section[key]] *)
Fixpoint get (sec : section) (key : string) : option string :=
  match sec with
  | [] => None
  | (k, v) :: sec' => if String.eqb k key then Some v else get sec' key
  end.

(** [section.getint(key)], whose fallback is [None], and in general
    [section.getint(key, fallback)]: the fallback when the option is absent,
    [ValueError] when its value is not an integer. *)
Definition getint `{PyBuiltins} (sec : section) (key : string)
    (fallback : option Z) : result (option Z) :=
  match get sec key with
  | None => Ok fallback
  | Some v =>
      match py_int v with
      | Some n => Ok (Some n)
      | None => Err ValueError
      end
  end.

(** [section.getint(key, d)] with an integer fallback [d]: always an integer. *)
Definition getint_or `{PyBuiltins} (sec : section) (key : string) (d : Z) : result Z :=
  match get sec key with
  | None => Ok d
  | Some v => of_option ValueError (py_int v)
  end.

(** [section.get(key, fallback, raw=True)] *)
Definition get_default (sec : section) (key : string) (fallback : string) : string :=
  match get sec key with
  | Some v => v
  | None => fallback
  end.

End SectionProxy.

(** ** Numbers *)

Definition Qltb (x y : Q) : bool := negb (Qle_bool y x).

(** Python's [max(a, b)] is [b] when [b > a] and [a] otherwise, and
    [min(a, b)] is [b] when [b < a] and [a] otherwise: these are [Qmax] and
    [Qmin] of the Standard Library, argument for argument. *)
Definition py_max (a b : Q) : Q := Qmax a b.
Definition py_min (a b : Q) : Q := Qmin a b.

(** ** SensorConfig *)

Module SensorConfig.

Record t : Type := {
  name : string;
  raw_lo : Z;
  raw_hi : option Z;   (* [None] when the option 'raw high' is absent *)
  sho_lo : Z;
  sho_hi : Z;
  format : string
}.

Definition init `{PyBuiltins} (name : string) (sec : section) : result t :=
  let? raw_lo := SectionProxy.getint_or sec "raw low" 0 in
  let? raw_hi := SectionProxy.getint sec "raw high" None in
  let? sho_lo := SectionProxy.getint_or sec "display low" 0 in
  let? sho_hi := SectionProxy.getint_or sec "display high" 100 in
  let default_format :=
    if (sho_lo =? 0) && (sho_hi =? 100) then "{:.0f}%" else "{}" in
  Ok {| name := name; raw_lo := raw_lo; raw_hi := raw_hi;
        sho_lo := sho_lo; sho_hi := sho_hi;
        format := SectionProxy.get_default sec "format" default_format |}.

(** [(raw - raw_lo) / (raw_hi - raw_lo) * (sho_hi - sho_lo) + sho_lo]:
    the subtraction from an absent [raw_hi] is a [TypeError], the division
    by a zero width a [ZeroDivisionError]. *)
Definition __lerp__ (c : t) (raw : Z) : result Q :=
  match raw_hi c with
  | None => Err TypeError
  | Some hi =>
      if hi - raw_lo c =? 0 then Err ZeroDivisionError
      else Ok (inject_Z (raw - raw_lo c) / inject_Z (hi - raw_lo c)
               * inject_Z (sho_hi c - sho_lo c) + inject_Z (sho_lo c))%Q
  end.

Definition lerp (c : t) (raw : Z) : result Q :=
  let? d := __lerp__ c raw in
  Ok (py_min (inject_Z (sho_hi c)) (py_max (inject_Z (sho_lo c)) d)).

End SensorConfig.

(** ** ControlConfig *)

Module ControlConfig.

Record t : Type := {
  name : string;
  raw_lo : Z;
  raw_hi : option Z;
  sho_lo : Z;
  sho_hi : Z;
  format : string
}.

Definition init `{PyBuiltins} (name : string) (sec : section) : result t :=
  let? raw_lo := SectionProxy.getint_or sec "raw low" 0 in
  let? raw_hi := SectionProxy.getint sec "raw high" None in
  let? sho_lo := SectionProxy.getint_or sec "display low" 0 in
  let? sho_hi := SectionProxy.getint_or sec "display high" 100 in
  let default_format :=
    if (sho_lo =? 0) && (sho_hi =? 100) then "{:.0f}%" else "{}" in
  Ok {| name := name; raw_lo := raw_lo; raw_hi := raw_hi;
        sho_lo := sho_lo; sho_hi := sho_hi;
        format := SectionProxy.get_default sec "format" default_format |}.

(** [(sho - sho_lo) / (sho_hi - sho_lo) * (raw_hi - raw_lo) + raw_lo]:
    the division is evaluated before [raw_hi] is looked at. *)
Definition __lerp__ (c : t) (sho : Z) : result Q :=
  if sho_hi c - sho_lo c =? 0 then Err ZeroDivisionError
  else match raw_hi c with
       | None => Err TypeError
       | Some hi =>
           Ok (inject_Z (sho - sho_lo c) / inject_Z (sho_hi c - sho_lo c)
               * inject_Z (hi - raw_lo c) + inject_Z (raw_lo c))%Q
       end.

(** [min(raw_hi, max(raw_lo, ...))]: [__lerp__] has already failed when
    [raw_hi] is absent. *)
Definition lerp (c : t) (sho : Z) : result Q :=
  let? d := __lerp__ c sho in
  match raw_hi c with
  | None => Err TypeError
  | Some hi => Ok (py_min (inject_Z hi) (py_max (inject_Z (raw_lo c)) d))
  end.

End ControlConfig.

(** ** SensorTrigger *)

Module SensorTrigger.

Record t : Type := {
  sensor : string;
  direction : Z;
  threshold : Q
}.

(** [direction * val > direction * threshold] *)
Definition triggers (tr : t) (val : Q) : bool :=
  Qltb (inject_Z (direction tr) * threshold tr) (inject_Z (direction tr) * val).

End SensorTrigger.

Definition parse_sensor_trigger `{PyBuiltins} (description : string)
    : result (option SensorTrigger.t) :=
  if negb (Str.startswith description SENSOR_PREFIX) then Ok None else
  let noitpircsed := Str.reversed description in
  let evoba_index := Str.find noitpircsed "evoba" in
  let woleb_index := Str.find noitpircsed "woleb" in
  if (evoba_index <? 0) && (woleb_index <? 0) then Ok None else
  let '(direction, direction_index) :=
    if (woleb_index <? 0) || ((0 <=? evoba_index) && (evoba_index <? woleb_index))
    then (1, evoba_index + Str.len "above")
    else (-1, woleb_index + Str.len "below") in
  let direction_index := Str.len description - direction_index - 1 in
  let sensor_name :=
    Str.strip (Str.slice description (Str.len SENSOR_PREFIX) direction_index) in
  let? token := Str.last_item (Str.split description) in
  match py_float token with
  | None => Ok None
  | Some threshold =>
      Ok (Some {| SensorTrigger.sensor := sensor_name;
                  SensorTrigger.direction := direction;
                  SensorTrigger.threshold := threshold |})
  end.

(** ** A decimal instance of the builtins

    The fragment of [int()] and [float()] that configuration files use:
    optional surrounding white space, an optional sign, decimal digits and,
    for [float()], an optional fractional part.  It is the instance at which
    the scenarios below are run. *)

Module Decimal.

Definition digit (c : ascii) : option Z :=
  let n := nat_of_ascii c in
  if ((48 <=? n) && (n <=? 57))%nat then Some (Z.of_nat n - 48) else None.

(** The value of a run of digits and its length; [None] on any other
    character. *)
Fixpoint digits (acc : Z) (k : nat) (s : string) : option (Z * nat) :=
  match s with
  | EmptyString => Some (acc, k)
  | String c s' =>
      match digit c with
      | Some d => digits (10 * acc + d) (S k) s'
      | None => None
      end
  end.

Definition unsigned_int (s : string) : option Z :=
  match digits 0 0%nat s with
  | Some (n, S _) => Some n
  | _ => None
  end.

Definition signed {A} (neg : A -> A) (body : string -> option A) (s : string)
    : option A :=
  match s with
  | String "-" s' => option_map neg (body s')
  | String "+" s' => body s'
  | _ => body s
  end.

Definition int (s : string) : option Z :=
  signed Z.opp unsigned_int (Str.strip s).

Fixpoint split_dot (acc : string) (s : string) : string * option string :=
  match s with
  | EmptyString => (String.rev acc, None)
  | String "." s' => (String.rev acc, Some s')
  | String c s' => split_dot (String c acc) s'
  end.

Definition unsigned_float (s : string) : option Q :=
  match split_dot "" s with
  | (i, None) => option_map inject_Z (unsigned_int i)
  | (i, Some f) =>
      match digits 0 0%nat i, digits 0 0%nat f with
      | Some (n, ki), Some (m, kf) =>
          if (ki + kf =? 0)%nat then None
          else Some (Qred (Qmake (n * 10 ^ Z.of_nat kf + m)
                                 (Z.to_pos (10 ^ Z.of_nat kf))))
      | _, _ => None
      end
  end.

Definition float (s : string) : option Q :=
  signed Qopp unsigned_float (Str.strip s).

Definition builtins : PyBuiltins := {| py_int := int; py_float := float |}.

End Decimal.

(** ** StateConfig *)

Module StateConfig.

Record t : Type := {
  __name__ : string;
  __cfg__ : section;
  __timed_transition__ : option (string * Q);
  __triggers__ : list (SensorTrigger.t * string)
}.

(** The comprehension [[(trigger, tgt) for desc, tgt in items if
    (trigger := parse_sensor_trigger(desc)) is not None]]. *)
Fixpoint parse_triggers `{PyBuiltins} (items : section)
    : result (list (SensorTrigger.t * string)) :=
  match items with
  | [] => Ok []
  | (desc, tgt) :: items' =>
      let? trigger := parse_sensor_trigger desc in
      let? rest := parse_triggers items' in
      Ok (match trigger with
          | Some tr => (tr, tgt) :: rest
          | None => rest
          end)
  end.

Definition init `{PyBuiltins} (name : string) (sec : section) : result t :=
  let timed :=
    match SectionProxy.get sec "time passes", SectionProxy.get sec "duration" with
    | Some tgt, Some dur =>
        match py_float dur with
        | Some duration => Some (tgt, duration)
        | None => None
        end
    | _, _ => None
    end in
  let? triggers := parse_triggers sec in
  Ok {| __name__ := name; __cfg__ := sec;
        __timed_transition__ := timed; __triggers__ := triggers |}.

Definition name (sc : t) : string := __name__ sc.

(** [[(nm[len(CONTROL_PREFIX):].strip(), int(val)) for nm, val in items if
    nm.startswith(CONTROL_PREFIX)]] *)
Fixpoint control_settings_of `{PyBuiltins} (items : section)
    : result (list (string * Z)) :=
  match items with
  | [] => Ok []
  | (nm, val) :: items' =>
      if Str.startswith nm CONTROL_PREFIX then
        let? n := of_option ValueError (py_int val) in
        let? rest := control_settings_of items' in
        Ok ((Str.strip (Str.slice_from nm (Str.len CONTROL_PREFIX)), n) :: rest)
      else control_settings_of items'
  end.

Definition control_settings `{PyBuiltins} (sc : t) : result (list (string * Z)) :=
  control_settings_of (__cfg__ sc).

Definition actions (sc : t) : list (string * string) :=
  omap (fun '(nm, val) =>
          if Str.startswith nm ACTION_PREFIX
          then Some (Str.strip (Str.slice_from nm (Str.len ACTION_PREFIX)), val)
          else None) (__cfg__ sc).

(** The first declared trigger on [sensor] that fires on [val]. *)
Fixpoint trigger_in (l : list (SensorTrigger.t * string)) (sensor : string)
    (val : Q) : option string :=
  match l with
  | [] => None
  | (tr, tgt) :: l' =>
      if String.eqb sensor (SensorTrigger.sensor tr) && SensorTrigger.triggers tr val
      then Some tgt
      else trigger_in l' sensor val
  end.

Definition trigger (sc : t) (sensor : string) (val : Q) : option string :=
  trigger_in (__triggers__ sc) sensor val.

Definition triggers (sc : t) : list (SensorTrigger.t * string) := __triggers__ sc.

End StateConfig.

(** ** IceMeltConfig: the sections of the file, in file order *)

Module IceMeltConfig.

Definition t : Type := list (string * section).

(** [[(nm := sec_nm[len(prefix):].strip(), factory(nm, cfg[sec_nm])) for
    sec_nm in sections if sec_nm.startswith(prefix)]] *)
Fixpoint __prefixed_sections__ {A} (cfg : t) (prefix : string)
    (factory : string -> section -> result A) : result (list (string * A)) :=
  match cfg with
  | [] => Ok []
  | (sec_nm, sec) :: cfg' =>
      if Str.startswith sec_nm prefix then
        let nm := Str.strip (Str.slice_from sec_nm (Str.len prefix)) in
        let? a := factory nm sec in
        let? rest := __prefixed_sections__ cfg' prefix factory in
        Ok ((nm, a) :: rest)
      else __prefixed_sections__ cfg' prefix factory
  end.

Definition sensors `{PyBuiltins} (cfg : t) :=
  __prefixed_sections__ cfg SENSOR_PREFIX SensorConfig.init.
Definition controls `{PyBuiltins} (cfg : t) :=
  __prefixed_sections__ cfg CONTROL_PREFIX ControlConfig.init.
Definition states `{PyBuiltins} (cfg : t) :=
  __prefixed_sections__ cfg STATE_PREFIX StateConfig.init.

Fixpoint get_section (cfg : t) (nm : string) : option section :=
  match cfg with
  | [] => None
  | (k, sec) :: cfg' => if String.eqb k nm then Some sec else get_section cfg' nm
  end.

(** [cfg['server']['initial state']] *)
Definition initial_state (cfg : t) : result string :=
  let? server := of_option KeyError (get_section cfg "server") in
  of_option KeyError (SectionProxy.get server "initial state").

End IceMeltConfig.

(** ** Live values and timers *)

Module SensorState.

Record t : Type := {
  __cfg__ : SensorConfig.t;
  __as_of__ : option nat;
  __val__ : Z
}.

Definition init (cfg : SensorConfig.t) : t :=
  {| __cfg__ := cfg; __as_of__ := None; __val__ := 0 |}.

Definition val_float (ss : t) : result Q :=
  match __as_of__ ss with
  | None => Err ValueError
  | Some _ => SensorConfig.lerp (__cfg__ ss) (__val__ ss)
  end.

Definition set_raw (ss : t) (val : Z) (now : nat) : t :=
  {| __cfg__ := __cfg__ ss; __as_of__ := Some now; __val__ := val |}.

Definition name (ss : t) : string := SensorConfig.name (__cfg__ ss).

End SensorState.

Module ControlState.

Record t : Type := {
  __cfg__ : ControlConfig.t;
  __as_of__ : option nat;
  __val__ : Z
}.

Definition init (cfg : ControlConfig.t) : t :=
  {| __cfg__ := cfg; __as_of__ := None; __val__ := 0 |}.

End ControlState.

(** A [threading.Timer(interval, IceMeltState.transition, [state, src, tgt])]
    that has been started.  Its thread sleeps for [interval], then reads the
    event [finished]: if it is clear the thread goes on to call
    [transition(src, tgt)] and sets [finished] afterwards.  [cancel()] sets
    [finished], which stops a thread that still sleeps and nothing else. *)
Module Timer.

Inductive phase : Type :=
  | Sleeping    (* inside [finished.wait(interval)] *)
  | Calling     (* has seen [finished] clear, the call is not yet made *)
  | Exited.

Record t : Type := {
  interval : Q;
  src : string;
  tgt : string;
  finished : bool;
  stage : phase
}.

Definition cancel (tm : t) : t :=
  {| interval := interval tm; src := src tm; tgt := tgt tm;
     finished := true; stage := stage tm |}.

(** A timer is armed when its call is still to come unless it is cancelled. *)
Definition armed (tm : t) : bool :=
  match stage tm with
  | Sleeping => negb (finished tm)
  | _ => false
  end.

End Timer.

(** ** The state and exception monad *)

Inductive outcome (S A : Type) : Type :=
  | Ret (a : A) (s : S)
  | Raise (e : exn) (s : S).
Arguments Ret {S A} a s.
Arguments Raise {S A} e s.

Definition M (S A : Type) : Type := S -> outcome S A.

Definition ret {S A} (a : A) : M S A := fun s => Ret a s.

Definition bind {S A B} (m : M S A) (k : A -> M S B) : M S B :=
  fun s =>
    match m s with
    | Ret a s' => k a s'
    | Raise e s' => Raise e s'
    end.

Definition raise {S A} (e : exn) : M S A := fun s => Raise e s.

Definition gets {S A} (f : S -> A) : M S A := fun s => Ret (f s) s.

Definition modify {S} (f : S -> S) : M S unit := fun s => Ret tt (f s).

Definition lift {S A} (r : result A) : M S A :=
  match r with
  | Ok a => ret a
  | Err e => raise e
  end.

Notation "x <- c ;; k" := (bind c (fun x => k))
  (at level 100, c at next level, right associativity).
Notation "c ;;; k" := (bind c (fun _ => k))
  (at level 100, right associativity).

(** The store an outcome ends in, whether it returned or raised. *)
Definition store {S A} (o : outcome S A) : S :=
  match o with
  | Ret _ s => s
  | Raise _ s => s
  end.

(** [for x in l: body(x)] *)
Fixpoint for_each {S A} (l : list A) (body : A -> M S unit) : M S unit :=
  match l with
  | [] => ret tt
  | a :: l' => body a ;;; for_each l' body
  end.

(** [dict(l)] and dict comprehensions: a later binding of a key replaces an
    earlier one. *)
Definition py_dict {V} (l : list (string * V)) : gmap string V :=
  foldl (fun m p => <[p.1 := p.2]> m) ∅ l.

(** ** IceMeltState *)

Module IceMeltState.

Record t : Type := {
  __current_state__ : option string;
  __timer__ : option nat;                      (* a reference into [timers] *)
  __sensors__ : gmap string SensorState.t;
  __controls__ : gmap string ControlState.t;
  __states__ : gmap string StateConfig.t;
  __last_transition__ : option nat;            (* unset before the first transition *)
  timers : list Timer.t;                       (* every timer started so far *)
  clock : nat;                                 (* [datetime.now()] *)
  stdout : list (string * Q)                   (* what [print] has written *)
}.

Definition set_current_state (v : option string) (w : t) : t :=
  {| __current_state__ := v; __timer__ := __timer__ w;
     __sensors__ := __sensors__ w; __controls__ := __controls__ w;
     __states__ := __states__ w; __last_transition__ := __last_transition__ w;
     timers := timers w; clock := clock w; stdout := stdout w |}.

Definition set_timer (v : option nat) (w : t) : t :=
  {| __current_state__ := __current_state__ w; __timer__ := v;
     __sensors__ := __sensors__ w; __controls__ := __controls__ w;
     __states__ := __states__ w; __last_transition__ := __last_transition__ w;
     timers := timers w; clock := clock w; stdout := stdout w |}.

Definition set_sensors (v : gmap string SensorState.t) (w : t) : t :=
  {| __current_state__ := __current_state__ w; __timer__ := __timer__ w;
     __sensors__ := v; __controls__ := __controls__ w;
     __states__ := __states__ w; __last_transition__ := __last_transition__ w;
     timers := timers w; clock := clock w; stdout := stdout w |}.

Definition set_controls (v : gmap string ControlState.t) (w : t) : t :=
  {| __current_state__ := __current_state__ w; __timer__ := __timer__ w;
     __sensors__ := __sensors__ w; __controls__ := v;
     __states__ := __states__ w; __last_transition__ := __last_transition__ w;
     timers := timers w; clock := clock w; stdout := stdout w |}.

Definition set_states (v : gmap string StateConfig.t) (w : t) : t :=
  {| __current_state__ := __current_state__ w; __timer__ := __timer__ w;
     __sensors__ := __sensors__ w; __controls__ := __controls__ w;
     __states__ := v; __last_transition__ := __last_transition__ w;
     timers := timers w; clock := clock w; stdout := stdout w |}.

Definition set_last_transition (v : option nat) (w : t) : t :=
  {| __current_state__ := __current_state__ w; __timer__ := __timer__ w;
     __sensors__ := __sensors__ w; __controls__ := __controls__ w;
     __states__ := __states__ w; __last_transition__ := v;
     timers := timers w; clock := clock w; stdout := stdout w |}.

Definition set_timers (v : list Timer.t) (w : t) : t :=
  {| __current_state__ := __current_state__ w; __timer__ := __timer__ w;
     __sensors__ := __sensors__ w; __controls__ := __controls__ w;
     __states__ := __states__ w; __last_transition__ := __last_transition__ w;
     timers := v; clock := clock w; stdout := stdout w |}.

Definition set_clock (v : nat) (w : t) : t :=
  {| __current_state__ := __current_state__ w; __timer__ := __timer__ w;
     __sensors__ := __sensors__ w; __controls__ := __controls__ w;
     __states__ := __states__ w; __last_transition__ := __last_transition__ w;
     timers := timers w; clock := v; stdout := stdout w |}.

Definition set_stdout (v : list (string * Q)) (w : t) : t :=
  {| __current_state__ := __current_state__ w; __timer__ := __timer__ w;
     __sensors__ := __sensors__ w; __controls__ := __controls__ w;
     __states__ := __states__ w; __last_transition__ := __last_transition__ w;
     timers := timers w; clock := clock w; stdout := v |}.

(** [datetime.now()] *)
Definition now : M t nat :=
  n <- gets clock ;; modify (set_clock (S n)) ;;; ret n.

(** [print('set {} to {}'.format(name, value))] *)
Definition print (name : string) (value : Q) : M t unit :=
  modify (fun w => set_stdout (stdout w ++ [(name, value)]) w).

(** [self.__controls__[nm].set_value(val)] *)
Definition set_value (nm : string) (val : Z) : M t unit :=
  controls <- gets __controls__ ;;
  match controls !! nm with
  | None => raise KeyError
  | Some cs =>
      n <- now ;;
      modify (fun w =>
        set_controls
          (<[nm := {| ControlState.__cfg__ := ControlState.__cfg__ cs;
                      ControlState.__as_of__ := Some n;
                      ControlState.__val__ := val |}]> (__controls__ w)) w) ;;;
      v <- lift (ControlConfig.lerp (ControlState.__cfg__ cs) val) ;;
      print (ControlConfig.name (ControlState.__cfg__ cs)) v
  end.

(** [if self.__timer__ is not None: self.__timer__.cancel()] *)
Definition cancel_timer : M t unit :=
  tm <- gets __timer__ ;;
  match tm with
  | None => ret tt
  | Some i => modify (fun w => set_timers (alter Timer.cancel i (timers w)) w)
  end.

(** [scfg.timer(self)]: a started timer, or [None]. *)
Definition timer (scfg : StateConfig.t) : M t (option nat) :=
  match StateConfig.__timed_transition__ scfg with
  | None => ret None
  | Some (tgt, dur) =>
      ts <- gets timers ;;
      modify (set_timers
                (ts ++ [{| Timer.interval := dur;
                           Timer.src := StateConfig.__name__ scfg;
                           Timer.tgt := tgt;
                           Timer.finished := false;
                           Timer.stage := Timer.Sleeping |}])) ;;;
      ret (Some (length ts))
  end.

(** The loop over [scfg.triggers()] with its [break] and [else]: the target
    of the first trigger that fires on a recorded display value.  The
    [ValueError] of an unset sensor and the [KeyError] of an unknown one are
    passed over; any other exception leaves the loop. *)
Fixpoint cascade (sensors : gmap string SensorState.t)
    (l : list (SensorTrigger.t * string)) : result (option string) :=
  match l with
  | [] => Ok None
  | (trigger, new_tgt) :: l' =>
      match sensors !! SensorTrigger.sensor trigger with
      | None => cascade sensors l'
      | Some ss =>
          match SensorState.val_float ss with
          | Ok v =>
              if SensorTrigger.triggers trigger v then Ok (Some new_tgt)
              else cascade sensors l'
          | Err ValueError => cascade sensors l'
          | Err KeyError => cascade sensors l'
          | Err e => Err e
          end
      end
  end.

(** The body of [transition] under the lock; it returns [new_tgt]. *)
Definition transition_body `{PyBuiltins} (src : option string) (tgt : string)
    : M t (option string) :=
  cur <- gets __current_state__ ;;
  states <- gets __states__ ;;
  if decide (cur = src) then
    match states !! tgt with
    | Some scfg =>
        modify (set_current_state (Some tgt)) ;;;
        settings <- lift (StateConfig.control_settings scfg) ;;
        for_each settings (fun '(nm, val) => set_value nm val) ;;;
        cancel_timer ;;;
        tm <- timer scfg ;;
        modify (set_timer tm) ;;;
        n <- now ;;
        modify (set_last_transition (Some n)) ;;;
        sensors <- gets __sensors__ ;;
        lift (cascade sensors (StateConfig.triggers scfg))
    | None => ret None
    end
  else ret None.

(** [transition(src, tgt)]: the body, then the recursive call on a cascade
    target.  [depth] is the number of nested calls the interpreter still
    allows; when none is left the call raises [RecursionError]. *)
Fixpoint transition `{PyBuiltins} (depth : nat) (src : option string)
    (tgt : string) : M t unit :=
  match depth with
  | O => raise RecursionError
  | S depth' =>
      new_tgt <- transition_body src tgt ;;
      match new_tgt with
      | Some new_tgt => transition depth' (Some tgt) new_tgt
      | None => ret tt
      end
  end.

(** [self.current_state()] *)
Definition current_state : M t StateConfig.t :=
  cur <- gets __current_state__ ;;
  states <- gets __states__ ;;
  match cur with
  | Some nm => lift (of_option KeyError (states !! nm))
  | None => raise KeyError
  end.

Definition set_sensor `{PyBuiltins} (depth : nat) (sensor : string) (value : Z)
    : M t unit :=
  src <- gets __current_state__ ;;
  sensors <- gets __sensors__ ;;
  tgt <- match sensors !! sensor with
         | None => ret None
         | Some ss =>
             n <- now ;;
             let ss' := SensorState.set_raw ss value n in
             modify (fun w => set_sensors (<[sensor := ss']> (__sensors__ w)) w) ;;;
             scfg <- current_state ;;
             v <- lift (SensorState.val_float ss') ;;
             ret (StateConfig.trigger scfg sensor v)
         end ;;
  match tgt with
  | Some tgt => transition depth src tgt
  | None => ret tt
  end.

(** The store before the machine exists: nothing started, nothing printed. *)
Definition blank : t :=
  {| __current_state__ := None; __timer__ := None;
     __sensors__ := ∅; __controls__ := ∅; __states__ := ∅;
     __last_transition__ := None; timers := []; clock := 0%nat; stdout := [] |}.

(** [IceMeltState(cfg)] *)
Definition init `{PyBuiltins} (depth : nat) (cfg : IceMeltConfig.t) : M t unit :=
  modify (set_current_state None) ;;;
  modify (set_timer None) ;;;
  sensors <- lift (IceMeltConfig.sensors cfg) ;;
  modify (set_sensors (py_dict (map (fun p => (p.1, SensorState.init p.2)) sensors))) ;;;
  controls <- lift (IceMeltConfig.controls cfg) ;;
  modify (set_controls (py_dict (map (fun p => (p.1, ControlState.init p.2)) controls))) ;;;
  states <- lift (IceMeltConfig.states cfg) ;;
  modify (set_states (py_dict states)) ;;;
  initial <- lift (IceMeltConfig.initial_state cfg) ;;
  transition depth None initial.

End IceMeltState.

(** ** The sensor feed and the request handler *)

(** One turn of the loop of [read_sensors_forever] on a line that [input()]
    has returned. *)
Definition read_sensor_line `{PyBuiltins} (depth : nat) (line : string)
    : M IceMeltState.t unit :=
  ix <- lift (Str.last_item (Str.indices_of " " 0 line)) ;;
  let sensor := Str.slice line 0 (Z.of_nat ix) in
  let value := Str.slice_from line (Z.of_nat ix + 1) in
  match py_int value with
  | None => ret tt
  | Some value => IceMeltState.set_sensor depth sensor value
  end.

Definition SAFE_ID_CHARS : string :=
  "abcdefghijklmnopqrstuvwxyzABCDEFGHIJKLMNOPQRSTUVWXYZ0123456789_".

(** [c in SAFE_ID_CHARS] *)
Definition is_safe_id_char (c : ascii) : bool :=
  existsb (Ascii.eqb c) (Str.chars SAFE_ID_CHARS).

(** [c if c in SAFE_ID_CHARS else '-{}-'.format(ord(c))] *)
Definition escape_char (c : ascii) : string :=
  if is_safe_id_char c then String c EmptyString
  else String.append "-" (String.append (Str.of_nat (nat_of_ascii c)) "-").

Definition escape_id (s : string) : string :=
  String.append "a" (Str.join (map escape_char (Str.chars s))).

Module RequestHandler.

(** The branch of [do_GET] that a path selects; for the transition branch,
    the two names it passes to [state.transition].  What the branches write
    to the client is not represented. *)
Inductive branch : Type :=
  | Document
  | ContentOnly
  | Transition (src tgt : string)
  | HtmxJs
  | NotFound.

Definition route (path : string) : result branch :=
  if String.eqb path "/" then Ok Document
  else if String.eqb path "/content-only" then Ok ContentOnly
  else if Str.startswith path "/transition/"
          && (length (Str.split_on "/" path) =? 4)%nat
  then match Str.split_on "/" path with
       | [_; _; src; tgt] => Ok (Transition src tgt)
       | _ => Err ValueError
       end
  else if String.eqb path "/htmx.js" then Ok HtmxJs
  else Ok NotFound.

(** The effect of [do_GET] on the machine. *)
Definition do_GET `{PyBuiltins} (depth : nat) (path : string)
    : M IceMeltState.t branch :=
  b <- lift (route path) ;;
  match b with
  | Transition src tgt => IceMeltState.transition depth (Some src) tgt ;;; ret b
  | _ => ret b
  end.

End RequestHandler.

(** ** The actors around the machine

    The sensor feed, the request handler and the timer threads, each taking
    the lock for one call of the machine.  A trace is one order in which
    they obtain it.  A timer thread acts twice: it wakes up and reads
    [finished] without the lock ([Wake]), and, if it found the event clear,
    it later obtains the lock for its call ([Call]). *)

Module Sched.

Import IceMeltState.

Inductive event : Type :=
  | Request (src tgt : string)          (* GET /transition/src/tgt *)
  | Reading (sensor : string) (value : Z)
  | Wake (i : nat)
  | Call (i : nat).

Definition wake (tm : Timer.t) : Timer.t :=
  match Timer.stage tm with
  | Timer.Sleeping =>
      {| Timer.interval := Timer.interval tm; Timer.src := Timer.src tm;
         Timer.tgt := Timer.tgt tm; Timer.finished := Timer.finished tm;
         Timer.stage := if Timer.finished tm then Timer.Exited else Timer.Calling |}
  | _ => tm
  end.

(** The end of [Timer.run]: [finished.set()] is reached only when the call
    returned. *)
Definition exit (returned : bool) (tm : Timer.t) : Timer.t :=
  {| Timer.interval := Timer.interval tm; Timer.src := Timer.src tm;
     Timer.tgt := Timer.tgt tm;
     Timer.finished := if returned then true else Timer.finished tm;
     Timer.stage := Timer.Exited |}.

Definition returned {S A} (o : outcome S A) : bool :=
  match o with
  | Ret _ _ => true
  | Raise _ _ => false
  end.

Definition step `{PyBuiltins} (depth : nat) (ev : event) (w : t) : t :=
  match ev with
  | Request src tgt => store (transition depth (Some src) tgt w)
  | Reading sensor value => store (set_sensor depth sensor value w)
  | Wake i => set_timers (alter wake i (timers w)) w
  | Call i =>
      match timers w !! i with
      | Some tm =>
          match Timer.stage tm with
          | Timer.Calling =>
              let o := transition depth (Some (Timer.src tm)) (Timer.tgt tm) w in
              set_timers (alter (exit (returned o)) i (timers (store o))) (store o)
          | _ => w
          end
      | None => w
      end
  end.

Definition run `{PyBuiltins} (depth : nat) (evs : list event) (w : t) : t :=
  foldl (fun w ev => step depth ev w) w evs.

End Sched.

(** ** The properties, in the words of the specification *)

Module Spec.

Import IceMeltState.


(** [display = (raw - rawLo) / (rawHi - rawLo) * (shoHi - shoLo) + shoLo] *)
Definition interpolate (raw rawLo rawHi shoLo shoHi : Z) : Q :=
  (inject_Z (raw - rawLo) / inject_Z (rawHi - rawLo)
   * inject_Z (shoHi - shoLo) + inject_Z shoLo)%Q.

(** What clamping [x] into [lo, hi] means. *)
Definition clamped (lo hi x v : Q) : Prop :=
  (lo <= v /\ v <= hi /\
   (lo <= x -> x <= hi -> v == x) /\ (x < lo -> v == lo) /\ (hi < x -> v == hi))%Q.

(** The display value of a sensor that has a recorded value. *)
Definition recorded_display (sensors : gmap string SensorState.t) (nm : string)
    : option Q :=
  match sensors !! nm with
  | Some ss =>
      match SensorState.__as_of__ ss with
      | Some _ =>
          match SensorConfig.lerp (SensorState.__cfg__ ss) (SensorState.__val__ ss) with
          | Ok v => Some v
          | Err _ => None
          end
      | None => None
      end
  | None => None
  end.

(** A trigger whose sensor has a recorded value and whose condition holds on
    the display value. *)
Definition fires (sensors : gmap string SensorState.t) (tr : SensorTrigger.t) : bool :=
  match recorded_display sensors (SensorTrigger.sensor tr) with
  | Some v => SensorTrigger.triggers tr v
  | None => false
  end.


(** A sensor without a recorded value, or absent from the live map. *)
Definition unset (sensors : gmap string SensorState.t) (nm : string) : Prop :=
  match sensors !! nm with
  | Some ss => SensorState.__as_of__ ss = None
  | None => True
  end.


(** The control settings of a state can be applied: the values are integers,
    the controls exist and their scales give a raw value. *)
Definition settings_ok `{PyBuiltins} (w : t) (scfg : StateConfig.t) : Prop :=
  exists l, StateConfig.control_settings scfg = Ok l /\
    Forall (fun p => exists cs q, __controls__ w !! fst p = Some cs /\
              ControlConfig.lerp (ControlState.__cfg__ cs) (snd p) = Ok q) l.

(** What the control-output hook receives for one setting. *)
Definition output_of (w : t) (p : string * Z) : list (string * Q) :=
  match __controls__ w !! fst p with
  | Some cs =>
      match ControlConfig.lerp (ControlState.__cfg__ cs) (snd p) with
      | Ok q => [(ControlConfig.name (ControlState.__cfg__ cs), q)]
      | Err _ => []
      end
  | None => []
  end.

(** The current state name is a key of the state table. *)
Definition current_valid (w : t) : Prop :=
  exists nm, __current_state__ w = Some nm /\ is_Some (__states__ w !! nm).

(** The current state name is a key of the state table, or the machine is
    still uninitialized. *)
Definition current_known (w : t) : Prop :=
  forall nm, __current_state__ w = Some nm -> is_Some (__states__ w !! nm).

(** The number of armed timers. *)
Definition armed_count (w : t) : nat :=
  length (filter (fun tm => Timer.armed tm = true) (timers w)).

(** The only timer that can be armed is the one the machine holds. *)
Definition timers_ok_at (ts : list Timer.t) (held : option nat) : Prop :=
  forall i tm, ts !! i = Some tm -> Timer.armed tm = true -> held = Some i.

Definition timers_ok (w : t) : Prop := timers_ok_at (timers w) (__timer__ w).

(** Steps 3 and 4 of a successful transition: the timer held so far is
    cancelled, then the timer of the entered state, if it declares one, is
    started and held. *)
Definition rearmed (scfg : StateConfig.t) (ts : list Timer.t) (held : option nat)
    : list Timer.t * option nat :=
  let ts' := match held with
             | Some i => alter Timer.cancel i ts
             | None => ts
             end in
  match StateConfig.__timed_transition__ scfg with
  | Some (tgt, dur) =>
      (ts' ++ [{| Timer.interval := dur; Timer.src := StateConfig.__name__ scfg;
                  Timer.tgt := tgt; Timer.finished := false;
                  Timer.stage := Timer.Sleeping |}],
       Some (length ts'))
  | None => (ts', None)
  end.

(** A trigger that sends values above [thr] of sensor [s]. *)
Definition above (s : string) (thr : Q) : SensorTrigger.t :=
  {| SensorTrigger.sensor := s; SensorTrigger.direction := 1;
     SensorTrigger.threshold := thr |}.

(** A trigger that sends values below [thr] of sensor [s]. *)
Definition below (s : string) (thr : Q) : SensorTrigger.t :=
  {| SensorTrigger.sensor := s; SensorTrigger.direction := -1;
     SensorTrigger.threshold := thr |}.

(** A trigger that the clamped display value of a scale cannot reach, as
    stated: above a threshold at or over [shoHi], or below one at or under
    [shoLo]. *)
Definition beyond_range (c : SensorConfig.t) (tr : SensorTrigger.t) : Prop :=
  SensorTrigger.direction tr = 1
    /\ (inject_Z (SensorConfig.sho_hi c) <= SensorTrigger.threshold tr)%Q
  \/ SensorTrigger.direction tr = -1
    /\ (SensorTrigger.threshold tr <= inject_Z (SensorConfig.sho_lo c))%Q.

(** The same for a display range that is not inverted. *)
Definition out_of_reach (c : SensorConfig.t) (tr : SensorTrigger.t) : Prop :=
  SensorTrigger.direction tr = 1
    /\ (inject_Z (SensorConfig.sho_hi c) <= SensorTrigger.threshold tr)%Q
  \/ SensorTrigger.direction tr = -1
    /\ (SensorTrigger.threshold tr <= inject_Z (SensorConfig.sho_lo c))%Q
    /\ SensorConfig.sho_lo c <= SensorConfig.sho_hi c.

(** A trigger beyond the display range matches no display value. *)
Definition beyond_range_never_matches : Prop :=
  forall (c : SensorConfig.t) (raw : Z) (v : Q) (tr : SensorTrigger.t),
    SensorConfig.lerp c raw = Ok v -> beyond_range c tr ->
    SensorTrigger.triggers tr v = false.


(** After construction the current state name is a key of the state table. *)
Definition valid_after_construction : Prop :=
  forall (B : PyBuiltins) (depth : nat) (cfg : IceMeltConfig.t) (w : t),
    init depth cfg blank = Ret tt w -> current_valid w.

(** Once the machine has left the state a timer was started in, the call of
    that timer never has an effect: whatever happens in between, the
    current state is the same before and after the call. *)
Definition late_fire_dead : Prop :=
  forall (B : PyBuiltins) (depth : nat) (w0 : t) (evs1 evs2 : list Sched.event)
         (i : nat) (tm : Timer.t),
    timers_ok w0 ->
    timers w0 !! i = Some tm ->
    __current_state__ w0 = Some (Timer.src tm) ->
    let w1 := Sched.run depth evs1 w0 in
    __current_state__ w1 <> Some (Timer.src tm) ->
    let w2 := Sched.run depth evs2 w1 in
    __current_state__ (Sched.step depth (Sched.Call i) w2) = __current_state__ w2.

(** The controls after the settings of [l] have been applied one after the
    other, the first at the time [t]: the control that a setting names
    takes the value and the time of that setting, and keeps its
    declaration. *)
Fixpoint applied (l : list (string * Z)) (t : nat)
    (controls : gmap string ControlState.t) : gmap string ControlState.t :=
  match l with
  | [] => controls
  | (nm, val) :: l' =>
      applied l' (S t)
        (match controls !! nm with
         | Some cs =>
             <[nm := {| ControlState.__cfg__ := ControlState.__cfg__ cs;
                        ControlState.__as_of__ := Some t;
                        ControlState.__val__ := val |}]> controls
         | None => controls
         end)
  end.

End Spec.

(** ** Vocabulary of the proofs *)

Module Frame.

Import IceMeltState.

(** [w'] differs from [w] at most in the live values of the controls, in the
    clock and in the output. *)
Record controls_only (w w' : t) : Prop := {
  f_current : __current_state__ w' = __current_state__ w;
  f_timer : __timer__ w' = __timer__ w;
  f_sensors : __sensors__ w' = __sensors__ w;
  f_states : __states__ w' = __states__ w;
  f_last : __last_transition__ w' = __last_transition__ w;
  f_timers : timers w' = timers w;
  f_controls : forall nm,
    ControlState.__cfg__ <$> (__controls__ w' !! nm) =
    ControlState.__cfg__ <$> (__controls__ w !! nm)
}.

(** A computation that leaves the projection [f] of the store alone,
    whether it returns or raises. *)
Definition keeps {X A} (f : t -> X) (m : M t A) : Prop :=
  forall w, f (store (m w)) = f w.

Definition machine_state (w : t) : option string * gmap string StateConfig.t :=
  (__current_state__ w, __states__ w).

Definition timer_state (w : t) : list Timer.t * option nat :=
  (timers w, __timer__ w).

(** The part of [transition_body] behind the guard. *)
Definition enter `{PyBuiltins} (tgt : string) (scfg : StateConfig.t)
    : M t (option string) :=
  modify (set_current_state (Some tgt)) ;;;
  settings <- lift (StateConfig.control_settings scfg) ;;
  for_each settings (fun '(nm, val) => set_value nm val) ;;;
  cancel_timer ;;;
  tm <- timer scfg ;;
  modify (set_timer tm) ;;;
  n <- now ;;
  modify (set_last_transition (Some n)) ;;;
  sensors <- gets __sensors__ ;;
  lift (cascade sensors (StateConfig.triggers scfg)).

(** The part of [set_sensor] under the lock. *)
Definition check (sensor : string) (value : Z) : M t (option string) :=
  sensors <- gets __sensors__ ;;
  match sensors !! sensor with
  | None => ret None
  | Some ss =>
      n <- now ;;
      let ss' := SensorState.set_raw ss value n in
      modify (fun w => set_sensors (<[sensor := ss']> (__sensors__ w)) w) ;;;
      scfg <- current_state ;;
      v <- lift (SensorState.val_float ss') ;;
      ret (StateConfig.trigger scfg sensor v)
  end.

End Frame.

(** ** The arithmetic of the scales in binary64

    The modules above read [/], [*] and [+] over the rationals, which keeps
    the order of the values and loses their rounding.  CPython computes
    [__lerp__] on floats: [int / int] is the quotient rounded to the nearest
    binary64 value, an [int] operand of a [float] is converted to the
    nearest float first, and both raise [OverflowError] when that value is
    not finite; [float * float] and [float + float] round and give an
    infinity instead.  A comparison of two numbers, [int] or [float], is
    exact.  This module repeats [__lerp__], [lerp] and [html] with that
    arithmetic, and with it the test of a trigger and the loop of
    [transition] over the triggers, on the floats of the Standard Library's
    [SpecFloat]. *)

Module Binary64.

Definition prec : Z := 53.
Definition emax : Z := 1024.

Definition float : Type := spec_float.

(** A Python number: an [int] or a [float]. *)
Inductive number : Type :=
  | Int (n : Z)
  | Float (f : float).

(** The builtin [fmt.format(x)] on one number; it can raise. *)
Class PyFormat : Type := {
  py_format : string -> number -> result string
}.

(** An [int] as a binary value that is not yet rounded. *)
Definition exact (n : Z) : float :=
  match n with
  | Z0 => S754_zero false
  | Zpos p => S754_finite false p 0
  | Zneg p => S754_finite true p 0
  end.

(** An infinite result of a conversion or of a division of ints is an
    [OverflowError]. *)
Definition finite (f : float) : result float :=
  match f with
  | S754_infinity _ => Err OverflowError
  | _ => Ok f
  end.

(** The conversion of an [int] operand: the nearest float, ties to even. *)
Definition of_int (n : Z) : result float :=
  finite (binary_normalize prec emax n 0 false).

(** [a / b] on two ints: the quotient, rounded once. *)
Definition truediv (a b : Z) : result float :=
  if b =? 0 then Err ZeroDivisionError
  else finite (SFdiv prec emax (exact a) (exact b)).

(** [x * n] and [x + n] for a float [x] and an int [n]. *)
Definition mul_int (x : float) (n : Z) : result float :=
  let? y := of_int n in Ok (SFmul prec emax x y).

Definition add_int (x : float) (n : Z) : result float :=
  let? y := of_int n in Ok (SFadd prec emax x y).

(** The value of a number on the rational line extended by the infinities;
    a NaN has none. *)
Inductive ext : Type :=
  | NegInf
  | Fin (q : Q)
  | PosInf
  | NaN.

Definition value (x : number) : ext :=
  match x with
  | Int n => Fin (inject_Z n)
  | Float (S754_zero _) => Fin 0
  | Float (S754_finite s m e) => Fin (inject_Z (cond_Zopp s (Zpos m)) * 2 ^ e)
  | Float (S754_infinity true) => NegInf
  | Float (S754_infinity false) => PosInf
  | Float S754_nan => NaN
  end.

(** The comparison of two numbers is that of their values; a NaN compares
    with nothing. *)
Definition compare (x y : number) : option comparison :=
  match value x, value y with
  | NaN, _ | _, NaN => None
  | NegInf, NegInf | PosInf, PosInf => Some Eq
  | NegInf, _ | _, PosInf => Some Lt
  | _, NegInf | PosInf, _ => Some Gt
  | Fin p, Fin q => Some (p ?= q)%Q
  end.

(** [x < y] *)
Definition ltb (x y : number) : bool :=
  match compare x y with
  | Some Lt => true
  | _ => false
  end.

(** [max(a, b)] is [b] when [b > a] and [a] otherwise; [min(a, b)] is [b]
    when [b < a] and [a] otherwise.  Each returns one of its arguments as it
    is, an [int] or a [float]. *)
Definition py_max (a b : number) : number := if ltb a b then b else a.
Definition py_min (a b : number) : number := if ltb b a then b else a.

Module SensorConfig.

(** [(raw - raw_lo) / (raw_hi - raw_lo) * (sho_hi - sho_lo) + sho_lo] *)
Definition __lerp__ (c : SensorConfig.t) (raw : Z) : result float :=
  match SensorConfig.raw_hi c with
  | None => Err TypeError
  | Some hi =>
      let? q := truediv (raw - SensorConfig.raw_lo c) (hi - SensorConfig.raw_lo c) in
      let? p := mul_int q (SensorConfig.sho_hi c - SensorConfig.sho_lo c) in
      add_int p (SensorConfig.sho_lo c)
  end.

(** [min(sho_hi, max(sho_lo, __lerp__(raw)))] *)
Definition lerp (c : SensorConfig.t) (raw : Z) : result number :=
  let? x := __lerp__ c raw in
  Ok (py_min (Int (SensorConfig.sho_hi c))
             (py_max (Int (SensorConfig.sho_lo c)) (Float x))).

(** [html]: the unclamped display value formatted, replaced by the formatted
    bound behind a mark when it lies under [sho_lo] or over [sho_hi]. *)
Definition html `{PyFormat} (c : SensorConfig.t) (raw : Z) : result string :=
  let fmt := SensorConfig.format c in
  let? disp := __lerp__ c raw in
  let? s := py_format fmt (Float disp) in
  let? s := if ltb (Float disp) (Int (SensorConfig.sho_lo c))
            then (let? f := py_format fmt (Int (SensorConfig.sho_lo c)) in
                  Ok (String.append "<" f))
            else Ok s in
  let? s := if ltb (Int (SensorConfig.sho_hi c)) (Float disp)
            then (let? f := py_format fmt (Int (SensorConfig.sho_hi c)) in
                  Ok (String.append ">" f))
            else Ok s in
  Ok s.

End SensorConfig.

Module ControlConfig.

(** [(sho - sho_lo) / (sho_hi - sho_lo) * (raw_hi - raw_lo) + raw_lo]: the
    division is evaluated before [raw_hi] is looked at. *)
Definition __lerp__ (c : ControlConfig.t) (sho : Z) : result float :=
  let? q := truediv (sho - ControlConfig.sho_lo c)
                    (ControlConfig.sho_hi c - ControlConfig.sho_lo c) in
  match ControlConfig.raw_hi c with
  | None => Err TypeError
  | Some hi =>
      let? p := mul_int q (hi - ControlConfig.raw_lo c) in
      add_int p (ControlConfig.raw_lo c)
  end.

(** [min(raw_hi, max(raw_lo, __lerp__(sho)))] *)
Definition lerp (c : ControlConfig.t) (sho : Z) : result number :=
  let? x := __lerp__ c sho in
  match ControlConfig.raw_hi c with
  | None => Err TypeError
  | Some hi => Ok (py_min (Int hi) (py_max (Int (ControlConfig.raw_lo c)) (Float x)))
  end.

End ControlConfig.

Module SensorState.

(** [val_float] *)
Definition val_float (ss : SensorState.t) : result number :=
  match SensorState.__as_of__ ss with
  | None => Err ValueError
  | Some _ =>
      Binary64.SensorConfig.lerp (SensorState.__cfg__ ss) (SensorState.__val__ ss)
  end.

End SensorState.

Module SensorTrigger.

(** A trigger with the threshold that [float] has made of the last word of
    its declaration: any float, the infinities and NaN included. *)
Record t : Type := {
  sensor : string;
  direction : Z;
  threshold : float
}.

(** [n * x] for an int [n]: an int when [x] is one, and otherwise the
    product of the floats, for which [n] is converted. *)
Definition mul_by (n : Z) (x : number) : result number :=
  match x with
  | Int m => Ok (Int (n * m))
  | Float f => let? d := of_int n in Ok (Float (SFmul prec emax d f))
  end.

(** [self.direction*val > self.direction*self.threshold] *)
Definition triggers (tr : t) (val : number) : result bool :=
  let? a := mul_by (direction tr) val in
  let? b := mul_by (direction tr) (Float (threshold tr)) in
  Ok (ltb b a).

End SensorTrigger.

(** [trigger.triggers(self.__sensors__[trigger.sensor].val_float())] *)
Definition test (sensors : gmap string SensorState.t) (trigger : SensorTrigger.t)
    : result bool :=
  let? ss := of_option KeyError (sensors !! SensorTrigger.sensor trigger) in
  let? v := Binary64.SensorState.val_float ss in
  SensorTrigger.triggers trigger v.

(** The loop of [transition] over the triggers of the entered state: the
    target of the first trigger whose test is true.  A [ValueError] and a
    [KeyError] of the test are passed over; any other exception leaves the
    loop. *)
Fixpoint cascade (sensors : gmap string SensorState.t)
    (l : list (SensorTrigger.t * string)) : result (option string) :=
  match l with
  | [] => Ok None
  | (trigger, new_tgt) :: l' =>
      match test sensors trigger with
      | Ok true => Ok (Some new_tgt)
      | Ok false => cascade sensors l'
      | Err ValueError => cascade sensors l'
      | Err KeyError => cascade sensors l'
      | Err e => Err e
      end
  end.

(** *** What the claims say of these functions *)

(** [display = (raw - rawLo) / (rawHi - rawLo) * (shoHi - shoLo) + shoLo],
    with the operators of the code. *)
Definition interpolate (raw rawLo rawHi shoLo shoHi : Z) : result float :=
  let? q := truediv (raw - rawLo) (rawHi - rawLo) in
  let? p := mul_int q (shoHi - shoLo) in
  add_int p shoLo.

(** The float nearest to an int. *)
Definition whole (n : Z) : float := binary_normalize prec emax n 0 false.

(** [x <= y] *)
Definition leb (x y : number) : bool :=
  match compare x y with
  | Some Lt | Some Eq => true
  | _ => false
  end.

(** [v] lies in [lo, hi]. *)
Definition within (lo hi : Z) (v : number) : Prop :=
  leb (Int lo) v = true /\ leb v (Int hi) = true.

(** [v] is the float [x] brought into [lo, hi]: the bound, as the int it
    is, when [x] is at or beyond it, and [x] itself otherwise. *)
Definition clamped (lo hi : Z) (x : float) (v : number) : Prop :=
  within lo hi v /\
  (leb (Float x) (Int lo) = true -> v = Int lo) /\
  (ltb (Int lo) (Float x) = true -> ltb (Float x) (Int hi) = true -> v = Float x) /\
  (leb (Int hi) (Float x) = true -> v = Int hi).



(** [lerp] interpolates and clamps on every scale of the data model: the
    value it returns is the interpolation of the specification, a rational
    number, brought into [shoLo, shoHi]. *)
Definition lerp_clamps_every_scale : Prop :=
  forall (c : SensorConfig.t) (raw hi : Z),
    SensorConfig.raw_hi c = Some hi -> hi <> SensorConfig.raw_lo c ->
    exists v q, Binary64.SensorConfig.lerp c raw = Ok v /\ value v = Fin q /\
      Spec.clamped (inject_Z (SensorConfig.sho_lo c)) (inject_Z (SensorConfig.sho_hi c))
        (Spec.interpolate raw (SensorConfig.raw_lo c) hi
           (SensorConfig.sho_lo c) (SensorConfig.sho_hi c)) q.

End Binary64.

(** ** Scenarios *)

Module Scenario.

Import IceMeltState.

(** States idle (initial) and melting, a sensor temp with raw [0,100] shown
    as [0,100], and in idle the trigger 'sensor temp above 32' to melting. *)
Definition idle_melting : IceMeltConfig.t :=
  [ ("server", [("initial state", "idle")]);
    ("sensor temp", [("raw low", "0"); ("raw high", "100");
                     ("display low", "0"); ("display high", "100")]);
    ("control heater", [("raw high", "255")]);
    ("control fan", [("raw high", "10")]);
    ("state idle", [("control heater", "0"); ("sensor temp above 32", "melting")]);
    ("state melting", [("control heater", "100"); ("control fan", "50")]) ].

(** States A, B and C with the triggers 'above 50' from A to B and from B to
    C, entered from a state start that has no trigger. *)
Definition cascade_abc : IceMeltConfig.t :=
  [ ("server", [("initial state", "start")]);
    ("sensor level", [("raw high", "100")]);
    ("control pump", [("raw high", "255")]);
    ("state start", []);
    ("state A", [("sensor level above 50", "B")]);
    ("state B", [("control pump", "10"); ("sensor level above 50", "C")]);
    ("state C", [("control pump", "20")]) ].

(** A state X with a timed transition to Y after 5 seconds, and a state Z
    from which the machine can come back to X. *)
Definition timed_xyz : IceMeltConfig.t :=
  [ ("server", [("initial state", "X")]);
    ("state X", [("time passes", "Y"); ("duration", "5")]);
    ("state Y", []);
    ("state Z", []) ].


(** An initial state name that is not a state of the file. *)
Definition unknown_initial : IceMeltConfig.t :=
  [ ("server", [("initial state", "idle")]);
    ("sensor temp", [("raw high", "100")]);
    ("state melting", []) ].

(** A sensor whose display range runs downwards, from 100 to 0. *)
Definition inverted : SensorConfig.t :=
  {| SensorConfig.name := "temp"; SensorConfig.raw_lo := 0;
     SensorConfig.raw_hi := Some 100; SensorConfig.sho_lo := 100;
     SensorConfig.sho_hi := 0; SensorConfig.format := "{}" |}.

(** The scale of the linear-mapping example: raw [0,1023] shown as [0,100]. *)
Definition ten_bit : SensorConfig.t :=
  {| SensorConfig.name := "adc"; SensorConfig.raw_lo := 0;
     SensorConfig.raw_hi := Some 1023; SensorConfig.sho_lo := 0;
     SensorConfig.sho_hi := 100; SensorConfig.format := "{:.0f}%" |}.

(** The machines of the scenarios, run with the decimal builtins and with
    room for ten nested calls. *)
Definition boot (cfg : IceMeltConfig.t) : t :=
  store (init (H := Decimal.builtins) 10 cfg blank).

(** The declaration of a state and the live value of a sensor, by name. *)
Definition the_state (w : t) (nm : string) : StateConfig.t :=
  match __states__ w !! nm with
  | Some scfg => scfg
  | None => {| StateConfig.__name__ := nm; StateConfig.__cfg__ := [];
               StateConfig.__timed_transition__ := None;
               StateConfig.__triggers__ := [] |}
  end.

Definition the_sensor (w : t) (nm : string) : SensorState.t :=
  match __sensors__ w !! nm with
  | Some ss => ss
  | None => SensorState.init ten_bit
  end.


(** A state broken whose second setting names a control that is not
    declared, and a state garbled whose setting is not an integer. *)
Definition ghost_control : IceMeltConfig.t :=
  [ ("server", [("initial state", "idle")]);
    ("control heater", [("raw high", "255")]);
    ("control fan", [("raw high", "10")]);
    ("state idle", []);
    ("state broken", [("control heater", "10"); ("control ghost", "5");
                      ("control fan", "1")]);
    ("state garbled", [("control heater", "high")]) ].


(** A sensor with raw [0,100] shown as [0,50] in the format '{}'. *)
Definition halved : SensorConfig.t :=
  {| SensorConfig.name := "tank"; SensorConfig.raw_lo := 0;
     SensorConfig.raw_hi := Some 100; SensorConfig.sho_lo := 0;
     SensorConfig.sho_hi := 50; SensorConfig.format := "{}" |}.


(** A sensor with raw [0,100] shown as [0,100]. *)
Definition percent : SensorConfig.t :=
  {| SensorConfig.name := "temp"; SensorConfig.raw_lo := 0;
     SensorConfig.raw_hi := Some 100; SensorConfig.sho_lo := 0;
     SensorConfig.sho_hi := 100; SensorConfig.format := "{:.0f}%" |}.




(** [str.format] as far as the scenarios need it: the format '{}' only,
    on an int (its decimal digits), on a float whose value is a whole
    number of at most sixteen digits (the digits followed by '.0'), on the
    zeros, the infinities and NaN.  On any other float, where the builtin
    prints the shortest decimal that reads back, and on any other format,
    this stand-in answers with an error. *)
Definition whole_format : Binary64.PyFormat :=
  {| Binary64.py_format fmt n :=
       let digits (z : Z) : result string :=
         if Z.abs z <? 10 ^ 16
         then Ok (String.append (NilZero.string_of_int (Z.to_int z)) ".0")
         else Err ValueError in
       if String.eqb fmt "{}" then
         match n with
         | Binary64.Int z => Ok (NilZero.string_of_int (Z.to_int z))
         | Binary64.Float (S754_zero false) => Ok "0.0"
         | Binary64.Float (S754_zero true) => Ok "-0.0"
         | Binary64.Float (S754_infinity false) => Ok "inf"
         | Binary64.Float (S754_infinity true) => Ok "-inf"
         | Binary64.Float S754_nan => Ok "nan"
         | Binary64.Float (S754_finite s m e) =>
             if 0 <=? e then digits (cond_Zopp s (Zpos m * 2 ^ e))
             else if Zpos m mod 2 ^ (- e) =? 0
                  then digits (cond_Zopp s (Zpos m / 2 ^ (- e)))
                  else Err ValueError
         end
       else Err ValueError |}.

(** The machine of a configuration after the reading [value] of [sensor]. *)
Definition after_reading (cfg : IceMeltConfig.t) (sensor : string) (value : Z) : t :=
  store (set_sensor (H := Decimal.builtins) 10 sensor value (boot cfg)).

End Scenario.

(** ** Vocabulary of the further properties

    Notions that the statements below the claims are written with.  They
    are read off the code: [Chain.land] follows the recursion of
    [transition], the others name parts of the store or of a declaration. *)

Module Chain.


(** The same when the loop over the triggers of a state [s] is known to
    return [next s]. *)
Fixpoint follow (states : gmap string StateConfig.t) (next : string -> option string)
    (depth : nat) (prev : option string) (s : string) : option (option string) :=
  match depth with
  | O => None
  | S d =>
      match states !! s with
      | None => Some prev
      | Some _ =>
          match next s with
          | None => Some (Some s)
          | Some t => follow states next d (Some s) t
          end
      end
  end.

End Chain.

(** Whenever [m] returns, the value is related by [post] to the projection
    [f] of the store it started from. *)
Definition returns_in {X A : Type} (f : IceMeltState.t -> X) (post : X -> A -> Prop)
    (m : M IceMeltState.t A) : Prop :=
  forall w a w', m w = Ret a w' -> post (f w) a.

(** No sensor has a reading yet. *)
Definition all_unset (sensors : gmap string SensorState.t) : Prop :=
  forall nm ss, sensors !! nm = Some ss ->
    SensorState.__as_of__ ss = None /\ SensorState.__val__ ss = 0.

(** The declarations of the controls and the values last set on them. *)
Definition control_cfgs (w : IceMeltState.t) : gmap string ControlConfig.t :=
  ControlState.__cfg__ <$> IceMeltState.__controls__ w.

Definition control_values (w : IceMeltState.t) : gmap string Z :=
  ControlState.__val__ <$> IceMeltState.__controls__ w.

(** The options of a state section that [control_settings] reads, and the
    setting that it makes of one. *)
Definition is_setting (item : string * string) : Prop :=
  Str.startswith (fst item) CONTROL_PREFIX = true.

Definition setting_of `{PyBuiltins} (item : string * string) (p : string * Z) : Prop :=
  fst p = Str.strip (Str.slice_from (fst item) (Str.len CONTROL_PREFIX)) /\
  py_int (snd item) = Some (snd p).

(** The settings of a list written into a map of values, in order. *)
Definition apply_values (l : list (string * Z)) (m : gmap string Z) : gmap string Z :=
  foldl (fun m p => <[p.1 := p.2]> m) m l.

(** A timer that has been cancelled, or has fired, and is not in the
    middle of its call. *)
Definition dead (ts : list Timer.t) (i : nat) : Prop :=
  exists tm, ts !! i = Some tm /\ Timer.finished tm = true /\
             Timer.stage tm <> Timer.Calling.

(** Every live object is stored under the name it carries. *)
Definition named_by_key (w : IceMeltState.t) : Prop :=
  (forall k ss, IceMeltState.__sensors__ w !! k = Some ss ->
     SensorConfig.name (SensorState.__cfg__ ss) = k) /\
  (forall k cs, IceMeltState.__controls__ w !! k = Some cs ->
     ControlConfig.name (ControlState.__cfg__ cs) = k) /\
  (forall k sc, IceMeltState.__states__ w !! k = Some sc -> StateConfig.name sc = k).

(** The word [kw] stands in [s] at position [p]. *)
Definition occurs (kw s : string) (p : nat) : Prop :=
  substring p (String.length kw) s = kw.

Definition keyword (kw : string) : Prop := kw = "above" \/ kw = "below".

(** The path that asks for the transition from [src] to [tgt]. *)
Definition transition_path (src tgt : string) : string :=
  String.append "/transition/" (String.append src (String "/" tgt)).

(** * Proofs *)

(** ** Comparisons and clamping *)

Lemma Qltb_lt x y : Qltb x y = true <-> (x < y)%Q.
Proof.
  unfold Qltb. rewrite negb_true_iff. split.
  - intros Hb. apply Qnot_le_lt. intros Hle. apply Qle_bool_iff in Hle. congruence.
  - intros Hlt. destruct (Qle_bool y x) eqn:E; [|reflexivity].
    apply Qle_bool_iff in E. lra.
Qed.

Lemma Qltb_false x y : Qltb x y = false <-> (y <= x)%Q.
Proof.
  unfold Qltb. rewrite negb_false_iff. apply Qle_bool_iff.
Qed.

Lemma clamp_spec lo hi x :
  (lo <= hi)%Q -> Spec.clamped lo hi x (py_min hi (py_max lo x)).
Proof.
  intros Hle. unfold Spec.clamped, py_min, py_max.
  destruct (Q.max_spec lo x) as [[H1 E1]|[H1 E1]];
  destruct (Q.min_spec hi (Qmax lo x)) as [[H2 E2]|[H2 E2]];
  rewrite E2; rewrite ?E1; rewrite E1 in H2; repeat split; intros; lra.
Qed.

Lemma clamp_le_hi lo hi x : (py_min hi (py_max lo x) <= hi)%Q.
Proof. unfold py_min. apply Q.le_min_l. Qed.

(** ** The guard of a transition *)

Section Guard.
Context `{PyBuiltins}.
Import IceMeltState Frame.

Lemma transition_body_guard src tgt w :
  __current_state__ w <> src \/ __states__ w !! tgt = None ->
  transition_body src tgt w = Ret None w.
Proof.
  intros Hg. unfold transition_body, bind, gets. 
  destruct (decide (__current_state__ w = src)) as [Heq|Hne]; [|reflexivity].
  destruct Hg as [Hg|Hg]; [contradiction|]. rewrite Hg. reflexivity.
Qed.

Lemma transition_guard depth src tgt w :
  __current_state__ w <> src \/ __states__ w !! tgt = None ->
  transition (S depth) src tgt w = Ret tt w.
Proof.
  intros Hg. simpl. unfold bind at 1. rewrite (transition_body_guard _ _ _ Hg). reflexivity.
Qed.

(** C1.  A call [transition(src, tgt)] whose [src] is not the current state,
    or whose [tgt] is not a key of the state table, returns normally and
    leaves the whole store as it was: the current state, every live value of
    a sensor or a control, the timer held and the timers started, and the
    output of the control hook, to which nothing is written.  Even a call
    that the interpreter refuses for want of depth changes nothing. *)
Theorem stale_or_unknown_transition_is_noop (depth : nat) (src : option string)
    (tgt : string) (w : t) :
  __current_state__ w <> src \/ __states__ w !! tgt = None ->
  transition (S depth) src tgt w = Ret tt w /\
  transition_body src tgt w = Ret None w /\
  forall d, store (transition d src tgt w) = w.
Proof.
  intros Hg. split; [exact (transition_guard depth src tgt w Hg)|].
  split; [exact (transition_body_guard src tgt w Hg)|].
  intros [|d]; [reflexivity|]. rewrite (transition_guard d src tgt w Hg). reflexivity.
Qed.
End Guard.

(** ** Entering a state *)

Section Entering.
Context `{PyBuiltins}.
Import IceMeltState Frame.

Lemma controls_only_refl w : Frame.controls_only w w.
Proof. constructor; reflexivity. Qed.

Lemma controls_only_trans w1 w2 w3 :
  Frame.controls_only w1 w2 -> Frame.controls_only w2 w3 -> Frame.controls_only w1 w3.
Proof.
  intros [] []. constructor; congruence.
Qed.

Lemma output_of_frame w w' p :
  Frame.controls_only w w' -> Spec.output_of w' p = Spec.output_of w p.
Proof.
  intros F. unfold Spec.output_of.
  pose proof (Frame.f_controls _ _ F (fst p)) as E.
  destruct (__controls__ w' !! p.1) as [cs'|], (__controls__ w !! p.1) as [cs|];
    simpl in E; try discriminate; [|reflexivity].
  injection E as E. rewrite E. reflexivity.
Qed.

Lemma set_value_ok nm val w cs q :
  __controls__ w !! nm = Some cs ->
  ControlConfig.lerp (ControlState.__cfg__ cs) val = Ok q ->
  exists w', set_value nm val w = Ret tt w' /\ Frame.controls_only w w' /\
    stdout w' = stdout w ++ Spec.output_of w (nm, val).
Proof.
  intros Hcs Hq. unfold set_value, bind, gets. rewrite Hcs.
  unfold now, bind, gets, modify, print. simpl. rewrite Hq. simpl.
  eexists. split; [reflexivity|]. split.
  - constructor; simpl; try reflexivity.
    intros nm'. destruct (decide (nm' = nm)) as [->|Hne].
    + rewrite lookup_insert_eq, Hcs. reflexivity.
    + rewrite lookup_insert_ne by congruence. reflexivity.
  - unfold Spec.output_of. simpl. rewrite Hcs, Hq. reflexivity.
Qed.

Lemma for_each_settings_ok l : forall w,
  Forall (fun p => exists cs q, __controls__ w !! fst p = Some cs /\
            ControlConfig.lerp (ControlState.__cfg__ cs) (snd p) = Ok q) l ->
  exists w', for_each l (fun '(nm, val) => set_value nm val) w = Ret tt w' /\
    Frame.controls_only w w' /\
    stdout w' = stdout w ++ flat_map (Spec.output_of w) l.
Proof.
  induction l as [|[nm val] l IH]; intros w Hall.
  - exists w. simpl. rewrite app_nil_r. auto using controls_only_refl.
  - inversion Hall as [|? ? (cs & q & Hcs & Hq) Hrest]; subst. simpl in Hcs, Hq.
    destruct (set_value_ok nm val w cs q Hcs Hq) as (w1 & E1 & F1 & O1).
    destruct (IH w1) as (w2 & E2 & F2 & O2).
    { eapply Forall_impl; [exact Hrest|]. intros p (cs' & q' & Hc' & Hq').
      pose proof (Frame.f_controls _ _ F1 (fst p)) as E. rewrite Hc' in E.
      destruct (__controls__ w1 !! p.1) as [cs1|]; simpl in E; [|discriminate].
      injection E as E. exists cs1, q'. rewrite E. auto. }
    exists w2. split; [|split].
    + simpl. unfold bind. rewrite E1. exact E2.
    + eauto using controls_only_trans.
    + rewrite O2, O1. simpl. rewrite <- app_assoc. f_equal. f_equal.
      apply flat_map_ext. intros p. apply output_of_frame. exact F1.
Qed.

(** The effect of a transition whose guard holds and whose settings apply. *)
Lemma transition_body_ok src tgt w scfg l :
  __current_state__ w = src ->
  __states__ w !! tgt = Some scfg ->
  StateConfig.control_settings scfg = Ok l ->
  Forall (fun p => exists cs q, __controls__ w !! fst p = Some cs /\
            ControlConfig.lerp (ControlState.__cfg__ cs) (snd p) = Ok q) l ->
  exists w',
    transition_body src tgt w
      = lift (cascade (__sensors__ w) (StateConfig.triggers scfg)) w' /\
    __current_state__ w' = Some tgt /\
    __sensors__ w' = __sensors__ w /\
    __states__ w' = __states__ w /\
    (forall nm, ControlState.__cfg__ <$> (__controls__ w' !! nm) =
                ControlState.__cfg__ <$> (__controls__ w !! nm)) /\
    stdout w' = stdout w ++ flat_map (Spec.output_of w) l /\
    (timers w', __timer__ w') = Spec.rearmed scfg (timers w) (__timer__ w).
Proof.
  intros Hsrc Hst Hl Hall.
  destruct (for_each_settings_ok l (set_current_state (Some tgt) w)) as (w1 & E1 & F1 & O1).
  { exact Hall. }
  unfold transition_body, bind at 1, gets. unfold bind at 1.
  destruct (decide (__current_state__ w = src)); [|contradiction].
  rewrite Hst. unfold bind at 1, modify. unfold bind at 1. rewrite Hl. simpl lift.
  unfold ret at 1. unfold bind at 1. rewrite E1.
  destruct F1 as [Fc Ft Fs Fst Fl Fts Fcs]. simpl in *.
  rewrite <- Ft, <- Fts.
  unfold Spec.rearmed, cancel_timer, timer, now, bind, gets, modify, ret.
  destruct (__timer__ w1) as [i|];
  destruct (StateConfig.__timed_transition__ scfg) as [[tg dur]|]; simpl;
  (eexists; split; [rewrite Fs; reflexivity|]); simpl; rewrite ?Fs, ?Fc, ?Fst;
   repeat split; try reflexivity; try exact Fcs; rewrite O1; f_equal;
   apply flat_map_ext; intros p; reflexivity.
Qed.

End Entering.


(** ** The cascade *)

Section Cascade.
Context `{PyBuiltins}.
Import IceMeltState Frame.

Lemma cascade_skip_unset sensors tr t l :
  Spec.unset sensors (SensorTrigger.sensor tr) ->
  cascade sensors ((tr, t) :: l) = cascade sensors l /\ Spec.fires sensors tr = false.
Proof.
  unfold Spec.unset, Spec.fires, Spec.recorded_display. simpl.
  destruct (sensors !! SensorTrigger.sensor tr) as [ss|]; [|auto].
  intros Hu. unfold SensorState.val_float. rewrite Hu. auto.
Qed.


Lemma cascade_all_unset sensors l :
  Forall (fun p => Spec.unset sensors (SensorTrigger.sensor (fst p))) l ->
  cascade sensors l = Ok None.
Proof.
  induction 1 as [|[tr t] l Hu _ IH]; [reflexivity|].
  destruct (cascade_skip_unset sensors tr t l Hu) as [-> _]. exact IH.
Qed.

Lemma settings_ok_frame w w' scfg :
  (forall nm, ControlState.__cfg__ <$> (__controls__ w' !! nm) =
              ControlState.__cfg__ <$> (__controls__ w !! nm)) ->
  Spec.settings_ok w scfg -> Spec.settings_ok w' scfg.
Proof.
  intros Hc (l & Hl & Hall). exists l. split; [exact Hl|].
  eapply Forall_impl; [exact Hall|]. intros p (cs & q & Hcs & Hq).
  specialize (Hc (fst p)). rewrite Hcs in Hc.
  destruct (__controls__ w' !! p.1) as [cs'|]; simpl in Hc; [|discriminate].
  injection Hc as Hc. exists cs', q. rewrite Hc. auto.
Qed.

End Cascade.

(** ** A reading that fires a trigger *)

Section Reading.
Context `{PyBuiltins}.
Import IceMeltState Frame.

End Reading.

(** ** What a computation leaves alone *)

Section Preservation.
Context `{PyBuiltins}.
Import IceMeltState Frame.

Section Keeps.
Context {X : Type} (f : t -> X).

Lemma keeps_ret {A} (a : A) : keeps f (ret a).
Proof. intros w. reflexivity. Qed.

Lemma keeps_raise {A} e : keeps f (raise (A := A) e).
Proof. intros w. reflexivity. Qed.

Lemma keeps_lift {A} (r : result A) : keeps f (lift r).
Proof. destruct r; intros w; reflexivity. Qed.

Lemma keeps_gets {A} (g : t -> A) : keeps f (gets g).
Proof. intros w. reflexivity. Qed.

Lemma keeps_modify g : (forall w, f (g w) = f w) -> keeps f (modify g).
Proof. intros Hg w. apply Hg. Qed.

Lemma keeps_bind {A B} (m : M t A) (k : A -> M t B) :
  keeps f m -> (forall a, keeps f (k a)) -> keeps f (bind m k).
Proof.
  intros Hm Hk w. unfold bind. specialize (Hm w).
  destruct (m w) as [a w'|e w']; simpl in *; [|exact Hm].
  rewrite Hk. exact Hm.
Qed.

Lemma keeps_for_each {A} (l : list A) body :
  (forall a, keeps f (body a)) -> keeps f (for_each l body).
Proof.
  intros Hb. induction l as [|a l IH]; simpl.
  - apply keeps_ret.
  - apply keeps_bind; auto.
Qed.

Hypothesis f_clock : forall v w, f (set_clock v w) = f w.
Hypothesis f_stdout : forall v w, f (set_stdout v w) = f w.
Hypothesis f_controls : forall v w, f (set_controls v w) = f w.

Lemma keeps_now : keeps f now.
Proof.
  unfold now. apply keeps_bind; [apply keeps_gets|]. intros n.
  apply keeps_bind; [apply keeps_modify; auto|]. intros _. apply keeps_ret.
Qed.

Lemma keeps_set_value nm val : keeps f (set_value nm val).
Proof.
  unfold set_value. apply keeps_bind; [apply keeps_gets|]. intros cs.
  destruct (cs !! nm); [|apply keeps_raise].
  apply keeps_bind; [apply keeps_now|]. intros n.
  apply keeps_bind; [apply keeps_modify; auto|]. intros _.
  apply keeps_bind; [apply keeps_lift|]. intros v.
  unfold print. apply keeps_modify. auto.
Qed.

End Keeps.

Lemma keeps_rest_of_body scfg settings :
  keeps machine_state
    (for_each settings (fun '(nm, val) => set_value nm val) ;;;
     cancel_timer ;;;
     tm <- timer scfg ;;
     modify (set_timer tm) ;;;
     n <- now ;;
     modify (set_last_transition (Some n)) ;;;
     sensors <- gets __sensors__ ;;
     lift (cascade sensors (StateConfig.triggers scfg))).
Proof.
  apply keeps_bind.
  { apply keeps_for_each. intros [nm val]. apply keeps_set_value; reflexivity. }
  intros _. apply keeps_bind.
  { unfold cancel_timer. apply keeps_bind; [apply keeps_gets|].
    intros [i|]; [apply keeps_modify; reflexivity|apply keeps_ret]. }
  intros _. apply keeps_bind.
  { unfold timer. destruct (StateConfig.__timed_transition__ scfg) as [[tg dur]|];
      [|apply keeps_ret].
    apply keeps_bind; [apply keeps_gets|]. intros ts.
    apply keeps_bind; [apply keeps_modify; reflexivity|]. intros _. apply keeps_ret. }
  intros tm. apply keeps_bind; [apply keeps_modify; reflexivity|].
  intros _. apply keeps_bind; [apply keeps_now; reflexivity|].
  intros n. apply keeps_bind; [apply keeps_modify; reflexivity|].
  intros _. apply keeps_bind; [apply keeps_gets|]. intros s. apply keeps_lift.
Qed.

(** The guard of the body, then [enter]. *)
Lemma transition_body_eq src tgt w :
  transition_body src tgt w =
  if decide (__current_state__ w = src) then
    match __states__ w !! tgt with
    | Some scfg => enter tgt scfg w
    | None => Ret None w
    end
  else Ret None w.
Proof.
  unfold transition_body, bind at 1, gets. unfold bind at 1.
  destruct (decide (__current_state__ w = src)); [|reflexivity].
  destruct (__states__ w !! tgt); reflexivity.
Qed.

Lemma enter_state tgt scfg w :
  machine_state (store (enter tgt scfg w)) = (Some tgt, __states__ w).
Proof.
  unfold enter, bind at 1, modify. unfold bind at 1.
  destruct (StateConfig.control_settings scfg) as [l|e]; simpl; [|reflexivity].
  apply (keeps_rest_of_body scfg l (set_current_state (Some tgt) w)).
Qed.

(** Where a call of the body leaves the machine: the table is untouched, and
    the current state is either untouched or the target, which is then a key
    of the table. *)
Lemma transition_body_state src tgt w :
  let w' := store (transition_body src tgt w) in
  __states__ w' = __states__ w /\
  (__current_state__ w' = __current_state__ w \/
   __current_state__ w' = Some tgt /\ is_Some (__states__ w !! tgt)) /\
  (__current_state__ w = src -> is_Some (__states__ w !! tgt) ->
   __current_state__ w' = Some tgt).
Proof.
  rewrite transition_body_eq.
  destruct (decide (__current_state__ w = src)) as [Heq|Hne].
  2:{ simpl. split; [reflexivity|]. split; [auto|]. intros Hs. exfalso. exact (Hne Hs). }
  destruct (__states__ w !! tgt) as [scfg|] eqn:Est.
  2:{ simpl. split; [reflexivity|]. split; [auto|]. intros _ [? ?]. discriminate. }
  pose proof (enter_state tgt scfg w) as K. unfold machine_state in K.
  injection K as K1 K2. simpl. rewrite K1, K2. eauto.
Qed.

Lemma transition_state depth : forall src tgt w,
  let w' := store (transition depth src tgt w) in
  __states__ w' = __states__ w /\
  (__current_state__ w' = __current_state__ w \/ Spec.current_valid w') /\
  (__current_state__ w = src -> is_Some (__states__ w !! tgt) -> (0 < depth)%nat ->
   Spec.current_valid w').
Proof.
  induction depth as [|d IH]; intros src tgt w; simpl.
  { split; [reflexivity|]. split; [auto|]. intros _ _ Hd. lia. }
  pose proof (transition_body_state src tgt w) as (Hst & Hcur & Hok).
  unfold bind. destruct (transition_body src tgt w) as [[nt|] w1|e w1]; simpl in *.
  - specialize (IH (Some tgt) nt w1). simpl in IH. destruct IH as (Hst' & Hcur' & _).
    assert (Hv : Spec.current_valid w1 -> Spec.current_valid (store (transition d (Some tgt) nt w1))).
    { intros (nm & Hnm & Hin). destruct Hcur' as [Hc|Hc]; [|exact Hc].
      exists nm. rewrite Hc, Hst'. auto. }
    split; [congruence|]. split.
    + destruct Hcur as [Hc|[Hc Hin]].
      * destruct Hcur' as [Hc'|Hc']; [left; congruence|right; exact Hc'].
      * right. apply Hv. exists tgt. rewrite Hst. auto.
    + intros Hs Hin _. apply Hv. exists tgt. rewrite Hst. auto.
  - split; [exact Hst|]. split.
    + destruct Hcur as [Hc|[Hc Hin]]; [auto|]. right. exists tgt. rewrite Hst. auto.
    + intros Hs Hin _. exists tgt. rewrite Hst. auto.
  - split; [exact Hst|]. split.
    + destruct Hcur as [Hc|[Hc Hin]]; [auto|]. right. exists tgt. rewrite Hst. auto.
    + intros Hs Hin _. exists tgt. rewrite Hst. auto.
Qed.

End Preservation.

(** ** The current state is a key of the table *)

Section CurrentState.
Context `{PyBuiltins}.
Import IceMeltState Frame.

Lemma set_sensor_eq depth sensor value w :
  set_sensor depth sensor value w =
  match check sensor value w with
  | Ret (Some tgt) w1 => transition depth (__current_state__ w) tgt w1
  | Ret None w1 => Ret tt w1
  | Raise e w1 => Raise e w1
  end.
Proof.
  change (set_sensor depth sensor value w)
    with (bind (check sensor value)
            (fun tgt => match tgt with
                        | Some tgt => transition depth (__current_state__ w) tgt
                        | None => ret tt
                        end) w).
  unfold bind at 1.
  destruct (check sensor value w) as [[tg|] w1|e w1]; reflexivity.
Qed.

Lemma keeps_check {X} (f : t -> X) sensor value :
  (forall v w, f (set_clock v w) = f w) ->
  (forall v w, f (set_sensors v w) = f w) ->
  keeps f (check sensor value).
Proof.
  intros Hc Hs. unfold check. apply keeps_bind; [apply keeps_gets|]. intros sensors.
  destruct (sensors !! sensor) as [ss|]; [|apply keeps_ret].
  apply keeps_bind.
  { unfold now. apply keeps_bind; [apply keeps_gets|]. intros n.
    apply keeps_bind; [apply keeps_modify; auto|]. intros _. apply keeps_ret. }
  intros n. apply keeps_bind; [apply keeps_modify; intros w; apply Hs|].
  intros _. apply keeps_bind.
  { unfold current_state. apply keeps_bind; [apply keeps_gets|]. intros cur.
    apply keeps_bind; [apply keeps_gets|]. intros sts.
    destruct cur; [apply keeps_lift|apply keeps_raise]. }
  intros scfg. apply keeps_bind; [apply keeps_lift|]. intros v. apply keeps_ret.
Qed.

Lemma set_sensor_state depth sensor value w :
  let w' := store (set_sensor depth sensor value w) in
  __states__ w' = __states__ w /\
  (__current_state__ w' = __current_state__ w \/ Spec.current_valid w').
Proof.
  rewrite set_sensor_eq.
  pose proof (keeps_check machine_state sensor value
                (fun _ _ => eq_refl) (fun _ _ => eq_refl) w) as K.
  unfold machine_state in K.
  destruct (check sensor value w) as [[tg|] w1|e w1]; simpl in K; injection K as K1 K2.
  - pose proof (transition_state depth (__current_state__ w) tg w1) as (Hs & Hc & _).
    simpl. split; [congruence|]. destruct Hc as [Hc|Hc]; [left; congruence|auto].
  - simpl. auto.
  - simpl. auto.
Qed.

Lemma step_state depth ev w :
  let w' := Sched.step depth ev w in
  __states__ w' = __states__ w /\
  (__current_state__ w' = __current_state__ w \/ Spec.current_valid w').
Proof.
  destruct ev as [src tgt|sensor value|i|i]; simpl.
  - pose proof (transition_state depth (Some src) tgt w) as (Hs & Hc & _). auto.
  - apply set_sensor_state.
  - auto.
  - destruct (timers w !! i) as [tm|]; [|auto].
    destruct (Timer.stage tm); auto.
    pose proof (transition_state depth (Some (Timer.src tm)) (Timer.tgt tm) w)
      as (Hs & Hc & _).
    simpl. split; [exact Hs|]. destruct Hc as [Hc|(nm & Hnm & Hin)]; [auto|].
    right. exists nm. auto.
Qed.

Lemma step_current_valid depth ev w :
  Spec.current_valid w -> Spec.current_valid (Sched.step depth ev w).
Proof.
  intros (nm & Hnm & Hin). destruct (step_state depth ev w) as (Hs & [Hc|Hc]); [|exact Hc].
  exists nm. rewrite Hc, Hs. auto.
Qed.

Lemma step_current_known depth ev w :
  Spec.current_known w -> Spec.current_known (Sched.step depth ev w).
Proof.
  intros Hk. destruct (step_state depth ev w) as (Hs & [Hc|(nm & Hnm & Hin)]).
  - intros nm. rewrite Hc, Hs. apply Hk.
  - intros nm'. rewrite Hnm. intros [= <-]. exact Hin.
Qed.

(** The machine as [init] hands it to the seeding transition. *)
Lemma init_inv depth cfg w0 w :
  init depth cfg w0 = Ret tt w ->
  exists initial w1,
    IceMeltConfig.initial_state cfg = Ok initial /\
    __current_state__ w1 = None /\
    transition depth None initial w1 = Ret tt w.
Proof.
  unfold init, bind, modify. simpl.
  destruct (IceMeltConfig.sensors cfg) as [ss|e]; simpl; [|discriminate].
  destruct (IceMeltConfig.controls cfg) as [cs|e]; simpl; [|discriminate].
  destruct (IceMeltConfig.states cfg) as [sts|e]; simpl; [|discriminate].
  destruct (IceMeltConfig.initial_state cfg) as [initial|e]; simpl; [|discriminate].
  intros E. eexists _, _. split; [reflexivity|]. split; [|exact E]. reflexivity.
Qed.

Lemma init_current depth cfg w0 w :
  init depth cfg w0 = Ret tt w ->
  Spec.current_known w /\
  (forall initial, IceMeltConfig.initial_state cfg = Ok initial ->
     is_Some (__states__ w !! initial) -> Spec.current_valid w).
Proof.
  intros E. destruct (init_inv _ _ _ _ E) as (initial & w1 & Hi & Hc1 & Et).
  pose proof (transition_state depth None initial w1) as (Hs & Hc & Hok).
  rewrite Et in Hs, Hc, Hok. simpl in Hs, Hc, Hok. split.
  - destruct Hc as [Hc|(nm & Hnm & Hin)].
    + intros nm. rewrite Hc, Hc1. discriminate.
    + intros nm'. rewrite Hnm. intros [= <-]. exact Hin.
  - intros initial' Hi' Hin. rewrite Hi in Hi'. injection Hi' as <-.
    apply Hok; [exact Hc1|rewrite <- Hs; exact Hin|].
    destruct depth; [discriminate Et|lia].
Qed.

(** C4, amended.  If the configured initial state name is a key of the
    state table, then after construction the current state name is a key
    of the state table, and it stays one through every later request,
    sensor reading and timer event. *)
Theorem current_state_stays_valid (depth : nat) (cfg : IceMeltConfig.t)
    (w0 w : t) (initial : string) :
  init depth cfg w0 = Ret tt w ->
  IceMeltConfig.initial_state cfg = Ok initial ->
  is_Some (__states__ w !! initial) ->
  Spec.current_valid w /\
  forall depth' evs, Spec.current_valid (Sched.run depth' evs w).
Proof.
  intros E Hi Hin. destruct (init_current _ _ _ _ E) as [_ Hv].
  specialize (Hv _ Hi Hin). split; [exact Hv|].
  intros depth' evs. clear E Hin. revert w Hv. unfold Sched.run.
  induction evs as [|ev evs IH]; intros w Hv; simpl; [exact Hv|].
  apply IH. apply step_current_valid. exact Hv.
Qed.

End CurrentState.

(** ** Timers *)

Lemma armed_cancel tm : Timer.armed (Timer.cancel tm) = false.
Proof. unfold Timer.armed, Timer.cancel. simpl. destruct (Timer.stage tm); reflexivity. Qed.

Lemma armed_wake tm : Timer.armed (Sched.wake tm) = false.
Proof.
  unfold Timer.armed, Sched.wake.
  destruct (Timer.stage tm) eqn:E; simpl; rewrite ?E; try reflexivity.
  destruct (Timer.finished tm); reflexivity.
Qed.

Lemma armed_exit b tm : Timer.armed (Sched.exit b tm) = false.
Proof. reflexivity. Qed.

(** Replacing a timer by one that is not armed keeps the invariant. *)
Lemma timers_ok_alter (g : Timer.t -> Timer.t) i ts held :
  (forall tm, Timer.armed (g tm) = false) ->
  Spec.timers_ok_at ts held -> Spec.timers_ok_at (alter g i ts) held.
Proof.
  intros Hg Hok j tm Hj Harm.
  destruct (decide (i = j)) as [->|Hne].
  - rewrite list_lookup_alter_eq in Hj. destruct (ts !! j) as [tm0|]; simpl in Hj; [|discriminate].
    injection Hj as <-. rewrite Hg in Harm. discriminate.
  - rewrite list_lookup_alter_ne in Hj by exact Hne. eauto.
Qed.

Lemma cancelled_none_armed ts held :
  Spec.timers_ok_at ts held ->
  forall j tm,
    match held with Some i => alter Timer.cancel i ts | None => ts end !! j = Some tm ->
    Timer.armed tm = false.
Proof.
  intros Hok j tm Hj. destruct (Timer.armed tm) eqn:Harm; [|reflexivity]. exfalso.
  destruct held as [i|].
  - destruct (decide (i = j)) as [->|Hne].
    + rewrite list_lookup_alter_eq in Hj. destruct (ts !! j) as [tm0|]; simpl in Hj; [|discriminate].
      injection Hj as <-. rewrite armed_cancel in Harm. discriminate.
    + rewrite list_lookup_alter_ne in Hj by exact Hne.
      specialize (Hok _ _ Hj Harm). congruence.
  - specialize (Hok _ _ Hj Harm). discriminate.
Qed.

Lemma rearmed_ok scfg ts held :
  Spec.timers_ok_at ts held ->
  Spec.timers_ok_at (Spec.rearmed scfg ts held).1 (Spec.rearmed scfg ts held).2.
Proof.
  intros Hok. pose proof (cancelled_none_armed ts held Hok) as Hnone.
  unfold Spec.rearmed.
  set (ts' := match held with Some i => alter Timer.cancel i ts | None => ts end) in *.
  destruct (StateConfig.__timed_transition__ scfg) as [[tg dur]|]; simpl.
  - intros j tm Hj Harm. destruct (decide (j < length ts')%nat) as [Hlt|Hge].
    + rewrite lookup_app_l in Hj by exact Hlt. rewrite (Hnone _ _ Hj) in Harm. discriminate.
    + rewrite lookup_app_r in Hj by lia.
      destruct (j - length ts')%nat as [|k] eqn:Ek; simpl in Hj; [|discriminate].
      f_equal. lia.
  - intros j tm Hj Harm. rewrite (Hnone _ _ Hj) in Harm. discriminate.
Qed.

Lemma at_most_one_armed_at ts held :
  Spec.timers_ok_at ts held ->
  (length (filter (fun tm => Timer.armed tm = true) ts) <= 1)%nat.
Proof.
  revert held. induction ts as [|tm ts IH]; intros held Hok; [simpl; lia|].
  rewrite filter_cons. destruct (decide (Timer.armed tm = true)) as [Ha|Hn].
  - assert (E : filter (fun tm => Timer.armed tm = true) ts = []).
    { destruct (filter (fun tm => Timer.armed tm = true) ts) as [|x r] eqn:Ef; [reflexivity|].
      assert (Hx : x ∈ filter (fun tm => Timer.armed tm = true) ts)
        by (rewrite Ef; apply list_elem_of_here).
      apply list_elem_of_filter in Hx as [Hax Hx].
      apply list_elem_of_lookup in Hx as [j Hj].
      pose proof (Hok 0%nat tm eq_refl Ha) as H0.
      pose proof (Hok (S j) x Hj Hax) as H1. congruence. }
    simpl. rewrite E. simpl. lia.
  - apply (IH (pred <$> held)). intros j x Hj Hax.
    rewrite (Hok (S j) x Hj Hax). reflexivity.
Qed.

Section Timers.
Context `{PyBuiltins}.
Import IceMeltState Frame.

Lemma store_bind {A B} (m : M t A) (k : A -> M t B) w :
  store (bind m k w) =
  match m w with
  | Ret a w' => store (k a w')
  | Raise _ w' => w'
  end.
Proof. unfold bind. destruct (m w); reflexivity. Qed.

Lemma enter_timers tgt scfg w :
  timer_state (store (enter tgt scfg w)) = timer_state w \/
  timer_state (store (enter tgt scfg w)) = Spec.rearmed scfg (timers w) (__timer__ w).
Proof.
  cut (exists x, timer_state (store (enter tgt scfg w)) = x /\
                 (x = timer_state w \/ x = Spec.rearmed scfg (timers w) (__timer__ w))).
  { intros (x & -> & Hx). exact Hx. }
  unfold enter. rewrite store_bind. unfold modify at 1. cbv beta iota.
  rewrite store_bind.
  destruct (StateConfig.control_settings scfg) as [l|e];
    [|eexists; split; [reflexivity|left; reflexivity]].
  unfold lift at 1, ret at 1. cbv beta iota. rewrite store_bind.
  pose proof (keeps_for_each timer_state l (fun '(nm, val) => set_value nm val)) as K.
  specialize (K (fun '(nm, val) => keeps_set_value timer_state
                    (fun _ _ => eq_refl) (fun _ _ => eq_refl) (fun _ _ => eq_refl) nm val)
                (set_current_state (Some tgt) w)).
  destruct (for_each l (fun '(nm, val) => set_value nm val)
              (set_current_state (Some tgt) w)) as [[] w1|e w1];
    simpl in K; [|eexists; split; [reflexivity|left; exact K]].
  unfold timer_state in K. simpl in K. injection K as K1 K2. rewrite <- K1, <- K2.
  eexists; split; [reflexivity|right].
  unfold Spec.rearmed, cancel_timer, timer, now, bind, gets, modify, ret.
  destruct (__timer__ w1) as [i|];
  destruct (StateConfig.__timed_transition__ scfg) as [[tg dur]|]; simpl;
  match goal with |- context [cascade ?a ?b] => destruct (cascade a b) end; reflexivity.
Qed.

Lemma transition_body_timers src tgt w :
  Spec.timers_ok w -> Spec.timers_ok (store (transition_body src tgt w)).
Proof.
  intros Hok. rewrite transition_body_eq.
  destruct (decide (__current_state__ w = src)); [|exact Hok].
  destruct (__states__ w !! tgt) as [scfg|]; [|exact Hok].
  unfold Spec.timers_ok.
  destruct (enter_timers tgt scfg w) as [E|E]; unfold timer_state in E.
  - injection E as -> ->. exact Hok.
  - pose proof (rearmed_ok scfg _ _ Hok) as R. rewrite <- E in R. exact R.
Qed.

Lemma transition_timers depth : forall src tgt w,
  Spec.timers_ok w -> Spec.timers_ok (store (transition depth src tgt w)).
Proof.
  induction depth as [|d IH]; intros src tgt w Hok; [exact Hok|].
  simpl. unfold bind. pose proof (transition_body_timers src tgt w Hok) as Hb.
  destruct (transition_body src tgt w) as [[nt|] w1|e w1]; simpl in *; auto.
Qed.

Lemma set_sensor_timers depth sensor value w :
  Spec.timers_ok w -> Spec.timers_ok (store (set_sensor depth sensor value w)).
Proof.
  intros Hok. rewrite set_sensor_eq.
  pose proof (keeps_check timer_state sensor value
                (fun _ _ => eq_refl) (fun _ _ => eq_refl) w) as K.
  assert (Hok1 : Spec.timers_ok (store (check sensor value w))).
  { unfold Spec.timers_ok, timer_state in *. injection K as -> ->. exact Hok. }
  destruct (check sensor value w) as [[tg|] w1|e w1]; simpl in *; auto.
  apply transition_timers. exact Hok1.
Qed.

Lemma step_timers depth ev w :
  Spec.timers_ok w -> Spec.timers_ok (Sched.step depth ev w).
Proof.
  intros Hok. destruct ev as [src tgt|sensor value|i|i]; simpl.
  - apply transition_timers. exact Hok.
  - apply set_sensor_timers. exact Hok.
  - apply timers_ok_alter; [apply armed_wake|exact Hok].
  - destruct (timers w !! i) as [tm|]; [|exact Hok].
    destruct (Timer.stage tm); try exact Hok.
    apply timers_ok_alter; [apply armed_exit|].
    apply (transition_timers depth _ _ w Hok).
Qed.

Lemma run_timers depth evs : forall w,
  Spec.timers_ok w -> Spec.timers_ok (Sched.run depth evs w).
Proof.
  unfold Sched.run. induction evs as [|ev evs IH]; intros w Hok; simpl; [exact Hok|].
  apply IH. apply step_timers. exact Hok.
Qed.

Lemma init_timers depth cfg : Spec.timers_ok (store (init depth cfg blank)).
Proof.
  unfold init, bind, modify. simpl.
  destruct (IceMeltConfig.sensors cfg) as [ss|e]; simpl; [|intros i tm; discriminate].
  destruct (IceMeltConfig.controls cfg) as [cs|e]; simpl; [|intros i tm; discriminate].
  destruct (IceMeltConfig.states cfg) as [sts|e]; simpl; [|intros i tm; discriminate].
  destruct (IceMeltConfig.initial_state cfg) as [initial|e]; simpl; [|intros i tm; discriminate].
  apply transition_timers. intros i tm. discriminate.
Qed.

(** A call of a timer whose source is not the current state. *)
Lemma late_call_guarded depth i tm w :
  timers w !! i = Some tm ->
  __current_state__ w <> Some (Timer.src tm) ->
  exists ts, Sched.step depth (Sched.Call i) w = set_timers ts w.
Proof.
  intros Hi Hne. simpl. rewrite Hi.
  destruct (Timer.stage tm); try (exists (timers w); destruct w; reflexivity).
  destruct depth as [|d].
  - simpl. eexists. reflexivity.
  - rewrite (transition_guard d (Some (Timer.src tm)) (Timer.tgt tm) w (or_introl Hne)).
    simpl. eexists. reflexivity.
Qed.

(** C9, amended.  From a store in which the only timer that can be armed
    is the one the machine holds, every trace of requests, readings and
    timer events keeps it so, and at most one timer is armed at any time.
    A transition whose guard holds and whose settings apply cancels the
    timer held so far and then starts the timer of the entered state, if it
    declares one.  A call made by the timer of a state X while the current
    state is not X changes nothing of the machine: not the current state,
    no live value, not the timer held, no output, no other timer. *)
Theorem one_timer_and_guarded_fire (depth : nat) (w : t) :
  Spec.timers_ok w ->
  (forall evs, Spec.timers_ok (Sched.run depth evs w) /\
               (Spec.armed_count (Sched.run depth evs w) <= 1)%nat) /\
  (forall src tgt scfg,
     __current_state__ w = src -> __states__ w !! tgt = Some scfg ->
     Spec.settings_ok w scfg ->
     let w' := store (transition_body src tgt w) in
     (timers w', __timer__ w') = Spec.rearmed scfg (timers w) (__timer__ w)) /\
  (forall i tm,
     timers w !! i = Some tm ->
     __current_state__ w <> Some (Timer.src tm) ->
     let w' := Sched.step depth (Sched.Call i) w in
     __current_state__ w' = __current_state__ w /\
     __sensors__ w' = __sensors__ w /\
     __controls__ w' = __controls__ w /\
     __timer__ w' = __timer__ w /\
     stdout w' = stdout w /\
     forall j, j <> i -> timers w' !! j = timers w !! j).
Proof.
  intros Hok. split; [|split].
  - intros evs. pose proof (run_timers depth evs w Hok) as Hr. split; [exact Hr|].
    apply (at_most_one_armed_at _ _ Hr).
  - intros src tgt scfg Hsrc Hst (l & Hl & Hall).
    destruct (transition_body_ok src tgt w scfg l Hsrc Hst Hl Hall)
      as (w' & E & _ & _ & _ & _ & _ & Ht).
    rewrite E. destruct (cascade _ _); exact Ht.
  - intros i tm Hi Hne. simpl. rewrite Hi.
    destruct (Timer.stage tm); try (repeat split; reflexivity).
    destruct depth as [|d]; simpl.
    + repeat split. intros j Hj. apply list_lookup_alter_ne. congruence.
    + pose proof (transition_guard d (Some (Timer.src tm)) (Timer.tgt tm) w (or_introl Hne)) as E.
      simpl in E. rewrite E. simpl.
      repeat split. intros j Hj. apply list_lookup_alter_ne. congruence.
Qed.

End Timers.

(** ** Scales and thresholds *)

(** A trigger out of reach fires on no display value of the scale. *)
Lemma out_of_reach_never_fires c raw v tr :
  SensorConfig.lerp c raw = Ok v -> Spec.out_of_reach c tr ->
  SensorTrigger.triggers tr v = false.
Proof.
  unfold SensorConfig.lerp. destruct (SensorConfig.__lerp__ c raw) as [d|e]; simpl; [|discriminate].
  intros [= <-] Hout. unfold SensorTrigger.triggers. apply Qltb_false.
  pose proof (clamp_le_hi (inject_Z (SensorConfig.sho_lo c)) (inject_Z (SensorConfig.sho_hi c)) d) as Hhi.
  destruct Hout as [[-> Hthr]|(-> & Hthr & Hle)].
  - change (inject_Z 1) with 1%Q. lra.
  - rewrite Zle_Qle in Hle.
    destruct (clamp_spec _ _ d Hle) as (Hlo & _).
    change (inject_Z (-1)) with (-1)%Q. lra.
Qed.

Section Reach.
Context `{PyBuiltins}.
Import IceMeltState Frame.

Lemma trigger_in_out_of_reach c raw v sensor l :
  SensorConfig.lerp c raw = Ok v ->
  Forall (fun p => SensorTrigger.sensor (fst p) = sensor -> Spec.out_of_reach c (fst p)) l ->
  StateConfig.trigger_in l sensor v = None.
Proof.
  intros Hv. induction 1 as [|[tr t] l Hp _ IH]; [reflexivity|]. simpl.
  destruct (String.eqb_spec sensor (SensorTrigger.sensor tr)) as [E|E]; simpl; [|exact IH].
  rewrite (out_of_reach_never_fires c raw v tr Hv (Hp (eq_sym E))). exact IH.
Qed.

Lemma val_float_set_raw ss value n :
  SensorState.val_float (SensorState.set_raw ss value n)
  = SensorConfig.lerp (SensorState.__cfg__ ss) value.
Proof. reflexivity. Qed.

Lemma check_result sensor value w tg w1 :
  check sensor value w = Ret (Some tg) w1 ->
  exists ss cur scfg v,
    __sensors__ w !! sensor = Some ss /\
    __current_state__ w = Some cur /\
    __states__ w !! cur = Some scfg /\
    SensorConfig.lerp (SensorState.__cfg__ ss) value = Ok v /\
    StateConfig.trigger scfg sensor v = Some tg.
Proof.
  unfold check, bind at 1, gets at 1.
  destruct (__sensors__ w !! sensor) as [ss|]; [|discriminate].
  unfold now, current_state, bind, gets, modify, ret. rewrite val_float_set_raw.
  destruct (SensorConfig.lerp (SensorState.__cfg__ ss) value) as [v|e] eqn:Ev; simpl;
    (destruct (__current_state__ w) as [cur|] eqn:Ecur; [|discriminate]);
    (destruct (__states__ w !! cur) as [scfg|] eqn:Est; simpl; [|discriminate]);
    try discriminate.
  intros [= Ht _]. exists ss, cur, scfg, v. auto.
Qed.

(** C10, amended.  The check of [set_sensor] and the cascade of
    [transition] both test a trigger on the clamped display value.  So an
    'above' trigger whose threshold is at or over shoHi, and, when shoLo <=
    shoHi, a 'below' trigger whose threshold is at or under shoLo, fires on
    no display value, never makes a reading move the machine, and is never
    the trigger a cascade selects. *)
Theorem out_of_reach_trigger_never_matches (w : t) (sensor : string) (ss : SensorState.t) :
  __sensors__ w !! sensor = Some ss ->
  (forall tr raw v,
     SensorConfig.lerp (SensorState.__cfg__ ss) raw = Ok v ->
     Spec.out_of_reach (SensorState.__cfg__ ss) tr ->
     SensorTrigger.triggers tr v = false) /\
  (forall depth value cur scfg,
     __current_state__ w = Some cur -> __states__ w !! cur = Some scfg ->
     Forall (fun p => SensorTrigger.sensor (fst p) = sensor ->
                      Spec.out_of_reach (SensorState.__cfg__ ss) (fst p))
            (StateConfig.triggers scfg) ->
     __current_state__ (store (set_sensor depth sensor value w)) = Some cur) /\
  (forall tr t l r,
     SensorTrigger.sensor tr = sensor ->
     Spec.out_of_reach (SensorState.__cfg__ ss) tr ->
     cascade (__sensors__ w) ((tr, t) :: l) = Ok r ->
     cascade (__sensors__ w) l = Ok r).
Proof.
  intros Hss. split; [|split].
  - intros tr raw v. apply out_of_reach_never_fires.
  - intros depth value cur scfg Hcur Hst Hall. rewrite set_sensor_eq.
    pose proof (keeps_check machine_state sensor value
                  (fun _ _ => eq_refl) (fun _ _ => eq_refl) w) as K.
    destruct (check sensor value w) as [[tg|] w1|e w1] eqn:Ec; simpl in K;
      unfold machine_state in K; injection K as K1 K2; simpl;
      try (rewrite K1; exact Hcur).
    exfalso. destruct (check_result _ _ _ _ _ Ec) as (ss' & cur' & scfg' & v & Hss' & Hcur' & Hst' & Hv & Ht).
    rewrite Hss in Hss'. injection Hss' as <-.
    rewrite Hcur in Hcur'. injection Hcur' as <-.
    rewrite Hst in Hst'. injection Hst' as <-.
    unfold StateConfig.trigger in Ht. unfold StateConfig.triggers in Hall.
    rewrite (trigger_in_out_of_reach _ _ _ _ _ Hv Hall) in Ht. discriminate.
  - intros tr t l r Hs Hout. simpl. rewrite Hs, Hss.
    unfold SensorState.val_float. destruct (SensorState.__as_of__ ss); [|auto].
    destruct (SensorConfig.lerp (SensorState.__cfg__ ss) (SensorState.__val__ ss)) as [v|e] eqn:Ev.
    + rewrite (out_of_reach_never_fires _ _ _ _ Ev Hout). auto.
    + destruct e; auto; discriminate.
Qed.


(** C6.  In the declaration 'sensor tempabove 32' the text between the
    prefix and the keyword is ' temp', whose stripped form is 'temp'; the
    parser returns a trigger on the sensor 'tem': the slice that holds the
    name ends one character before the keyword. *)
Theorem parse_drops_character_before_keyword :
  Str.strip (Str.slice "sensor tempabove 32" (Str.len SENSOR_PREFIX) 11) = "temp" /\
  match parse_sensor_trigger "sensor tempabove 32" with
  | Ok (Some tr) => SensorTrigger.sensor tr = "tem" /\ SensorTrigger.direction tr = 1
  | Ok None => py_float "32" = None
  | Err _ => False
  end.
Proof.
  split; [reflexivity|].
  unfold parse_sensor_trigger.
  change (Str.last_item (Str.split "sensor tempabove 32")) with (Ok (A := string) "32").
  cbv beta iota delta [negb Str.startswith SENSOR_PREFIX String.prefix rbind].
  simpl. destruct (py_float "32"); simpl; auto.
Qed.

End Reach.

(** ** The parser on declarations that are dropped, and on the scenario's *)

Section Parsing.
Context `{PyBuiltins}.

(** A declaration without the prefix, without a direction keyword, or whose
    last token is not a number, yields no trigger and no error. *)
Lemma parse_failure_is_dropped (description : string) :
  (Str.startswith description SENSOR_PREFIX = false ->
   parse_sensor_trigger description = Ok None) /\
  (Str.find (Str.reversed description) "evoba" < 0 ->
   Str.find (Str.reversed description) "woleb" < 0 ->
   parse_sensor_trigger description = Ok None) /\
  (forall token,
     Str.last_item (Str.split description) = Ok token ->
     py_float token = None ->
     parse_sensor_trigger description = Ok None).
Proof.
  unfold parse_sensor_trigger. split; [|split].
  - intros ->. reflexivity.
  - intros Ha Hb. destruct (Str.startswith description SENSOR_PREFIX); [|reflexivity].
    apply Z.ltb_lt in Ha, Hb. cbn [negb]. rewrite Ha, Hb. reflexivity.
  - intros token Htok Hf.
    destruct (Str.startswith description SENSOR_PREFIX); [|reflexivity]. cbn [negb].
    destruct ((Str.find (Str.reversed description) "evoba" <? 0)
              && (Str.find (Str.reversed description) "woleb" <? 0)); [reflexivity|].
    destruct ((Str.find (Str.reversed description) "woleb" <? 0)
              || (0 <=? Str.find (Str.reversed description) "evoba")
                 && (Str.find (Str.reversed description) "evoba"
                     <? Str.find (Str.reversed description) "woleb"));
      rewrite Htok; cbn [rbind]; rewrite Hf; reflexivity.
Qed.

(** The declaration of the scenario, 'sensor temp above 32'. *)
Lemma parse_temp_above_32 (q : Q) :
  py_float "32" = Some q ->
  parse_sensor_trigger "sensor temp above 32" = Ok (Some (Spec.above "temp" q)).
Proof.
  intros Hq. unfold parse_sensor_trigger.
  change (Str.last_item (Str.split "sensor temp above 32")) with (Ok (A := string) "32").
  cbv beta iota delta [negb Str.startswith SENSOR_PREFIX String.prefix rbind].
  simpl. rewrite Hq. reflexivity.
Qed.

End Parsing.

(** * Further properties *)

(** ** Triggers, and what a transition leaves alone *)

(** X1. A trigger of direction 1 (above) fires exactly on
    the values greater than its threshold, one of direction -1 (below)
    exactly on the values less than it, and one of direction 0 on no value. *)
Theorem triggers_by_direction (tr : SensorTrigger.t) (val : Q) :
  (SensorTrigger.direction tr = 1 ->
   (SensorTrigger.triggers tr val = true <-> (SensorTrigger.threshold tr < val)%Q)) /\
  (SensorTrigger.direction tr = -1 ->
   (SensorTrigger.triggers tr val = true <-> (val < SensorTrigger.threshold tr)%Q)) /\
  (SensorTrigger.direction tr = 0 -> SensorTrigger.triggers tr val = false).
Proof.
  unfold SensorTrigger.triggers. split; [|split]; intros ->.
  - rewrite Qltb_lt. change (inject_Z 1) with 1%Q. split; intros; lra.
  - rewrite Qltb_lt. change (inject_Z (-1)) with (-1)%Q. split; intros; lra.
  - apply Qltb_false. change (inject_Z 0) with 0%Q. lra.
Qed.

Section Frames.
Context `{PyBuiltins}.
Import IceMeltState Frame.

Section KeepsBody.
Context {X : Type} (f : t -> X).
Hypothesis f_current : forall v w, f (set_current_state v w) = f w.
Hypothesis f_timer : forall v w, f (set_timer v w) = f w.
Hypothesis f_timers : forall v w, f (set_timers v w) = f w.
Hypothesis f_last : forall v w, f (set_last_transition v w) = f w.
Hypothesis f_clock : forall v w, f (set_clock v w) = f w.
Hypothesis f_set_value : forall nm val, keeps f (set_value nm val).

Lemma keeps_enter tgt scfg : keeps f (enter tgt scfg).
Proof.
  unfold enter. apply keeps_bind; [apply keeps_modify; auto|]. intros _.
  apply keeps_bind; [apply keeps_lift|]. intros settings.
  apply keeps_bind.
  { apply keeps_for_each. intros [nm val]. apply f_set_value. }
  intros _. apply keeps_bind.
  { unfold cancel_timer. apply keeps_bind; [apply keeps_gets|].
    intros [i|]; [apply keeps_modify; auto|apply keeps_ret]. }
  intros _. apply keeps_bind.
  { unfold timer. destruct (StateConfig.__timed_transition__ scfg) as [[tg dur]|];
      [|apply keeps_ret].
    apply keeps_bind; [apply keeps_gets|]. intros ts.
    apply keeps_bind; [apply keeps_modify; auto|]. intros _. apply keeps_ret. }
  intros tm. apply keeps_bind; [apply keeps_modify; auto|].
  intros _. apply keeps_bind; [apply keeps_now; auto|].
  intros n. apply keeps_bind; [apply keeps_modify; auto|].
  intros _. apply keeps_bind; [apply keeps_gets|]. intros s. apply keeps_lift.
Qed.

Lemma keeps_transition_body src tgt : keeps f (transition_body src tgt).
Proof.
  intros w. rewrite transition_body_eq.
  destruct (decide (__current_state__ w = src)); [|reflexivity].
  destruct (__states__ w !! tgt) as [scfg|]; [|reflexivity].
  apply keeps_enter.
Qed.

Lemma keeps_transition depth : forall src tgt, keeps f (transition depth src tgt).
Proof.
  induction depth as [|d IH]; intros src tgt; [apply keeps_raise|].
  simpl. apply keeps_bind; [apply keeps_transition_body|].
  intros [nt|]; [apply IH|apply keeps_ret].
Qed.

End KeepsBody.

Lemma keeps_set_value_cfgs nm val : keeps control_cfgs (set_value nm val).
Proof.
  intros w. unfold set_value, bind at 1, gets at 1.
  destruct (__controls__ w !! nm) as [cs|] eqn:Ecs; [|reflexivity].
  unfold now, bind, gets, modify, print. simpl.
  assert (E : control_cfgs
                (set_controls
                   (<[nm := {| ControlState.__cfg__ := ControlState.__cfg__ cs;
                               ControlState.__as_of__ := Some (clock w);
                               ControlState.__val__ := val |}]> (__controls__ w))
                   (set_clock (S (clock w)) w)) = control_cfgs w).
  { unfold control_cfgs. simpl. rewrite fmap_insert. simpl.
    apply insert_id. rewrite lookup_fmap, Ecs. reflexivity. }
  destruct (ControlConfig.lerp (ControlState.__cfg__ cs) val); simpl; exact E.
Qed.

Lemma transition_frame (depth : nat) (src : option string)
    (tgt : string) (w : t) :
  let w' := store (transition depth src tgt w) in
  __sensors__ w' = __sensors__ w /\
  __states__ w' = __states__ w /\
  ControlState.__cfg__ <$> __controls__ w' = ControlState.__cfg__ <$> __controls__ w.
Proof.
  simpl. split; [|split].
  - apply (keeps_transition __sensors__); try reflexivity.
    intros nm val. apply keeps_set_value; reflexivity.
  - apply (keeps_transition __states__); try reflexivity.
    intros nm val. apply keeps_set_value; reflexivity.
  - apply (keeps_transition control_cfgs); try reflexivity.
    apply keeps_set_value_cfgs.
Qed.

(** X2. Whatever it does and however it ends, a
    call of [transition] leaves the sensors, the table of states and the
    declaration of every control as they were. *)
Theorem transition_leaves_sensors_and_tables (depth : nat) (src : option string)
    (tgt : string) (w : t) :
  let w' := store (transition depth src tgt w) in
  __sensors__ w' = __sensors__ w /\
  __states__ w' = __states__ w /\
  ControlState.__cfg__ <$> __controls__ w' = ControlState.__cfg__ <$> __controls__ w.
Proof. apply transition_frame. Qed.

Lemma check_sensors sensor value w ss :
  __sensors__ w !! sensor = Some ss ->
  __sensors__ (store (check sensor value w))
    = <[sensor := SensorState.set_raw ss value (clock w)]> (__sensors__ w).
Proof.
  intros Hss. unfold check, bind at 1, gets at 1. rewrite Hss.
  unfold now, current_state, bind, gets, modify, ret. rewrite val_float_set_raw.
  destruct (SensorConfig.lerp (SensorState.__cfg__ ss) value) as [v|e]; simpl;
    (destruct (__current_state__ w) as [cur|]; [|reflexivity]);
    (destruct (__states__ w !! cur) as [scfg|]; reflexivity).
Qed.

(** X3. [set_sensor] on a name that is no sensor returns
    and changes nothing; on a sensor it stores the raw value and the time
    of the reading under that name and touches no other sensor, also when
    the call ends in an exception. *)
Theorem set_sensor_records_reading (depth : nat) (sensor : string) (value : Z) (w : t) :
  match __sensors__ w !! sensor with
  | None => set_sensor depth sensor value w = Ret tt w
  | Some ss =>
      __sensors__ (store (set_sensor depth sensor value w))
        = <[sensor := SensorState.set_raw ss value (clock w)]> (__sensors__ w)
  end.
Proof.
  destruct (__sensors__ w !! sensor) as [ss|] eqn:Hss.
  - rewrite set_sensor_eq. pose proof (check_sensors sensor value w ss Hss) as E.
    destruct (check sensor value w) as [[tg|] w1|e w1]; simpl in E; simpl; try exact E.
    rewrite <- E. apply (keeps_transition __sensors__); try reflexivity.
    intros nm val. apply keeps_set_value; reflexivity.
  - unfold set_sensor, bind, gets. rewrite Hss. reflexivity.
Qed.

(** X4. When the machine has no current state, a
    reading of a known sensor raises KeyError, after the reading has been
    stored and the clock has been read. *)
Theorem reading_without_current_state_raises (depth : nat) (sensor : string)
    (value : Z) (w : t) (ss : SensorState.t) :
  __sensors__ w !! sensor = Some ss ->
  __current_state__ w = None ->
  set_sensor depth sensor value w
    = Raise KeyError
        (set_sensors (<[sensor := SensorState.set_raw ss value (clock w)]> (__sensors__ w))
           (set_clock (S (clock w)) w)).
Proof.
  intros Hss Hcur. unfold set_sensor, current_state, now, bind, gets, modify, ret.
  rewrite Hss. simpl. rewrite Hcur. reflexivity.
Qed.



End Frames.

(** ** Where a transition lands *)

Section Landing.
Context `{PyBuiltins}.
Import IceMeltState Frame.




Lemma returns_in_bind {X A B} (f : t -> X) (Q : X -> B -> Prop)
    (m : M t A) (k : A -> M t B) :
  keeps f m -> (forall a, returns_in f Q (k a)) -> returns_in f Q (bind m k).
Proof.
  intros Hm Hk w b w'. unfold bind. specialize (Hm w).
  destruct (m w) as [a w1|e w1]; [|discriminate]. simpl in Hm.
  intros E. rewrite <- Hm. exact (Hk a w1 b w' E).
Qed.

Lemma enter_returns tgt scfg :
  returns_in __sensors__
    (fun sensors nt => cascade sensors (StateConfig.triggers scfg) = Ok nt)
    (enter tgt scfg).
Proof.
  unfold enter.
  apply returns_in_bind; [apply keeps_modify; reflexivity|]. intros _.
  apply returns_in_bind; [apply keeps_lift|]. intros settings.
  apply returns_in_bind.
  { apply keeps_for_each. intros [nm val]. apply keeps_set_value; reflexivity. }
  intros _. apply returns_in_bind.
  { unfold cancel_timer. apply keeps_bind; [apply keeps_gets|].
    intros [i|]; [apply keeps_modify; reflexivity|apply keeps_ret]. }
  intros _. apply returns_in_bind.
  { unfold timer. destruct (StateConfig.__timed_transition__ scfg) as [[tg dur]|];
      [|apply keeps_ret].
    apply keeps_bind; [apply keeps_gets|]. intros ts.
    apply keeps_bind; [apply keeps_modify; reflexivity|]. intros _. apply keeps_ret. }
  intros tm. apply returns_in_bind; [apply keeps_modify; reflexivity|].
  intros _. apply returns_in_bind; [apply keeps_now; reflexivity|].
  intros n. apply returns_in_bind; [apply keeps_modify; reflexivity|].
  intros _ w nt w'. unfold bind, gets.
  destruct (cascade (__sensors__ w) (StateConfig.triggers scfg)) as [r|e]; simpl;
    [|discriminate].
  intros [= -> _]. reflexivity.
Qed.

(** The cascade target a body returns is the one the live map gives. *)
Lemma transition_body_returns src tgt w nt w' :
  transition_body src tgt w = Ret (Some nt) w' ->
  exists scfg, __states__ w !! tgt = Some scfg /\
    cascade (__sensors__ w) (StateConfig.triggers scfg) = Ok (Some nt).
Proof.
  rewrite transition_body_eq.
  destruct (decide (__current_state__ w = src)); [|discriminate].
  destruct (__states__ w !! tgt) as [scfg|]; [|discriminate].
  intros E. exists scfg. split; [reflexivity|].
  exact (enter_returns tgt scfg w (Some nt) w' E).
Qed.

Lemma cascade_unset_map sensors l : all_unset sensors -> cascade sensors l = Ok None.
Proof.
  intros Hu. apply cascade_all_unset. apply Forall_forall. intros [tr t] _.
  unfold Spec.unset. simpl. destruct (sensors !! SensorTrigger.sensor tr) as [ss|] eqn:E;
    [|exact I]. apply (Hu _ _ E).
Qed.

(** Without a recorded value no call asks for a second one. *)
Lemma transition_without_readings depth src tgt w :
  all_unset (__sensors__ w) ->
  transition (S depth) src tgt w = transition 1 src tgt w.
Proof.
  intros Hu. simpl. unfold bind.
  destruct (transition_body src tgt w) as [[nt|] w1|e w1] eqn:E; try reflexivity.
  exfalso. destruct (transition_body_returns _ _ _ _ _ E) as (scfg & _ & Hc).
  rewrite (cascade_unset_map _ _ Hu) in Hc. discriminate.
Qed.

Lemma py_dict_Forall {V} (P : V -> Prop) (l : list (string * V)) :
  Forall (fun p => P (snd p)) l ->
  forall nm v, py_dict l !! nm = Some v -> P v.
Proof.
  unfold py_dict. intros HF.
  assert (G : forall m : gmap string V, (forall nm v, m !! nm = Some v -> P v) ->
              forall nm v, foldl (fun m p => <[p.1 := p.2]> m) m l !! nm = Some v -> P v).
  { induction HF as [|[k x] l Hx _ IH]; intros m Hm; simpl; [exact Hm|].
    apply IH. intros nm v. destruct (decide (k = nm)) as [->|Hne].
    - rewrite lookup_insert_eq. intros [= <-]. exact Hx.
    - rewrite lookup_insert_ne by exact Hne. apply Hm. }
  apply G. intros nm v. rewrite lookup_empty. discriminate.
Qed.

Lemma init_unfold depth cfg w0 :
  init depth cfg w0 =
  match IceMeltConfig.sensors cfg with
  | Err e => Raise e (set_timer None (set_current_state None w0))
  | Ok ss =>
      let w1 := set_sensors (py_dict (map (fun p => (p.1, SensorState.init p.2)) ss))
                  (set_timer None (set_current_state None w0)) in
      match IceMeltConfig.controls cfg with
      | Err e => Raise e w1
      | Ok cs =>
          let w2 := set_controls
                      (py_dict (map (fun p => (p.1, ControlState.init p.2)) cs)) w1 in
          match IceMeltConfig.states cfg with
          | Err e => Raise e w2
          | Ok sts =>
              let w3 := set_states (py_dict sts) w2 in
              match IceMeltConfig.initial_state cfg with
              | Err e => Raise e w3
              | Ok initial => transition depth None initial w3
              end
          end
      end
  end.
Proof.
  unfold init, bind, modify. simpl.
  destruct (IceMeltConfig.sensors cfg) as [ss|e]; simpl; [|reflexivity].
  destruct (IceMeltConfig.controls cfg) as [cs|e]; simpl; [|reflexivity].
  destruct (IceMeltConfig.states cfg) as [sts|e]; simpl; [|reflexivity].
  destruct (IceMeltConfig.initial_state cfg) as [initial|e]; reflexivity.
Qed.

Lemma fresh_sensors_unset (ss : list (string * SensorConfig.t)) :
  all_unset (py_dict (map (fun p => (p.1, SensorState.init p.2)) ss)).
Proof.
  intros nm s Hs.
  apply (py_dict_Forall (fun s => SensorState.__as_of__ s = None /\ SensorState.__val__ s = 0)
           (map (fun p => (p.1, SensorState.init p.2)) ss)) with (nm := nm); [|exact Hs].
  apply Forall_forall. intros [k v] Hin. apply list_elem_of_fmap in Hin as ([k' c] & [= -> ->] & _).
  split; reflexivity.
Qed.

(** X8. The constructor needs depth for one call of
    [transition] only, because every sensor is still without a reading and
    no trigger fires; when it returns, no sensor has a reading and the
    current state is the initial state if that is a state of the file, and
    unset otherwise. *)
Theorem construction_takes_one_transition (depth : nat) (cfg : IceMeltConfig.t) (w0 : t) :
  init (S depth) cfg w0 = init 1 cfg w0 /\
  (forall w,
     init (S depth) cfg w0 = Ret tt w ->
     all_unset (__sensors__ w) /\
     forall initial,
       IceMeltConfig.initial_state cfg = Ok initial ->
       __current_state__ w
         = match __states__ w !! initial with Some _ => Some initial | None => None end).
Proof.
  rewrite !init_unfold.
  destruct (IceMeltConfig.sensors cfg) as [ss|e]; [|split; [reflexivity|discriminate]].
  destruct (IceMeltConfig.controls cfg) as [cs|e]; [|split; [reflexivity|discriminate]].
  destruct (IceMeltConfig.states cfg) as [sts|e]; [|split; [reflexivity|discriminate]].
  destruct (IceMeltConfig.initial_state cfg) as [initial|e];
    [|split; [reflexivity|discriminate]].
  cbv zeta.
  set (w3 := set_states (py_dict sts) _).
  assert (Hu : all_unset (__sensors__ w3)) by apply fresh_sensors_unset.
  split; [apply transition_without_readings; exact Hu|].
  intros w E. rewrite (transition_without_readings depth None initial w3 Hu) in E.
  pose proof (transition_frame 1 None initial w3) as (Ks & Kst & _).
  rewrite E in Ks, Kst. simpl in Ks, Kst.
  split; [rewrite Ks; exact Hu|].
  intros initial' [= <-]. rewrite Kst. change (py_dict sts) with (__states__ w3).
  pose proof (transition_body_state None initial w3) as (_ & Hc & Hok).
  assert (Ew : w = store (transition_body None initial w3)).
  { simpl in E. unfold bind in E.
    destruct (transition_body None initial w3) as [[nt|] w4|e w4]; simpl in *;
      try discriminate. injection E as <-. reflexivity. }
  rewrite <- Ew in Hc, Hok.
  destruct (__states__ w3 !! initial) as [scfg|] eqn:Est.
  - apply Hok; [reflexivity|eauto].
  - destruct Hc as [Hc|[_ [? Hin]]]; [exact Hc|discriminate].
Qed.

End Landing.

(** ** Control settings *)

Section Settings.
Context `{PyBuiltins}.
Import IceMeltState Frame.

Lemma control_settings_of_result (items : list (string * string)) :
  match StateConfig.control_settings_of items with
  | Ok l => Forall2 setting_of (filter is_setting items) l
  | Err e => e = ValueError /\
             Exists (fun item => is_setting item /\ py_int (snd item) = None) items
  end.
Proof.
  induction items as [|[nm val] items IH]; [constructor|].
  cbn [StateConfig.control_settings_of]. rewrite filter_cons.
  destruct (decide (is_setting (nm, val))) as [Hs|Hs].
  - pose proof Hs as Ep. unfold is_setting in Ep. simpl in Ep. rewrite Ep.
    destruct (py_int val) as [n|] eqn:En; simpl.
    + destruct (StateConfig.control_settings_of items) as [l|e]; simpl.
      * constructor; [|exact IH]. split; [reflexivity|exact En].
      * destruct IH as [-> IH]. split; [reflexivity|]. apply Exists_cons_tl. exact IH.
    + split; [reflexivity|]. apply Exists_cons_hd. split; [exact Hs|exact En].
  - pose proof Hs as Ep. unfold is_setting in Ep. simpl in Ep.
    apply not_true_is_false in Ep. rewrite Ep.
    destruct (StateConfig.control_settings_of items) as [l|e]; [exact IH|].
    destruct IH as [-> IH]. split; [reflexivity|]. apply Exists_cons_tl. exact IH.
Qed.

(** X9. [control_settings] returns, in file order, one
    setting for each option of the state that starts with 'control': the
    rest of the option name, stripped, and the integer of its value.  It
    raises ValueError exactly when one of these values is not an
    integer. *)
Theorem control_settings_result (sc : StateConfig.t) :
  match StateConfig.control_settings sc with
  | Ok l => Forall2 setting_of
              (filter is_setting (StateConfig.__cfg__ sc : list (string * string))) l
  | Err e => e = ValueError /\
             Exists (fun item => is_setting item /\ py_int (snd item) = None)
                    (StateConfig.__cfg__ sc)
  end.
Proof. apply control_settings_of_result. Qed.

Lemma control_settings_of_bad (items : list (string * string)) :
  Exists (fun item => is_setting item /\ py_int (snd item) = None) items ->
  StateConfig.control_settings_of items = Err ValueError.
Proof.
  intros Hex. pose proof (control_settings_of_result items) as R.
  destruct (StateConfig.control_settings_of items) as [l|e]; [|destruct R as [-> _]; reflexivity].
  exfalso. revert l R. induction Hex as [[nm val] items [Hs Hn]|[nm val] items _ IH]; intros l R.
  - rewrite filter_cons in R. destruct (decide (is_setting (nm, val))); [|contradiction].
    inversion R as [|? p ? ? [_ Hp] _]; subst. simpl in Hp, Hn. congruence.
  - rewrite filter_cons in R. destruct (decide (is_setting (nm, val))).
    + inversion R; subst. eapply IH; eassumption.
    + eapply IH; eassumption.
Qed.

(** X10. When a control option of the target
    state has a value that is not an integer, [transition] raises
    ValueError after it has set the current state to the target, and
    before it has changed anything else. *)
Theorem non_integer_setting_interrupts_transition (depth : nat) (src : option string)
    (tgt : string) (w : t) (scfg : StateConfig.t) :
  __current_state__ w = src ->
  __states__ w !! tgt = Some scfg ->
  Exists (fun item => is_setting item /\ py_int (snd item) = None)
         (StateConfig.__cfg__ scfg) ->
  transition (S depth) src tgt w = Raise ValueError (set_current_state (Some tgt) w).
Proof.
  intros Hsrc Hst Hbad. simpl. unfold bind at 1. rewrite transition_body_eq.
  destruct (decide (__current_state__ w = src)); [|contradiction].
  rewrite Hst. unfold enter, bind at 1, modify. unfold bind at 1.
  unfold StateConfig.control_settings. rewrite (control_settings_of_bad _ Hbad).
  reflexivity.
Qed.

End Settings.

(** ** Cancelled timers *)

Lemma dead_alter_other (g : Timer.t -> Timer.t) ts i j :
  i <> j -> dead ts i -> dead (alter g j ts) i.
Proof.
  intros Hne (tm & Hi & Hf & Hs). exists tm.
  rewrite list_lookup_alter_ne by congruence. auto.
Qed.

Lemma dead_alter_cancel ts i j : dead ts i -> dead (alter Timer.cancel j ts) i.
Proof.
  intros Hd. destruct (decide (i = j)) as [<-|Hne]; [|apply dead_alter_other; assumption].
  destruct Hd as (tm & Hi & Hf & Hs). exists (Timer.cancel tm).
  rewrite list_lookup_alter_eq, Hi. auto.
Qed.

Lemma dead_alter_wake ts i j : dead ts i -> dead (alter Sched.wake j ts) i.
Proof.
  intros Hd. destruct (decide (i = j)) as [<-|Hne]; [|apply dead_alter_other; assumption].
  destruct Hd as (tm & Hi & Hf & Hs). exists (Sched.wake tm).
  rewrite list_lookup_alter_eq, Hi. split; [reflexivity|].
  unfold Sched.wake. destruct (Timer.stage tm) eqn:E; simpl; rewrite ?Hf, ?E; auto.
Qed.

Lemma dead_app ts extra i : dead ts i -> dead (ts ++ extra) i.
Proof.
  intros (tm & Hi & Hf & Hs). exists tm. split; [|auto].
  apply lookup_app_l_Some. exact Hi.
Qed.

Lemma dead_rearmed scfg ts held i :
  dead ts i -> dead (Spec.rearmed scfg ts held).1 i.
Proof.
  intros Hd. unfold Spec.rearmed.
  assert (Hc : dead (match held with Some h => alter Timer.cancel h ts | None => ts end) i).
  { destruct held; [apply dead_alter_cancel|]; exact Hd. }
  destruct (StateConfig.__timed_transition__ scfg) as [[tg dur]|]; simpl;
    [apply dead_app|]; exact Hc.
Qed.

Section Dead.
Context `{PyBuiltins}.
Import IceMeltState Frame.

Lemma transition_body_dead src tgt w i :
  dead (timers w) i -> dead (timers (store (transition_body src tgt w))) i.
Proof.
  intros Hd. rewrite transition_body_eq.
  destruct (decide (__current_state__ w = src)); [|exact Hd].
  destruct (__states__ w !! tgt) as [scfg|]; [|exact Hd].
  destruct (enter_timers tgt scfg w) as [E|E]; unfold timer_state in E.
  - injection E as -> _. exact Hd.
  - pose proof (dead_rearmed scfg (timers w) (__timer__ w) i Hd) as R.
    rewrite <- E in R. exact R.
Qed.

Lemma transition_dead depth : forall src tgt w i,
  dead (timers w) i -> dead (timers (store (transition depth src tgt w))) i.
Proof.
  induction depth as [|d IH]; intros src tgt w i Hd; [exact Hd|].
  simpl. unfold bind. pose proof (transition_body_dead src tgt w i Hd) as Hb.
  destruct (transition_body src tgt w) as [[nt|] w1|e w1]; simpl in *; auto.
Qed.

Lemma set_sensor_dead depth sensor value w i :
  dead (timers w) i -> dead (timers (store (set_sensor depth sensor value w))) i.
Proof.
  intros Hd. rewrite set_sensor_eq.
  pose proof (keeps_check timers sensor value (fun _ _ => eq_refl) (fun _ _ => eq_refl) w) as K.
  destruct (check sensor value w) as [[tg|] w1|e w1]; simpl in *;
    try (rewrite K; exact Hd).
  apply transition_dead. rewrite K. exact Hd.
Qed.

Lemma step_dead depth ev w i :
  dead (timers w) i -> dead (timers (Sched.step depth ev w)) i.
Proof.
  intros Hd. destruct ev as [src tgt|sensor value|j|j]; simpl.
  - apply transition_dead. exact Hd.
  - apply set_sensor_dead. exact Hd.
  - apply dead_alter_wake. exact Hd.
  - destruct (timers w !! j) as [tm|] eqn:Hj; [|exact Hd].
    destruct (Timer.stage tm) eqn:Hs; try exact Hd. simpl.
    apply dead_alter_other.
    + intros <-. destruct Hd as (tm' & Hi & _ & Hn). congruence.
    + apply transition_dead. exact Hd.
Qed.

Lemma run_dead depth evs : forall w i,
  dead (timers w) i -> dead (timers (Sched.run depth evs w)) i.
Proof.
  unfold Sched.run. induction evs as [|ev evs IH]; intros w i Hd; simpl; [exact Hd|].
  apply IH. apply step_dead. exact Hd.
Qed.

Lemma dead_call_is_noop depth w i :
  dead (timers w) i -> Sched.step depth (Sched.Call i) w = w.
Proof.
  intros (tm & Hi & _ & Hs). simpl. rewrite Hi.
  destruct (Timer.stage tm); try reflexivity. contradiction.
Qed.

(** X12. A timer that a transition cancels while
    it sleeps stays dead through every later event, and its call, whenever
    it comes, changes nothing. *)
Theorem cancelled_sleeping_timer_never_calls (depth : nat) (w : t)
    (src : option string) (tgt : string) (scfg : StateConfig.t) (i : nat) (tm : Timer.t) :
  __current_state__ w = src ->
  __states__ w !! tgt = Some scfg ->
  Spec.settings_ok w scfg ->
  __timer__ w = Some i ->
  timers w !! i = Some tm ->
  Timer.stage tm = Timer.Sleeping ->
  let w1 := store (transition_body src tgt w) in
  forall evs,
    dead (timers (Sched.run depth evs w1)) i /\
    Sched.step depth (Sched.Call i) (Sched.run depth evs w1) = Sched.run depth evs w1.
Proof.
  intros Hsrc Hst (l & Hl & Hall) Hheld Hi Hs w1 evs.
  assert (Hd : dead (timers w1) i).
  { unfold w1.
    destruct (transition_body_ok src tgt w scfg l Hsrc Hst Hl Hall)
      as (w' & E & _ & _ & _ & _ & _ & Ht).
    assert (Et : timers (store (transition_body src tgt w))
                 = (Spec.rearmed scfg (timers w) (__timer__ w)).1).
    { rewrite E, <- Ht. destruct (cascade _ _); reflexivity. }
    rewrite Et, Hheld. unfold Spec.rearmed.
    assert (Hc : dead (alter Timer.cancel i (timers w)) i).
    { exists (Timer.cancel tm). rewrite list_lookup_alter_eq, Hi.
      split; [reflexivity|]. split; [reflexivity|]. simpl. rewrite Hs. discriminate. }
    destruct (StateConfig.__timed_transition__ scfg) as [[tg dur]|]; simpl;
      [apply dead_app|]; exact Hc. }
  pose proof (run_dead depth evs w1 i Hd) as Hr.
  split; [exact Hr|]. apply dead_call_is_noop. exact Hr.
Qed.

End Dead.

(** ** Names and keys *)

Lemma py_dict_Forall_pairs {V} (P : string -> V -> Prop) (l : list (string * V)) :
  Forall (fun p => P (fst p) (snd p)) l ->
  forall nm v, py_dict l !! nm = Some v -> P nm v.
Proof.
  unfold py_dict. intros HF.
  assert (G : forall m : gmap string V, (forall nm v, m !! nm = Some v -> P nm v) ->
              forall nm v, foldl (fun m p => <[p.1 := p.2]> m) m l !! nm = Some v -> P nm v).
  { induction HF as [|[k x] l Hx _ IH]; intros m Hm; simpl; [exact Hm|].
    apply IH. intros nm v. destruct (decide (k = nm)) as [->|Hne].
    - rewrite lookup_insert_eq. intros [= <-]. exact Hx.
    - rewrite lookup_insert_ne by exact Hne. apply Hm. }
  apply G. intros nm v. rewrite lookup_empty. discriminate.
Qed.

Lemma prefixed_sections_named {A} (name_of : A -> string) (cfg : IceMeltConfig.t)
    (prefix : string) (factory : string -> section -> result A) :
  (forall nm sec a, factory nm sec = Ok a -> name_of a = nm) ->
  forall l, IceMeltConfig.__prefixed_sections__ cfg prefix factory = Ok l ->
  Forall (fun p => name_of (snd p) = fst p) l.
Proof.
  intros Hf. induction cfg as [|[sec_nm sec] cfg IH]; intros l; simpl.
  - intros [= <-]. constructor.
  - destruct (Str.startswith sec_nm prefix); [|apply IH].
    destruct (factory _ sec) as [a|e] eqn:Ea; simpl; [|discriminate].
    destruct (IceMeltConfig.__prefixed_sections__ cfg prefix factory) as [rest|e];
      simpl; [|discriminate].
    intros [= <-]. constructor; [exact (Hf _ _ _ Ea)|]. apply IH. reflexivity.
Qed.

Section Names.
Context `{PyBuiltins}.
Import IceMeltState Frame.

Lemma sensor_init_name nm sec c : SensorConfig.init nm sec = Ok c -> SensorConfig.name c = nm.
Proof.
  unfold SensorConfig.init.
  destruct (SectionProxy.getint_or sec "raw low" 0); simpl; [|discriminate].
  destruct (SectionProxy.getint sec "raw high" None); simpl; [|discriminate].
  destruct (SectionProxy.getint_or sec "display low" 0); simpl; [|discriminate].
  destruct (SectionProxy.getint_or sec "display high" 100); simpl; [|discriminate].
  intros [= <-]. reflexivity.
Qed.

Lemma control_init_name nm sec c : ControlConfig.init nm sec = Ok c -> ControlConfig.name c = nm.
Proof.
  unfold ControlConfig.init.
  destruct (SectionProxy.getint_or sec "raw low" 0); simpl; [|discriminate].
  destruct (SectionProxy.getint sec "raw high" None); simpl; [|discriminate].
  destruct (SectionProxy.getint_or sec "display low" 0); simpl; [|discriminate].
  destruct (SectionProxy.getint_or sec "display high" 100); simpl; [|discriminate].
  intros [= <-]. reflexivity.
Qed.

Lemma state_init_name nm sec sc : StateConfig.init nm sec = Ok sc -> StateConfig.name sc = nm.
Proof.
  unfold StateConfig.init.
  destruct (StateConfig.parse_triggers sec); simpl; [|discriminate].
  intros [= <-]. reflexivity.
Qed.

(** X13. After construction every sensor, control
    and state is stored under the name that its declaration carries. *)
Theorem constructed_machine_is_named_by_key (depth : nat) (cfg : IceMeltConfig.t)
    (w0 w : t) :
  init depth cfg w0 = Ret tt w -> named_by_key w.
Proof.
  rewrite init_unfold.
  destruct (IceMeltConfig.sensors cfg) as [ss|e] eqn:Ess; [|discriminate].
  destruct (IceMeltConfig.controls cfg) as [cs|e] eqn:Ecs; [|discriminate].
  destruct (IceMeltConfig.states cfg) as [sts|e] eqn:Ests; [|discriminate].
  destruct (IceMeltConfig.initial_state cfg) as [initial|e]; [|discriminate].
  cbv zeta. set (w3 := set_states (py_dict sts) _). intros E.
  pose proof (transition_frame depth None initial w3) as (Ks & Kst & Kc).
  rewrite E in Ks, Kst, Kc. simpl in Ks, Kst, Kc.
  split; [|split].
  - rewrite Ks. intros k s Hk.
    apply (py_dict_Forall_pairs (fun k s => SensorConfig.name (SensorState.__cfg__ s) = k)
             (map (fun p => (p.1, SensorState.init p.2)) ss)); [|exact Hk].
    apply Forall_fmap. simpl.
    exact (prefixed_sections_named SensorConfig.name cfg _ _ sensor_init_name ss Ess).
  - intros k c Hk.
    assert (Hc : (ControlState.__cfg__ <$> __controls__ w) !! k
                 = Some (ControlState.__cfg__ c)) by (rewrite lookup_fmap, Hk; reflexivity).
    rewrite Kc, lookup_fmap in Hc.
    destruct (py_dict (map (fun p => (p.1, ControlState.init p.2)) cs) !! k) as [c0|] eqn:E0;
      [|discriminate].
    simpl in Hc. injection Hc as <-.
    apply (py_dict_Forall_pairs (fun k s => ControlConfig.name (ControlState.__cfg__ s) = k)
             (map (fun p => (p.1, ControlState.init p.2)) cs)); [|exact E0].
    apply Forall_fmap. simpl.
    exact (prefixed_sections_named ControlConfig.name cfg _ _ control_init_name cs Ecs).
  - rewrite Kst. intros k sc Hk.
    apply (py_dict_Forall_pairs (fun k sc => StateConfig.name sc = k) sts); [|exact Hk].
    exact (prefixed_sections_named StateConfig.name cfg _ _ state_init_name sts Ests).
Qed.

End Names.

(** ** A timer that fires, and entering the current state again *)


Section Firing.
Context `{PyBuiltins}.
Import IceMeltState Frame.


End Firing.

(** ** Re-entry *)

Lemma apply_values_union (l : list (string * Z)) : forall m : gmap string Z,
  apply_values l m = list_to_map (reverse l) ∪ m.
Proof.
  unfold apply_values. induction l as [|[k v] l IH]; intros m; simpl.
  - rewrite (left_id_L ∅ (∪)). reflexivity.
  - rewrite IH, reverse_cons, list_to_map_app. simpl.
    rewrite <- (assoc_L (∪)). f_equal.
    rewrite insert_empty. rewrite <- insert_union_singleton_l. reflexivity.
Qed.

Lemma apply_values_idemp (l : list (string * Z)) (m : gmap string Z) :
  apply_values l (apply_values l m) = apply_values l m.
Proof.
  rewrite !apply_values_union. rewrite (assoc_L (∪)). f_equal.
  apply (idemp_L (∪)).
Qed.

Section Reentry.
Context `{PyBuiltins}.
Import IceMeltState Frame.

Lemma set_value_values nm val w cs q :
  __controls__ w !! nm = Some cs ->
  ControlConfig.lerp (ControlState.__cfg__ cs) val = Ok q ->
  control_values (store (set_value nm val w)) = <[nm := val]> (control_values w).
Proof.
  intros Hcs Hq. unfold set_value, bind, gets. rewrite Hcs.
  unfold now, bind, gets, modify, print. simpl. rewrite Hq. simpl.
  unfold control_values. simpl. rewrite fmap_insert. reflexivity.
Qed.

Lemma for_each_values l : forall w,
  Forall (fun p => exists cs q, __controls__ w !! fst p = Some cs /\
            ControlConfig.lerp (ControlState.__cfg__ cs) (snd p) = Ok q) l ->
  control_values (store (for_each l (fun '(nm, val) => set_value nm val) w))
    = apply_values l (control_values w).
Proof.
  induction l as [|[nm val] l IH]; intros w Hall; [reflexivity|].
  inversion Hall as [|? ? (cs & q & Hcs & Hq) Hrest]; subst. simpl in Hcs, Hq.
  destruct (set_value_ok nm val w cs q Hcs Hq) as (w1 & E1 & F1 & _).
  pose proof (set_value_values nm val w cs q Hcs Hq) as V1. rewrite E1 in V1. simpl in V1.
  simpl. unfold bind. rewrite E1. rewrite IH.
  - rewrite V1. reflexivity.
  - eapply Forall_impl; [exact Hrest|]. intros p (cs' & q' & Hc' & Hq').
    pose proof (Frame.f_controls _ _ F1 (fst p)) as E. rewrite Hc' in E.
    destruct (__controls__ w1 !! p.1) as [c1|]; simpl in E; [|discriminate].
    injection E as E. exists c1, q'. rewrite E. auto.
Qed.

Lemma keeps_rearm_and_cascade {X} (f : t -> X) scfg :
  (forall v w, f (set_timer v w) = f w) ->
  (forall v w, f (set_timers v w) = f w) ->
  (forall v w, f (set_last_transition v w) = f w) ->
  (forall v w, f (set_clock v w) = f w) ->
  keeps f
    (cancel_timer ;;;
     tm <- timer scfg ;;
     modify (set_timer tm) ;;;
     n <- now ;;
     modify (set_last_transition (Some n)) ;;;
     sensors <- gets __sensors__ ;;
     lift (cascade sensors (StateConfig.triggers scfg))).
Proof.
  intros f_timer f_timers f_last f_clock.
  apply keeps_bind.
  { unfold cancel_timer. apply keeps_bind; [apply keeps_gets|].
    intros [i|]; [apply keeps_modify; auto|apply keeps_ret]. }
  intros _. apply keeps_bind.
  { unfold timer. destruct (StateConfig.__timed_transition__ scfg) as [[tg dur]|];
      [|apply keeps_ret].
    apply keeps_bind; [apply keeps_gets|]. intros ts.
    apply keeps_bind; [apply keeps_modify; auto|]. intros _. apply keeps_ret. }
  intros tm. apply keeps_bind; [apply keeps_modify; auto|].
  intros _. apply keeps_bind.
  { unfold now. apply keeps_bind; [apply keeps_gets|]. intros n.
    apply keeps_bind; [apply keeps_modify; auto|]. intros _. apply keeps_ret. }
  intros n. apply keeps_bind; [apply keeps_modify; auto|].
  intros _. apply keeps_bind; [apply keeps_gets|]. intros s. apply keeps_lift.
Qed.

Lemma transition_body_values src tgt w scfg l :
  __current_state__ w = src ->
  __states__ w !! tgt = Some scfg ->
  StateConfig.control_settings scfg = Ok l ->
  Forall (fun p => exists cs q, __controls__ w !! fst p = Some cs /\
            ControlConfig.lerp (ControlState.__cfg__ cs) (snd p) = Ok q) l ->
  control_values (store (transition_body src tgt w)) = apply_values l (control_values w).
Proof.
  intros Hsrc Hst Hl Hall. rewrite transition_body_eq.
  destruct (decide (__current_state__ w = src)); [|contradiction].
  rewrite Hst. unfold enter. rewrite store_bind. unfold modify at 1. cbv beta iota.
  rewrite store_bind, Hl. unfold lift at 1, ret at 1. cbv beta iota. rewrite store_bind.
  pose proof (for_each_values l (set_current_state (Some tgt) w) Hall) as V.
  destruct (for_each_settings_ok l (set_current_state (Some tgt) w) Hall) as (w1 & E1 & _).
  rewrite E1 in V |- *. simpl in V.
  rewrite (keeps_rearm_and_cascade control_values scfg) by reflexivity.
  exact V.
Qed.

(** X15. A transition from the current state to itself is
    carried out (with no trigger firing): the settings of the state are
    applied and printed again, and the values of the controls are the same
    after the second entry as after the first. *)
Theorem re_entry_reapplies_settings (w : t) (s : string) (scfg : StateConfig.t)
    (l : list (string * Z)) :
  __current_state__ w = Some s ->
  __states__ w !! s = Some scfg ->
  StateConfig.control_settings scfg = Ok l ->
  Forall (fun p => exists cs q, __controls__ w !! fst p = Some cs /\
            ControlConfig.lerp (ControlState.__cfg__ cs) (snd p) = Ok q) l ->
  let w1 := store (transition_body (Some s) s w) in
  let w2 := store (transition_body (Some s) s w1) in
  __current_state__ w2 = Some s /\
  stdout w1 = stdout w ++ flat_map (Spec.output_of w) l /\
  stdout w2 = stdout w1 ++ flat_map (Spec.output_of w) l /\
  control_values w1 = apply_values l (control_values w) /\
  control_values w2 = control_values w1.
Proof.
  intros Hcur Hst Hl Hall w1 w2.
  destruct (transition_body_ok (Some s) s w scfg l Hcur Hst Hl Hall)
    as (w1' & E1 & Hcur1 & _ & Hst1 & Hctl1 & Hout1 & _).
  assert (Ew1 : w1 = w1').
  { unfold w1. rewrite E1.
    destruct (cascade (__sensors__ w) (StateConfig.triggers scfg)); reflexivity. }
  assert (Hall1 : Forall (fun p => exists cs q, __controls__ w1 !! fst p = Some cs /\
            ControlConfig.lerp (ControlState.__cfg__ cs) (snd p) = Ok q) l).
  { rewrite Ew1. eapply Forall_impl; [exact Hall|]. intros p (cs & q & Hc & Hq).
    specialize (Hctl1 (fst p)). rewrite Hc in Hctl1.
    destruct (__controls__ w1' !! p.1) as [c1|]; simpl in Hctl1; [|discriminate].
    injection Hctl1 as E. exists c1, q. rewrite E. auto. }
  assert (Hcur1' : __current_state__ w1 = Some s) by (rewrite Ew1; exact Hcur1).
  assert (Hst1' : __states__ w1 !! s = Some scfg) by (rewrite Ew1, Hst1; exact Hst).
  destruct (transition_body_ok (Some s) s w1 scfg l Hcur1' Hst1' Hl Hall1)
    as (w2' & E2 & Hcur2 & _ & _ & _ & Hout2 & _).
  assert (Ew2 : w2 = w2').
  { unfold w2. rewrite E2.
    destruct (cascade (__sensors__ w1) (StateConfig.triggers scfg)); reflexivity. }
  assert (Hsame : flat_map (Spec.output_of w1) l = flat_map (Spec.output_of w) l).
  { apply flat_map_ext. intros p. unfold Spec.output_of.
    pose proof (Hctl1 (fst p)) as E. rewrite <- Ew1 in E.
    destruct (__controls__ w1 !! p.1) as [c1|], (__controls__ w !! p.1) as [c0|];
      simpl in E; try discriminate; [|reflexivity].
    injection E as ->. reflexivity. }
  pose proof (transition_body_values (Some s) s w scfg l Hcur Hst Hl Hall) as V1.
  pose proof (transition_body_values (Some s) s w1 scfg l Hcur1' Hst1' Hl Hall1) as V2.
  fold w1 in V1. fold w2 in V2.
  split; [rewrite Ew2; exact Hcur2|].
  split; [rewrite Ew1; exact Hout1|].
  split; [rewrite Ew2, Hout2, Hsame; reflexivity|].
  split; [exact V1|].
  rewrite V2, V1. apply apply_values_idemp.
Qed.

End Reentry.

(** ** Occurrences of the keywords *)

Lemma chars_inj s1 s2 : list_ascii_of_string s1 = list_ascii_of_string s2 -> s1 = s2.
Proof.
  intros E. rewrite <- (string_of_list_ascii_of_string s1),
    <- (string_of_list_ascii_of_string s2), E. reflexivity.
Qed.

Lemma length_chars s : length (list_ascii_of_string s) = String.length s.
Proof. induction s as [|c s IH]; simpl; [reflexivity|]. rewrite IH. reflexivity. Qed.

Lemma chars_rev_app s1 : forall s2,
  list_ascii_of_string (String.rev_app s1 s2) = reverse (list_ascii_of_string s1) ++ list_ascii_of_string s2.
Proof.
  induction s1 as [|c s1 IH]; intros s2; simpl; [reflexivity|].
  rewrite IH, reverse_cons, <- app_assoc. reflexivity.
Qed.

Lemma chars_rev s : list_ascii_of_string (String.rev s) = reverse (list_ascii_of_string s).
Proof. unfold String.rev. rewrite chars_rev_app. simpl. apply app_nil_r. Qed.

Lemma chars_substring n : forall m s,
  list_ascii_of_string (substring n m s) = take m (drop n (list_ascii_of_string s)).
Proof.
  induction n as [|n IHn]; intros m s.
  - revert s. induction m as [|m IHm]; intros s; destruct s as [|c s]; simpl;
      try reflexivity. rewrite IHm. reflexivity.
  - destruct s as [|c s]; simpl; [destruct m; reflexivity|]. apply IHn.
Qed.

Lemma length_rev s : String.length (String.rev s) = String.length s.
Proof. rewrite <- !length_chars, chars_rev. apply length_reverse. Qed.

Lemma rev_involutive s : String.rev (String.rev s) = s.
Proof. apply chars_inj. rewrite !chars_rev. apply reverse_involutive. Qed.

Lemma occurs_chars kw s p :
  occurs kw s p <-> take (String.length kw) (drop p (list_ascii_of_string s)) = list_ascii_of_string kw.
Proof.
  unfold occurs. rewrite <- chars_substring. split; [intros ->; reflexivity|apply chars_inj].
Qed.

(** An occurrence of a keyword lies inside the string. *)
Lemma occurs_bound kw s p :
  occurs kw s p -> (p + String.length kw <= String.length s)%nat \/ kw = "".
Proof.
  intros Ho. apply occurs_chars in Ho.
  destruct kw as [|c kw]; [right; reflexivity|left].
  apply (f_equal length) in Ho. rewrite length_take, length_drop, !length_chars in Ho.
  cbn [String.length] in *. lia.
Qed.

(** Occurrences in a string and in its reversal mirror each other. *)
Lemma occurs_rev kw s p :
  (p + String.length kw <= String.length s)%nat ->
  occurs kw s p <->
  occurs (String.rev kw) (String.rev s) (String.length s - p - String.length kw).
Proof.
  intros Hb. rewrite !occurs_chars, !chars_rev, length_rev.
  set (k := String.length kw) in *. set (l := list_ascii_of_string s).
  assert (Hn : length l = String.length s) by apply length_chars.
  assert (E : take k (drop (String.length s - p - k) (reverse l))
              = reverse (take k (drop p l))).
  { rewrite drop_reverse, take_reverse.
    replace (length l - (String.length s - p - k))%nat with (p + k)%nat by lia.
    rewrite length_take_le by lia.
    replace (p + k - k)%nat with p by lia.
    rewrite take_drop_commute. reflexivity. }
  rewrite E. split; [intros ->; reflexivity|].
  intros Hr. apply (f_equal reverse) in Hr. rewrite !reverse_involutive in Hr. exact Hr.
Qed.

(** [s.find(kw)], read as the leftmost occurrence. *)
Lemma find_spec s kw :
  kw <> "" ->
  match String.index 0 kw s with
  | Some j => Str.find s kw = Z.of_nat j /\ occurs kw s j /\
              forall q, occurs kw s q -> (j <= q)%nat
  | None => Str.find s kw = -1 /\ forall q, ~ occurs kw s q
  end.
Proof.
  intros Hne. unfold Str.find. destruct (String.index 0 kw s) as [j|] eqn:E.
  - split; [reflexivity|]. split; [exact (index_correct1 _ _ _ _ E)|].
    intros q Hq. destruct (le_lt_dec j q) as [Hle|Hlt]; [exact Hle|].
    exfalso. exact (index_correct2 _ _ _ _ E q (Nat.le_0_l q) Hlt Hq).
  - split; [reflexivity|]. intros q Hq.
    exact (index_correct3 _ q _ _ E Hne (Nat.le_0_l q) Hq).
Qed.

(** [rev(s).find(rev(kw))], read as the rightmost occurrence of [kw] in [s]. *)
Lemma rfind_spec s kw :
  kw <> "" ->
  let n := String.length s in
  let k := String.length kw in
  match String.index 0 (String.rev kw) (String.rev s) with
  | Some j => Str.find (String.rev s) (String.rev kw) = Z.of_nat j /\
              (j + k <= n)%nat /\ occurs kw s (n - j - k) /\
              forall q, occurs kw s q -> (q <= n - j - k)%nat
  | None => Str.find (String.rev s) (String.rev kw) = -1 /\ forall q, ~ occurs kw s q
  end.
Proof.
  intros Hne n k.
  assert (Hrne : String.rev kw <> "").
  { intros E. apply Hne. rewrite <- (rev_involutive kw), E. reflexivity. }
  assert (Hk : String.length (String.rev kw) = k) by apply length_rev.
  assert (Hn : String.length (String.rev s) = n) by apply length_rev.
  assert (Hmirror : forall q, occurs kw s q ->
            (q + k <= n)%nat /\ occurs (String.rev kw) (String.rev s) (n - q - k)).
  { intros q Hq. destruct (occurs_bound _ _ _ Hq) as [Hb|Hb]; [|contradiction].
    split; [exact Hb|]. exact (proj1 (occurs_rev kw s q Hb) Hq). }
  pose proof (find_spec (String.rev s) (String.rev kw) Hrne) as F.
  destruct (String.index 0 (String.rev kw) (String.rev s)) as [j|].
  - destruct F as (Hf & Ho & Hmin). split; [exact Hf|].
    destruct (occurs_bound _ _ _ Ho) as [Hb|Hb]; [|contradiction].
    rewrite Hk, Hn in Hb. split; [exact Hb|]. split.
    + assert (Hpb : (n - j - k + k <= n)%nat) by lia.
      apply (proj2 (occurs_rev kw s (n - j - k) Hpb)). fold n k.
      replace (n - (n - j - k) - k)%nat with j by lia. exact Ho.
    + intros q Hq. destruct (Hmirror q Hq) as [Hqb Hqr].
      specialize (Hmin _ Hqr). lia.
  - destruct F as (Hf & Hnone). split; [exact Hf|].
    intros q Hq. destruct (Hmirror q Hq) as [_ Hqr]. exact (Hnone _ Hqr).
Qed.

Lemma keyword_after_prefix d kw p :
  Str.startswith d SENSOR_PREFIX = true -> keyword kw -> occurs kw d p -> (6 <= p)%nat.
Proof.
  unfold Str.startswith. intros Hp Hkw Ho. apply prefix_correct in Hp.
  destruct (le_lt_dec 6 p) as [Hle|Hlt]; [exact Hle|]. exfalso.
  assert (Hg : get p d = get p SENSOR_PREFIX).
  { transitivity (get p (substring 0 6 d)).
    - rewrite (substring_correct1 d 0 6 p Hlt), Nat.add_0_r. reflexivity.
    - change 6%nat with (String.length SENSOR_PREFIX). rewrite Hp. reflexivity. }
  assert (Hk : get p d = get 0 kw).
  { transitivity (get 0 (substring p (String.length kw) d)).
    - rewrite (substring_correct1 d p (String.length kw) 0); [reflexivity|].
      destruct Hkw as [-> | ->]; simpl; lia.
    - unfold occurs in Ho. rewrite Ho. reflexivity. }
  rewrite Hg in Hk.
  destruct Hkw as [-> | ->];
    do 6 (destruct p as [|p]; [discriminate Hk|]); lia.
Qed.

(** ** The parser of trigger descriptions *)

Lemma split_go_nonempty s : forall cur, cur <> "" -> Str.split_go cur s <> [].
Proof.
  induction s as [|c s IH]; intros cur Hne; simpl.
  - destruct (String.eqb_spec cur ""); [contradiction|discriminate].
  - destruct (Str.isspace c).
    + destruct (String.eqb_spec cur ""); [contradiction|discriminate].
    + apply IH. discriminate.
Qed.

Lemma split_of_declaration d :
  Str.startswith d SENSOR_PREFIX = true ->
  exists token, Str.last_item (Str.split d) = Ok token.
Proof.
  intros Hp. unfold Str.startswith, SENSOR_PREFIX in Hp.
  destruct d as [|c d]; [cbv in Hp; discriminate Hp|]. cbn [String.prefix] in Hp.
  destruct (ascii_dec "s" c) as [<-|]; [|discriminate Hp].
  unfold Str.split, Str.last_item. cbn [Str.split_go].
  change (Str.isspace "s") with false. cbv iota.
  destruct (last (Str.split_go "s" d)) as [tok|] eqn:E; [eexists; reflexivity|].
  exfalso. apply last_None in E. revert E. apply split_go_nonempty. discriminate.
Qed.

Section Parser.
Context `{PyBuiltins}.

Lemma parse_sensor_trigger_ok (description : string) :
  exists o, parse_sensor_trigger description = Ok o.
Proof.
  unfold parse_sensor_trigger.
  destruct (Str.startswith description SENSOR_PREFIX) eqn:Hp; [|eexists; reflexivity].
  cbn [negb].
  destruct ((Str.find (Str.reversed description) "evoba" <? 0)
            && (Str.find (Str.reversed description) "woleb" <? 0));
    [eexists; reflexivity|].
  destruct (split_of_declaration description Hp) as [token Ht].
  destruct ((Str.find (Str.reversed description) "woleb" <? 0)
            || (0 <=? Str.find (Str.reversed description) "evoba")
               && (Str.find (Str.reversed description) "evoba"
                   <? Str.find (Str.reversed description) "woleb"));
    rewrite Ht; cbn [rbind]; destruct (py_float token); eexists; reflexivity.
Qed.

(** X16. [parse_sensor_trigger] returns for every
    description, a trigger or None: the exceptions of its body are caught. *)
Theorem parse_sensor_trigger_never_raises (description : string) :
  exists o, parse_sensor_trigger description = Ok o.
Proof. apply parse_sensor_trigger_ok. Qed.

(** X18. A trigger that is parsed from a
    description comes from a description that starts with 'sensor'; its
    direction is that of the rightmost occurrence of 'above' or 'below',
    which lies after the prefix; its sensor is the stripped text between
    the prefix and the character before that occurrence; its threshold is
    the float of the last word. *)
Theorem parsed_trigger_is_at_rightmost_keyword (description : string)
    (tr : SensorTrigger.t) :
  parse_sensor_trigger description = Ok (Some tr) ->
  Str.startswith description SENSOR_PREFIX = true /\
  (exists kw p,
     (kw = "above" /\ SensorTrigger.direction tr = 1 \/
      kw = "below" /\ SensorTrigger.direction tr = -1) /\
     occurs kw description p /\ (6 <= p)%nat /\
     (forall kw' q, keyword kw' -> occurs kw' description q -> (q <= p)%nat) /\
     SensorTrigger.sensor tr
       = Str.strip (Str.slice description (Str.len SENSOR_PREFIX) (Z.of_nat p - 1))) /\
  (exists token, Str.last_item (Str.split description) = Ok token /\
                 py_float token = Some (SensorTrigger.threshold tr)).
Proof.
  unfold parse_sensor_trigger.
  destruct (Str.startswith description SENSOR_PREFIX) eqn:Hp; [|discriminate].
  cbn [negb]. unfold Str.reversed.
  pose proof (rfind_spec description "above" ltac:(discriminate)) as Ha.
  pose proof (rfind_spec description "below" ltac:(discriminate)) as Hb.
  cbv zeta in Ha, Hb.
  change (String.rev "above") with "evoba" in Ha.
  change (String.rev "below") with "woleb" in Hb.
  change (String.length "above") with 5%nat in Ha.
  change (String.length "below") with 5%nat in Hb.
  set (n := String.length description) in *.
  assert (Hlen : Str.len description = Z.of_nat n) by reflexivity.
  destruct (split_of_declaration description Hp) as [token Ht]. rewrite Ht.
  assert (Hfin : forall (dir : Z) (p : nat) kw,
            (kw = "above" /\ dir = 1 \/ kw = "below" /\ dir = -1) ->
            occurs kw description p ->
            (forall kw' q, keyword kw' -> occurs kw' description q -> (q <= p)%nat) ->
            forall di, di = Z.of_nat p - 1 ->
            (let? token0 := Ok token in
             match py_float token0 with
             | Some threshold =>
                 Ok (Some {| SensorTrigger.sensor :=
                               Str.strip (Str.slice description (Str.len SENSOR_PREFIX) di);
                             SensorTrigger.direction := dir;
                             SensorTrigger.threshold := threshold |})
             | None => Ok None
             end) = Ok (Some tr) ->
            true = true /\
            (exists kw p,
               (kw = "above" /\ SensorTrigger.direction tr = 1 \/
                kw = "below" /\ SensorTrigger.direction tr = -1) /\
               occurs kw description p /\ (6 <= p)%nat /\
               (forall kw' q, keyword kw' -> occurs kw' description q -> (q <= p)%nat) /\
               SensorTrigger.sensor tr
                 = Str.strip (Str.slice description (Str.len SENSOR_PREFIX)
                                (Z.of_nat p - 1))) /\
            (exists token0, Ok token = Ok token0 /\
                            py_float token0 = Some (SensorTrigger.threshold tr))).
  { intros dir p kw Hkw Ho Hmax di -> E. cbn [rbind] in E.
    destruct (py_float token) as [thr|] eqn:Ef; [|discriminate].
    injection E as <-. cbn [SensorTrigger.sensor SensorTrigger.direction SensorTrigger.threshold].
    split; [reflexivity|]. split.
    - exists kw, p. split; [exact Hkw|]. split; [exact Ho|]. split.
      + apply (keyword_after_prefix description kw p Hp); [|exact Ho].
        destruct Hkw as [[-> _]|[-> _]]; [left|right]; reflexivity.
      + split; [exact Hmax|reflexivity].
    - exists token. split; [reflexivity|exact Ef]. }
  destruct (String.index 0 "evoba" (String.rev description)) as [a|];
  destruct (String.index 0 "woleb" (String.rev description)) as [b|].
  - destruct Ha as (Efa & Hba & Hoa & Hma). destruct Hb as (Efb & Hbb & Hob & Hmb).
    rewrite Efa, Efb.
    destruct (Z.ltb_spec (Z.of_nat a) 0); [lia|].
    destruct (Z.ltb_spec (Z.of_nat b) 0); [lia|]. cbn [andb orb].
    destruct (Z.leb_spec 0 (Z.of_nat a)); [|lia]. cbn [andb].
    destruct (Z.ltb_spec (Z.of_nat a) (Z.of_nat b)) as [Hab|Hab].
    + apply (Hfin 1 (n - a - 5)%nat "above"); [left; auto|exact Hoa| |].
      * intros kw' q [-> | ->] Hq; [exact (Hma q Hq)|]. specialize (Hmb q Hq). lia.
      * rewrite Hlen. change (Str.len "above") with 5. lia.
    + apply (Hfin (-1) (n - b - 5)%nat "below"); [right; auto|exact Hob| |].
      * intros kw' q [-> | ->] Hq; [|exact (Hmb q Hq)]. specialize (Hma q Hq). lia.
      * rewrite Hlen. change (Str.len "below") with 5. lia.
  - destruct Ha as (Efa & Hba & Hoa & Hma). destruct Hb as (Efb & Hnb).
    rewrite Efa, Efb.
    destruct (Z.ltb_spec (Z.of_nat a) 0); [lia|]. cbn [andb orb].
    change (-1 <? 0) with true. cbn [orb].
    apply (Hfin 1 (n - a - 5)%nat "above"); [left; auto|exact Hoa| |].
    + intros kw' q [-> | ->] Hq; [exact (Hma q Hq)|]. destruct (Hnb q Hq).
    + rewrite Hlen. change (Str.len "above") with 5. lia.
  - destruct Ha as (Efa & Hna). destruct Hb as (Efb & Hbb & Hob & Hmb).
    rewrite Efa, Efb.
    change (-1 <? 0) with true. cbn [andb].
    destruct (Z.ltb_spec (Z.of_nat b) 0); [lia|]. cbn [orb].
    change (0 <=? -1) with false. cbn [andb].
    apply (Hfin (-1) (n - b - 5)%nat "below"); [right; auto|exact Hob| |].
    + intros kw' q [-> | ->] Hq; [|exact (Hmb q Hq)]. destruct (Hna q Hq).
    + rewrite Hlen. change (Str.len "below") with 5. lia.
  - destruct Ha as (Efa & _). destruct Hb as (Efb & _). rewrite Efa, Efb.
    change (-1 <? 0) with true. cbn [andb]. discriminate.
Qed.

End Parser.

(** ** The order of the display values *)

Lemma Qmult_neg_pos (x z : Q) : (x < 0 -> 0 < z -> x * z < 0)%Q.
Proof.
  intros Hx Hz. assert (E : (0 * z == 0)%Q) by ring. rewrite <- E.
  apply Qmult_lt_compat_r; assumption.
Qed.

Lemma Qmult_nonneg_pos (x z : Q) : (0 <= x -> 0 < z -> 0 <= x * z)%Q.
Proof. intros Hx Hz. apply Qmult_le_0_compat; lra. Qed.

Lemma scaled_sign (a b c : Q) : (0 < b -> 0 < c -> (a / b * c < 0 <-> a < 0))%Q.
Proof.
  intros Hb Hc.
  assert (Hib : (0 < / b)%Q) by (apply Qinv_lt_0_compat; exact Hb).
  unfold Qdiv. split; intros Hs.
  - destruct (Qlt_le_dec a 0) as [Hlt|Hge]; [exact Hlt|]. exfalso.
    pose proof (Qmult_nonneg_pos _ _ (Qmult_nonneg_pos _ _ Hge Hib) Hc). lra.
  - apply Qmult_neg_pos; [|exact Hc]. apply Qmult_neg_pos; assumption.
Qed.

Lemma scaled_over (a b c : Q) : (0 < b -> 0 < c -> (c < a / b * c <-> b < a))%Q.
Proof.
  intros Hb Hc.
  pose proof (scaled_sign (b - a) b c Hb Hc) as S.
  assert (E2 : ((b - a) / b * c == c - a / b * c)%Q) by (field; lra).
  rewrite E2 in S. split; intros Hs.
  - assert (H0 : (c - a / b * c < 0)%Q) by lra. apply S in H0. lra.
  - assert (H0 : (b - a < 0)%Q) by lra. apply S in H0. lra.
Qed.






(** ** The sensor feed *)

Lemma chars_append a b : Str.chars (String.append a b) = Str.chars a ++ Str.chars b.
Proof. unfold Str.chars. induction a as [|c a IH]; simpl; [reflexivity|]. rewrite IH. reflexivity. Qed.

Lemma length_append a b :
  String.length (String.append a b) = (String.length a + String.length b)%nat.
Proof. induction a as [|c a IH]; simpl; [reflexivity|]. rewrite IH. reflexivity. Qed.

Lemma substring_prefix a b : substring 0 (String.length a) (String.append a b) = a.
Proof. induction a as [|c a IH]; simpl; [destruct b; reflexivity|]. rewrite IH. reflexivity. Qed.

Lemma substring_all b : substring 0 (String.length b) b = b.
Proof. induction b as [|c b IHb]; simpl; [reflexivity|]. rewrite IHb. reflexivity. Qed.

Lemma substring_suffix a b :
  substring (String.length a) (String.length b) (String.append a b) = b.
Proof.
  induction a as [|c a IH]; [exact (substring_all b)|exact IH].
Qed.

Lemma indices_of_avoid ch s : forall i, ch ∉ Str.chars s -> Str.indices_of ch i s = [].
Proof.
  induction s as [|c s IH]; intros i Hn; simpl; [reflexivity|].
  unfold Str.chars in Hn. simpl in Hn. apply not_elem_of_cons in Hn as [Hne Hn].
  destruct (Ascii.eqb_spec c ch) as [->|_]; [contradiction|]. apply IH. exact Hn.
Qed.

Lemma indices_of_append ch a b : forall i,
  Str.indices_of ch i (String.append a b)
  = Str.indices_of ch i a ++ Str.indices_of ch (i + String.length a) b.
Proof.
  induction a as [|c a IH]; intros i; simpl.
  - rewrite Nat.add_0_r. reflexivity.
  - rewrite IH. replace (S i + String.length a)%nat with (i + S (String.length a))%nat by lia.
    destruct (Ascii.eqb c ch); reflexivity.
Qed.

(** The index of the last space of [name ++ " " ++ token]. *)
Lemma last_space name token :
  " "%char ∉ Str.chars token ->
  Str.last_item (Str.indices_of " " 0 (String.append name (String " " token)))
  = Ok (String.length name).
Proof.
  intros Hn. rewrite indices_of_append. cbn [Str.indices_of].
  change (Ascii.eqb " " " ") with true. cbv iota.
  rewrite (indices_of_avoid _ _ _ Hn). unfold Str.last_item.
  rewrite last_snoc. reflexivity.
Qed.

Lemma slice_name name rest :
  Str.slice (String.append name rest) 0 (Z.of_nat (String.length name)) = name.
Proof.
  unfold Str.slice, Str.slice_bound, Str.len. rewrite length_append.
  change (0 <? 0) with false. cbv iota.
  destruct (Z.ltb_spec (Z.of_nat (String.length name)) 0) as [Hlt|_]; [lia|].
  rewrite Z.min_l by lia. rewrite Z.min_l by lia. rewrite Nat2Z.id. simpl Z.to_nat.
  rewrite Nat.sub_0_r. apply substring_prefix.
Qed.

Lemma append_assoc a b c :
  String.append (String.append a b) c = String.append a (String.append b c).
Proof.
  induction a as [|x a IH]; [reflexivity|].
  change (String x (String.append (String.append a b) c)
          = String x (String.append a (String.append b c))).
  f_equal. exact IH.
Qed.

Lemma slice_from_token name token :
  Str.slice_from (String.append name (String " " token))
    (Z.of_nat (String.length name) + 1) = token.
Proof.
  change (String " " token) with (String.append " " token).
  rewrite <- append_assoc.
  assert (La : String.length (String.append name " ") = S (String.length name)).
  { rewrite length_append. simpl. lia. }
  set (a := String.append name " ") in *.
  unfold Str.slice_from, Str.slice_bound, Str.len. rewrite length_append.
  destruct (Z.ltb_spec (Z.of_nat (String.length name) + 1) 0) as [Hlt|_]; [lia|].
  rewrite Z.min_l by lia.
  replace (Z.to_nat (Z.of_nat (String.length name) + 1)) with (String.length a) by lia.
  replace (String.length a + String.length token - String.length a)%nat
    with (String.length token) by lia.
  apply substring_suffix.
Qed.

Section Feed.
Context `{PyBuiltins}.
Import IceMeltState.

(** X22. A line of the feed is cut at its last
    space: for a line made of a name, a space and a word without a space,
    the reading of the sensor of that name is set to the integer of the
    word, and the line is ignored when the word is not an integer. *)
Theorem read_sensor_line_splits_at_last_space (depth : nat) (name token : string) (w : t) :
  " "%char ∉ Str.chars token ->
  read_sensor_line depth (String.append name (String " " token)) w =
  match py_int token with
  | Some value => set_sensor depth name value w
  | None => Ret tt w
  end.
Proof.
  intros Hn. unfold read_sensor_line, bind at 1. rewrite (last_space name token Hn).
  simpl lift. unfold ret at 1. rewrite slice_name, slice_from_token.
  destruct (py_int token); reflexivity.
Qed.

(** X23. A line of the feed without a space raises
    IndexError and leaves the machine as it was. *)
Theorem read_sensor_line_without_space_raises (depth : nat) (line : string) (w : t) :
  " "%char ∉ Str.chars line ->
  read_sensor_line depth line w = Raise IndexError w.
Proof.
  intros Hn. unfold read_sensor_line, bind. rewrite (indices_of_avoid _ _ _ Hn). reflexivity.
Qed.

End Feed.

(** ** Splitting at a character *)

Lemma chars_cons c s : Str.chars (String c s) = c :: Str.chars s.
Proof. reflexivity. Qed.

(** A string is cut in one way only at the first occurrence of a character. *)
Lemma first_cut_unique sep a : forall a' r r',
  sep ∉ Str.chars a -> sep ∉ Str.chars a' ->
  String.append a (String sep r) = String.append a' (String sep r') ->
  a = a' /\ r = r'.
Proof.
  induction a as [|c a IH]; intros [|c' a'] r r' Ha Ha' E.
  - injection E as E. split; [reflexivity|exact E].
  - injection E as E1 E2. subst c'. rewrite chars_cons in Ha'.
    apply not_elem_of_cons in Ha' as [Hne _]. contradiction.
  - injection E as E1 E2. subst c. rewrite chars_cons in Ha.
    apply not_elem_of_cons in Ha as [Hne _]. contradiction.
  - injection E as E1 E2. subst c'. rewrite chars_cons in Ha, Ha'.
    apply not_elem_of_cons in Ha as [_ Ha]. apply not_elem_of_cons in Ha' as [_ Ha'].
    destruct (IH a' r r' Ha Ha' E2) as [-> ->]. split; reflexivity.
Qed.

Lemma rev_cons c cur : String.rev (String c cur) = String.append (String.rev cur) (String c "").
Proof.
  apply chars_inj. fold Str.chars. rewrite chars_append. unfold Str.chars.
  rewrite !chars_rev. simpl. apply reverse_cons.
Qed.

Lemma append_empty_r a : String.append a "" = a.
Proof.
  induction a as [|c a IH]; [reflexivity|].
  change (String c (String.append a "") = String c a). f_equal. exact IH.
Qed.

Lemma split_on_go_last sep a : forall cur,
  sep ∉ Str.chars a ->
  Str.split_on_go sep cur a = [String.append (String.rev cur) a].
Proof.
  induction a as [|c a IH]; intros cur Ha.
  - cbn [Str.split_on_go]. rewrite append_empty_r. reflexivity.
  - rewrite chars_cons in Ha. apply not_elem_of_cons in Ha as [Hne Ha].
    cbn [Str.split_on_go]. destruct (Ascii.eqb_spec c sep) as [->|_]; [contradiction|].
    rewrite (IH _ Ha), rev_cons, append_assoc. reflexivity.
Qed.

Lemma split_on_go_piece sep a : forall cur r,
  sep ∉ Str.chars a ->
  Str.split_on_go sep cur (String.append a (String sep r))
  = String.append (String.rev cur) a :: Str.split_on_go sep "" r.
Proof.
  induction a as [|c a IH]; intros cur r Ha.
  - change (String.append "" (String sep r)) with (String sep r).
    cbn [Str.split_on_go]. rewrite Ascii.eqb_refl, append_empty_r. reflexivity.
  - rewrite chars_cons in Ha. apply not_elem_of_cons in Ha as [Hne Ha].
    change (String.append (String c a) (String sep r))
      with (String c (String.append a (String sep r))).
    cbn [Str.split_on_go]. destruct (Ascii.eqb_spec c sep) as [->|_]; [contradiction|].
    rewrite (IH _ _ Ha), rev_cons, append_assoc. reflexivity.
Qed.

(** What [split_on_go] returns: its first piece ends at the first separator
    of the string, if there is one. *)
Lemma split_on_go_inv sep s : forall cur,
  exists a, (sep ∉ Str.chars a) /\
    ((s = a /\ Str.split_on_go sep cur s = [String.append (String.rev cur) a]) \/
     (exists r, s = String.append a (String sep r) /\
        Str.split_on_go sep cur s
        = String.append (String.rev cur) a :: Str.split_on_go sep "" r)).
Proof.
  induction s as [|c s IH]; intros cur.
  - exists "". split; [apply not_elem_of_nil|]. left. split; [reflexivity|].
    apply split_on_go_last. apply not_elem_of_nil.
  - destruct (Ascii.eqb_spec c sep) as [->|Hne].
    + exists "". split; [apply not_elem_of_nil|]. right. exists s. split; [reflexivity|].
      apply (split_on_go_piece sep "" cur s). apply not_elem_of_nil.
    + destruct (IH (String c cur)) as (a & Ha & [[-> _]|(r & -> & _)]).
      * exists (String c a). assert (Hc : sep ∉ Str.chars (String c a)).
        { rewrite chars_cons. apply not_elem_of_cons. split; [congruence|exact Ha]. }
        split; [exact Hc|]. left. split; [reflexivity|]. apply split_on_go_last, Hc.
      * exists (String c a). assert (Hc : sep ∉ Str.chars (String c a)).
        { rewrite chars_cons. apply not_elem_of_cons. split; [congruence|exact Ha]. }
        split; [exact Hc|]. right. exists r. split; [reflexivity|].
        apply (split_on_go_piece sep (String c a) cur r Hc).
Qed.

(** ** Requests *)

Import RequestHandler.

Lemma prefix_append p : forall s, String.prefix p s = true -> exists x, s = String.append p x.
Proof.
  induction p as [|c p IH]; intros s Hp.
  - exists s. reflexivity.
  - destruct s as [|c' s]; [discriminate Hp|]. cbn [String.prefix] in Hp.
    destruct (ascii_dec c c') as [<-|_]; [|discriminate Hp].
    destruct (IH s Hp) as [x ->]. exists x. reflexivity.
Qed.

Lemma prefix_of_append p x : String.prefix p (String.append p x) = true.
Proof.
  induction p as [|c p IH].
  - destruct x; reflexivity.
  - change (String.append (String c p) x) with (String c (String.append p x)).
    cbn [String.prefix]. destruct (ascii_dec c c) as [_|Hne]; [exact IH|congruence].
Qed.

Lemma split_transition_path src tgt :
  "/"%char ∉ Str.chars src -> "/"%char ∉ Str.chars tgt ->
  Str.split_on "/" (transition_path src tgt) = [""; "transition"; src; tgt].
Proof.
  intros Hs Ht. unfold Str.split_on.
  change (transition_path src tgt)
    with (String.append "" (String "/" (String.append "transition"
            (String "/" (String.append src (String "/" tgt)))))).
  rewrite split_on_go_piece by apply not_elem_of_nil.
  rewrite split_on_go_piece.
  2:{ vm_compute. intros Hin. repeat (apply elem_of_cons in Hin as [Hin|Hin]; [discriminate Hin|]).
      apply elem_of_nil in Hin. exact Hin. }
  rewrite (split_on_go_piece _ _ _ _ Hs), (split_on_go_last _ _ _ Ht). reflexivity.
Qed.

Lemma route_transition_path src tgt :
  "/"%char ∉ Str.chars src -> "/"%char ∉ Str.chars tgt ->
  route (transition_path src tgt) = Ok (Transition src tgt).
Proof.
  intros Hs Ht. unfold route. rewrite (split_transition_path _ _ Hs Ht).
  unfold Str.startswith, transition_path at 3. rewrite prefix_of_append. reflexivity.
Qed.

Lemma route_transition_inv path src tgt :
  route path = Ok (Transition src tgt) ->
  path = transition_path src tgt /\ ("/"%char ∉ Str.chars src) /\ "/"%char ∉ Str.chars tgt.
Proof.
  unfold route. intros Hr.
  destruct (String.eqb path "/"); [discriminate Hr|].
  destruct (String.eqb path "/content-only"); [discriminate Hr|].
  destruct (Str.startswith path "/transition/") eqn:Hp.
  2:{ cbn [andb] in Hr. destruct (String.eqb path "/htmx.js"); discriminate Hr. }
  destruct (length (Str.split_on "/" path) =? 4)%nat eqn:Hl.
  2:{ cbn [andb] in Hr. destruct (String.eqb path "/htmx.js"); discriminate Hr. }
  cbn [andb] in Hr.
  destruct (Str.split_on "/" path) as [|p0 [|p1 [|p2 [|p3 [|p4 l]]]]] eqn:Hsp;
    try discriminate Hl.
  injection Hr as -> ->. clear Hl.
  unfold Str.split_on in Hsp.
  destruct (split_on_go_inv "/" path "") as (a0 & Ha0 & [[_ E]|(r0 & Hpath & E)]);
    rewrite E in Hsp; [discriminate Hsp|].
  injection Hsp as _ Hsp.
  destruct (split_on_go_inv "/" r0 "") as (a1 & Ha1 & [[_ E1]|(r1 & Hr0 & E1)]);
    rewrite E1 in Hsp; [discriminate Hsp|].
  injection Hsp as _ Hsp.
  destruct (split_on_go_inv "/" r1 "") as (a2 & Ha2 & [[_ E2]|(r2 & Hr1 & E2)]);
    rewrite E2 in Hsp; [discriminate Hsp|].
  injection Hsp as Hsrc Hsp.
  destruct (split_on_go_inv "/" r2 "") as (a3 & Ha3 & [[Hr2 E3]|(r3 & _ & E3)]);
    rewrite E3 in Hsp.
  2:{ destruct (split_on_go_inv "/" r3 "") as (a4 & _ & [[_ E4]|(r4 & _ & E4)]);
        rewrite E4 in Hsp; discriminate Hsp. }
  injection Hsp as Htgt.
  change (String.append (String.rev "") a2) with a2 in Hsrc.
  change (String.append (String.rev "") a3) with a3 in Htgt.
  subst a2 a3 r2 r1 r0.
  destruct (prefix_append _ _ Hp) as [x Hx].
  assert (Hcut : a0 = "" /\ String.append a1 (String "/" (String.append src (String "/" tgt)))
                            = String.append "transition/" x).
  { apply (first_cut_unique "/"); [exact Ha0|apply not_elem_of_nil|].
    rewrite <- Hpath. exact Hx. }
  destruct Hcut as [-> Hcut].
  assert (Hcut' : a1 = "transition" /\ String.append src (String "/" tgt) = x).
  { apply (first_cut_unique "/"); [exact Ha1| |exact Hcut].
    vm_compute. intros Hin.
    repeat (apply elem_of_cons in Hin as [Hin|Hin]; [discriminate Hin|]).
    apply elem_of_nil in Hin. exact Hin. }
  destruct Hcut' as [-> <-].
  split; [exact Hpath|]. split; assumption.
Qed.

(** X24. A request takes the transition branch with the names
    [src] and [tgt] exactly when its path is '/transition/', [src], '/' and
    [tgt], and neither name has a '/'. *)
Theorem route_transition_iff (path src tgt : string) :
  route path = Ok (Transition src tgt) <->
  path = transition_path src tgt /\ ("/"%char ∉ Str.chars src) /\ "/"%char ∉ Str.chars tgt.
Proof.
  split; [apply route_transition_inv|].
  intros (-> & Hs & Ht). apply route_transition_path; assumption.
Qed.

Lemma route_total path : exists b, route path = Ok b.
Proof.
  unfold route.
  destruct (String.eqb path "/"); [eexists; reflexivity|].
  destruct (String.eqb path "/content-only"); [eexists; reflexivity|].
  destruct (Str.startswith path "/transition/"); cbn [andb].
  2:{ destruct (String.eqb path "/htmx.js"); eexists; reflexivity. }
  destruct (length (Str.split_on "/" path) =? 4)%nat eqn:Hl.
  2:{ destruct (String.eqb path "/htmx.js"); eexists; reflexivity. }
  destruct (Str.split_on "/" path) as [|p0 [|p1 [|p2 [|p3 [|p4 l]]]]];
    try discriminate Hl. eexists; reflexivity.
Qed.

Section Requests.
Context `{PyBuiltins}.

(** X25. A request either has a path of
    the transition form and changes the machine as that call of
    [transition] does, or it returns with the machine as it was. *)
Theorem request_changes_machine_only_by_transition
    (depth : nat) (path : string) (w : IceMeltState.t) :
  (exists src tgt, path = transition_path src tgt /\
     ("/"%char ∉ Str.chars src) /\ ("/"%char ∉ Str.chars tgt) /\
     store (do_GET depth path w)
     = store (IceMeltState.transition depth (Some src) tgt w))
  \/ ((forall src tgt : string, path = transition_path src tgt ->
         "/"%char ∈ Str.chars src \/ "/"%char ∈ Str.chars tgt)
      /\ exists b, do_GET depth path w = Ret b w).
Proof.
  destruct (route_total path) as [b Hb]. unfold do_GET.
  destruct b as [| |src tgt| |].
  3:{ left. exists src, tgt. destruct (route_transition_inv _ _ _ Hb) as (Hp & Hs & Ht).
      repeat split; try assumption. unfold bind at 1. rewrite Hb. cbn [lift].
      unfold bind, ret. destruct (IceMeltState.transition depth (Some src) tgt w); reflexivity. }
  all: right; split;
    [ intros src tgt ->;
      destruct (decide ("/"%char ∈ Str.chars src)) as [Hs|Hs]; [left; exact Hs|];
      destruct (decide ("/"%char ∈ Str.chars tgt)) as [Ht|Ht]; [right; exact Ht|];
      rewrite (route_transition_path _ _ Hs Ht) in Hb; discriminate Hb
    | eexists; unfold bind; rewrite Hb; reflexivity ].
Qed.

End Requests.

(** ** Escaped identifiers *)

Lemma of_nat_inj n m : Str.of_nat n = Str.of_nat m -> n = m.
Proof.
  unfold Str.of_nat. intros E.
  assert (E' : Nat.to_uint n = Nat.to_uint m).
  { apply (f_equal NilEmpty.uint_of_string) in E. rewrite !NilEmpty.usu in E.
    injection E as E. exact E. }
  apply (f_equal Nat.of_uint) in E'. rewrite !Unsigned.of_to in E'. exact E'.
Qed.

(** The characters of a decimal numeral are digits. *)
Lemma string_of_uint_digits d c :
  c ∈ Str.chars (NilEmpty.string_of_uint d) -> c ∈ Str.chars "0123456789".
Proof.
  induction d as [|d IH|d IH|d IH|d IH|d IH|d IH|d IH|d IH|d IH|d IH];
    cbn [NilEmpty.string_of_uint]; intros Hin.
  1: apply elem_of_nil in Hin; contradiction.
  all: rewrite chars_cons in Hin; apply elem_of_cons in Hin as [->|Hin];
    [ vm_compute; repeat constructor
    | apply IH, Hin ].
Qed.

Lemma digit_is_safe c : c ∈ Str.chars "0123456789" -> is_safe_id_char c = true.
Proof.
  intros Hin. vm_compute in Hin.
  repeat (apply elem_of_cons in Hin as [->|Hin]; [reflexivity|]).
  apply elem_of_nil in Hin. contradiction.
Qed.

Lemma dash_not_in_of_nat n : "-"%char ∉ Str.chars (Str.of_nat n).
Proof.
  intros Hin. apply string_of_uint_digits, digit_is_safe in Hin. discriminate Hin.
Qed.

Lemma join_escape_inj l1 : forall l2,
  Str.join (map escape_char l1) = Str.join (map escape_char l2) -> l1 = l2.
Proof.
  induction l1 as [|c1 l1 IH]; intros [|c2 l2] E.
  - reflexivity.
  - cbn [map Str.join] in E. unfold escape_char in E.
    destruct (is_safe_id_char c2); discriminate E.
  - cbn [map Str.join] in E. unfold escape_char in E.
    destruct (is_safe_id_char c1); discriminate E.
  - cbn [map Str.join] in E. unfold escape_char in E.
    destruct (is_safe_id_char c1) eqn:S1, (is_safe_id_char c2) eqn:S2.
    + injection E as -> E. f_equal. apply IH, E.
    + injection E as -> _. discriminate S1.
    + injection E as <- _. discriminate S2.
    + injection E as E. rewrite !append_assoc in E.
      apply first_cut_unique in E as [En E]; [|apply dash_not_in_of_nat..].
      apply of_nat_inj in En.
      apply (f_equal ascii_of_nat) in En. rewrite !ascii_nat_embedding in En. subst c2.
      f_equal. apply IH, E.
Qed.

Lemma join_escape_alphabet l c :
  c ∈ Str.chars (Str.join (map escape_char l)) ->
  is_safe_id_char c = true \/ c = "-"%char.
Proof.
  induction l as [|x l IH]; cbn [map Str.join]; intros Hin.
  - apply elem_of_nil in Hin. contradiction.
  - rewrite chars_append in Hin. apply elem_of_app in Hin as [Hin|Hin]; [|apply IH, Hin].
    unfold escape_char in Hin. destruct (is_safe_id_char x) eqn:Sx.
    + rewrite chars_cons in Hin. apply elem_of_cons in Hin as [->|Hin]; [left; exact Sx|].
      apply elem_of_nil in Hin. contradiction.
    + rewrite chars_append in Hin. apply elem_of_app in Hin as [Hin|Hin].
      { apply list_elem_of_singleton in Hin. right. exact Hin. }
      rewrite chars_append in Hin. apply elem_of_app in Hin as [Hin|Hin].
      { left. apply digit_is_safe, (string_of_uint_digits _ _ Hin). }
      apply list_elem_of_singleton in Hin. right. exact Hin.
Qed.

(** X26. [escape_id] gives different strings
    different identifiers, and an identifier is an 'a' followed by safe
    characters and '-' only. *)
Theorem escape_id_is_injective_and_safe (s1 s2 : string) :
  (escape_id s1 = escape_id s2 -> s1 = s2) /\
  (exists rest, escape_id s1 = String "a" rest /\
     forall c, c ∈ Str.chars rest -> is_safe_id_char c = true \/ c = "-"%char).
Proof.
  split.
  - unfold escape_id. intros E. injection E as E.
    apply chars_inj. fold (Str.chars s1) (Str.chars s2). apply join_escape_inj, E.
  - exists (Str.join (map escape_char (Str.chars s1))). split; [reflexivity|].
    intros c. apply join_escape_alphabet.
Qed.

(** ** The scales in binary64 *)

Section Binary64Facts.

Import Binary64.

(** The comparison of two ints is that of the integers. *)
Lemma compare_Int a b : compare (Int a) (Int b) = Some (a ?= b).
Proof.
  unfold compare, value, Qcompare. cbn [Qnum Qden inject_Z].
  rewrite !Z.mul_1_r. reflexivity.
Qed.

Lemma ltb_Int a b : ltb (Int a) (Int b) = (a <? b).
Proof. unfold ltb. rewrite compare_Int. unfold Z.ltb. destruct (a ?= b); reflexivity. Qed.

Lemma leb_Int a b : leb (Int a) (Int b) = (a <=? b).
Proof. unfold leb. rewrite compare_Int. unfold Z.leb. destruct (a ?= b); reflexivity. Qed.

Lemma compare_Lt_Gt x y : compare x y = Some Lt -> compare y x = Some Gt.
Proof.
  unfold compare. destruct (value x) as [|p| |], (value y) as [|q| |];
    try discriminate; try reflexivity.
  intros E. injection E as E. rewrite <- Qcompare_antisym, E. reflexivity.
Qed.

(** [x < y] excludes [y <= x], and gives [x <= y]. *)
Lemma ltb_not_leb x y : ltb x y = true -> leb y x = false.
Proof.
  unfold ltb, leb. destruct (compare x y) as [[]|] eqn:E; try discriminate.
  rewrite (compare_Lt_Gt _ _ E). reflexivity.
Qed.

Lemma ltb_leb x y : ltb x y = true -> leb x y = true.
Proof. unfold ltb, leb. destruct (compare x y) as [[]|]; congruence. Qed.

Lemma ltb_asym x y : ltb x y = true -> ltb y x = false.
Proof.
  unfold ltb. destruct (compare x y) as [[]|] eqn:E; try discriminate.
  rewrite (compare_Lt_Gt _ _ E). reflexivity.
Qed.

(** [x < y] and [y <= z] give [x < z]. *)
Lemma ltb_leb_trans x y z : ltb x y = true -> leb y z = true -> ltb x z = true.
Proof.
  unfold ltb, leb, compare.
  destruct (value x) as [|p| |], (value y) as [|q| |], (value z) as [|r| |];
    try discriminate; try reflexivity.
  destruct (p ?= q)%Q eqn:E1; try discriminate. intros _.
  destruct (q ?= r)%Q eqn:E2; try discriminate; intros _.
  - apply Qeq_alt in E2. apply Qlt_alt in E1.
    assert (L : (p ?= r)%Q = Lt) by (apply Qlt_alt; rewrite <- E2; exact E1).
    rewrite L. reflexivity.
  - apply Qlt_alt in E1, E2.
    assert (L : (p ?= r)%Q = Lt) by (apply Qlt_alt; exact (Qlt_trans _ _ _ E1 E2)).
    rewrite L. reflexivity.
Qed.

(** [x <= y] and [y < z] give [x < z]. *)
Lemma leb_ltb_trans x y z : leb x y = true -> ltb y z = true -> ltb x z = true.
Proof.
  unfold ltb, leb, compare.
  destruct (value x) as [|p| |], (value y) as [|q| |], (value z) as [|r| |];
    try discriminate; try reflexivity.
  destruct (p ?= q)%Q eqn:E1; try discriminate; intros _;
    (destruct (q ?= r)%Q eqn:E2; try discriminate; intros _).
  - apply Qeq_alt in E1. apply Qlt_alt in E2.
    assert (L : (p ?= r)%Q = Lt) by (apply Qlt_alt; rewrite E1; exact E2).
    rewrite L. reflexivity.
  - apply Qlt_alt in E1, E2.
    assert (L : (p ?= r)%Q = Lt) by (apply Qlt_alt; exact (Qlt_trans _ _ _ E1 E2)).
    rewrite L. reflexivity.
Qed.

(** [min(hi, max(lo, x))] brings [x] into [lo, hi] when [lo <= hi]. *)
Lemma clamp_within (lo hi : Z) (x : float) :
  lo <= hi -> clamped lo hi x (py_min (Int hi) (py_max (Int lo) (Float x))).
Proof.
  intros Hle. unfold clamped, within, py_min, py_max.
  assert (Hlh : leb (Int lo) (Int hi) = true) by (rewrite leb_Int; lia).
  assert (Hll : forall n, leb (Int n) (Int n) = true) by (intros n; rewrite leb_Int; lia).
  destruct (ltb (Int lo) (Float x)) eqn:A.
  - destruct (ltb (Float x) (Int hi)) eqn:B.
    + repeat split; auto using ltb_leb.
      * intros C. rewrite (ltb_not_leb _ _ A) in C. discriminate.
      * intros C. rewrite (ltb_not_leb _ _ B) in C. discriminate.
    + repeat split; auto.
      * intros C. rewrite (ltb_not_leb _ _ A) in C. discriminate.
      * intros _ C. discriminate.
  - rewrite ltb_Int. destruct (Z.ltb_spec lo hi) as [Hlt|Hge].
    + repeat split; auto.
      * intros C. discriminate.
      * intros C. assert (L : ltb (Int lo) (Int hi) = true) by (rewrite ltb_Int; lia).
        rewrite (ltb_leb_trans _ _ _ L C) in A. discriminate.
    + assert (hi = lo) by lia. subst hi. repeat split; auto. intros C. discriminate.
Qed.

(** The errors of [__lerp__]. *)
Lemma finite_err f e : finite f = Err e -> e = OverflowError.
Proof. destruct f; simpl; congruence. Qed.

Lemma of_int_err n e : of_int n = Err e -> e = OverflowError.
Proof. apply finite_err. Qed.

Lemma truediv_err a b e :
  truediv a b = Err e -> b = 0 /\ e = ZeroDivisionError \/ b <> 0 /\ e = OverflowError.
Proof.
  unfold truediv. destruct (Z.eqb_spec b 0) as [->|Hne].
  - intros E. injection E as <-. left. auto.
  - intros E. right. split; [exact Hne|]. exact (finite_err _ _ E).
Qed.

Lemma mul_int_err x n e : mul_int x n = Err e -> e = OverflowError.
Proof. unfold mul_int. destruct (of_int n) eqn:E; simpl; [discriminate|]. intros E'. injection E' as <-. exact (of_int_err _ _ E). Qed.

Lemma add_int_err x n e : add_int x n = Err e -> e = OverflowError.
Proof. unfold add_int. destruct (of_int n) eqn:E; simpl; [discriminate|]. intros E'. injection E' as <-. exact (of_int_err _ _ E). Qed.

Lemma sensor_lerp_err c raw hi e :
  SensorConfig.raw_hi c = Some hi -> hi <> SensorConfig.raw_lo c ->
  Binary64.SensorConfig.__lerp__ c raw = Err e -> e = OverflowError.
Proof.
  intros Hhi Hne. unfold Binary64.SensorConfig.__lerp__. rewrite Hhi.
  destruct (truediv _ _) as [q|e1] eqn:E1; cbn [rbind].
  - destruct (mul_int _ _) as [p|e2] eqn:E2; cbn [rbind].
    + apply add_int_err.
    + intros E. injection E as <-. exact (mul_int_err _ _ _ E2).
  - intros E. injection E as <-.
    destruct (truediv_err _ _ _ E1) as [[Hz _]|[_ He]]; [lia|exact He].
Qed.



(** C8, amended.  On a scale whose raw range has a width other than zero
    and whose display range is not inverted (shoLo <= shoHi), [lerp]
    computes (raw - rawLo) / (rawHi - rawLo) * (shoHi - shoLo) + shoLo in
    binary64, each operation rounded, and returns the result brought into
    [shoLo, shoHi]: the bound itself, an int, when the computed float is at
    or beyond it, and the float otherwise.  It raises OverflowError, and
    nothing else, when the quotient or an int operand has no finite float.
    For raw [0,1023] shown as [0,100]: raw 0 gives 0, raw 1023 gives 100 and
    raw -100 gives 0. *)
Theorem lerp_rounds_and_clamps (c : SensorConfig.t) (raw hi : Z) :
  SensorConfig.raw_hi c = Some hi ->
  hi <> SensorConfig.raw_lo c ->
  SensorConfig.sho_lo c <= SensorConfig.sho_hi c ->
  Binary64.SensorConfig.__lerp__ c raw
    = Binary64.interpolate raw (SensorConfig.raw_lo c) hi
        (SensorConfig.sho_lo c) (SensorConfig.sho_hi c) /\
  match Binary64.SensorConfig.__lerp__ c raw with
  | Ok x =>
      exists v, Binary64.SensorConfig.lerp c raw = Ok v /\
        Binary64.clamped (SensorConfig.sho_lo c) (SensorConfig.sho_hi c) x v
  | Err e =>
      e = OverflowError /\ Binary64.SensorConfig.lerp c raw = Err OverflowError
  end /\
  (SensorConfig.raw_lo c = 0 -> hi = 1023 ->
   SensorConfig.sho_lo c = 0 -> SensorConfig.sho_hi c = 100 ->
   Binary64.SensorConfig.lerp c 0 = Ok (Binary64.Int 0) /\
   Binary64.SensorConfig.lerp c 1023 = Ok (Binary64.Int 100) /\
   Binary64.SensorConfig.lerp c (-100) = Ok (Binary64.Int 0)).
Proof.
  intros Hhi Hne Hle. split; [|split].
  - unfold Binary64.SensorConfig.__lerp__. rewrite Hhi. reflexivity.
  - unfold Binary64.SensorConfig.lerp.
    destruct (Binary64.SensorConfig.__lerp__ c raw) as [x|e] eqn:E; cbn [rbind].
    + eexists. split; [reflexivity|]. apply clamp_within, Hle.
    + rewrite (sensor_lerp_err c raw hi e Hhi Hne E). auto.
  - intros Hlo -> Hsl Hsh.
    unfold Binary64.SensorConfig.lerp, Binary64.SensorConfig.__lerp__.
    rewrite Hhi, Hlo, Hsl, Hsh. repeat split; vm_compute; reflexivity.
Qed.


Section Rendering.
Context `{PyFormat}.

(** X21. On a display range that is not inverted, the rendering of a raw
    value carries a mark exactly when [lerp] clamps it: '<' and the
    formatted display low when the computed display value is under it, '>'
    and the formatted display high when it is over it, and the formatted
    display value without a mark otherwise.  The display value is formatted
    first in every case, and an error of the computation is the error of
    the rendering. *)
Theorem html_marks_what_lerp_clamps (c : SensorConfig.t) (raw : Z) :
  SensorConfig.sho_lo c <= SensorConfig.sho_hi c ->
  let fmt := Binary64.py_format (SensorConfig.format c) in
  let lo := SensorConfig.sho_lo c in
  let hi := SensorConfig.sho_hi c in
  match Binary64.SensorConfig.__lerp__ c raw with
  | Err e => Binary64.SensorConfig.html c raw = Err e
  | Ok x =>
      (Binary64.ltb (Binary64.Float x) (Binary64.Int lo) = true ->
       Binary64.SensorConfig.lerp c raw = Ok (Binary64.Int lo) /\
       Binary64.SensorConfig.html c raw
         = (let? _ := fmt (Binary64.Float x) in
            let? f := fmt (Binary64.Int lo) in Ok (String.append "<" f))) /\
      (Binary64.ltb (Binary64.Int hi) (Binary64.Float x) = true ->
       Binary64.SensorConfig.lerp c raw = Ok (Binary64.Int hi) /\
       Binary64.SensorConfig.html c raw
         = (let? _ := fmt (Binary64.Float x) in
            let? f := fmt (Binary64.Int hi) in Ok (String.append ">" f))) /\
      (Binary64.ltb (Binary64.Float x) (Binary64.Int lo) = false ->
       Binary64.ltb (Binary64.Int hi) (Binary64.Float x) = false ->
       Binary64.SensorConfig.html c raw = fmt (Binary64.Float x))
  end.
Proof.
  intros Hle fmt lo hi.
  unfold Binary64.SensorConfig.html, Binary64.SensorConfig.lerp.
  destruct (Binary64.SensorConfig.__lerp__ c raw) as [x|e]; cbn [rbind]; [|reflexivity].
  pose proof (clamp_within lo hi x Hle) as (_ & Hlow & _ & Hhigh).
  fold lo hi. fold fmt.
  assert (Hlh : leb (Int lo) (Int hi) = true) by (rewrite leb_Int; unfold lo, hi; lia).
  split; [|split].
  - intros A. split; [rewrite (Hlow (ltb_leb _ _ A)); reflexivity|].
    assert (B : ltb (Int hi) (Float x) = false).
    { apply ltb_asym. exact (ltb_leb_trans _ _ _ A Hlh). }
    rewrite A, B. destruct (fmt (Float x)); cbn [rbind]; [|reflexivity].
    destruct (fmt (Int lo)); reflexivity.
  - intros B. split; [rewrite (Hhigh (ltb_leb _ _ B)); reflexivity|].
    assert (A : ltb (Float x) (Int lo) = false).
    { apply ltb_asym. exact (leb_ltb_trans _ _ _ Hlh B). }
    rewrite A, B. destruct (fmt (Float x)); cbn [rbind]; [|reflexivity].
    destruct (fmt (Int hi)); reflexivity.
  - intros A B. rewrite A, B. destruct (fmt (Float x)); reflexivity.
Qed.

End Rendering.

End Binary64Facts.

(** ** The loop over the triggers and the chain of cascades *)

Section Loop.
Context `{PyBuiltins}.
Import IceMeltState Frame.





(** Where a chain of cascades ends. *)
Lemma transition_follows depth (next : string -> option string) :
  forall (w : t) (prev : option string) (tgt : string),
  __current_state__ w = prev ->
  (forall nm scfg, __states__ w !! nm = Some scfg ->
     Spec.settings_ok w scfg /\
     cascade (__sensors__ w) (StateConfig.triggers scfg) = Ok (next nm)) ->
  match Chain.follow (__states__ w) next depth prev tgt with
  | Some r => exists w', transition depth prev tgt w = Ret tt w' /\
                         __current_state__ w' = r
  | None => exists w', transition depth prev tgt w = Raise RecursionError w'
  end.
Proof.
  induction depth as [|d IH]; intros w prev tgt Hcur Hok.
  { simpl. eexists. reflexivity. }
  cbn [Chain.follow]. destruct (__states__ w !! tgt) as [scfg|] eqn:Hst.
  2:{ exists w. split; [|exact Hcur]. apply transition_guard. right. exact Hst. }
  destruct (Hok _ _ Hst) as ((l & Hl & Hall) & Hnext).
  destruct (transition_body_ok prev tgt w scfg l Hcur Hst Hl Hall)
    as (w1 & E1 & Hcur1 & Hsens1 & Hst1 & Hctl1 & _).
  rewrite Hnext in E1. cbn [lift] in E1.
  assert (Estep : transition (S d) prev tgt w
                  = match next tgt with
                    | Some t => transition d (Some tgt) t w1
                    | None => Ret tt w1
                    end).
  { cbn [transition]. unfold bind at 1. rewrite E1. destruct (next tgt); reflexivity. }
  rewrite Estep. destruct (next tgt) as [t|].
  - specialize (IH w1 (Some tgt) t Hcur1). rewrite Hst1 in IH. apply IH.
    intros nm sc Hnm. destruct (Hok nm sc Hnm) as [Hs Hc].
    split; [exact (settings_ok_frame w w1 sc Hctl1 Hs)|]. rewrite Hsens1. exact Hc.
  - exists w1. auto.
Qed.

(** X6. When the settings of every state can be applied and the loop over
    the triggers of each state [s] returns [next s], [transition] ends
    where the chain of these targets ends, as [Chain.follow] computes it:
    in the last state of the chain, in the state the machine was in when
    the target is no state, and with RecursionError when the chain is
    longer than the depth. *)
Theorem transition_follows_trigger_chain (depth : nat) (w : t) (prev : option string)
    (tgt : string) (next : string -> option string) :
  __current_state__ w = prev ->
  (forall nm scfg, __states__ w !! nm = Some scfg ->
     Spec.settings_ok w scfg /\
     cascade (__sensors__ w) (StateConfig.triggers scfg) = Ok (next nm)) ->
  match Chain.follow (__states__ w) next depth prev tgt with
  | Some r => exists w', transition depth prev tgt w = Ret tt w' /\
                         __current_state__ w' = r
  | None => exists w', transition depth prev tgt w = Raise RecursionError w'
  end.
Proof. apply transition_follows. Qed.

End Loop.

(** ** The settings of the entered state *)

Section Applied.
Context `{PyBuiltins}.
Import IceMeltState Frame.

(** What one setting stores. *)
Lemma set_value_applied nm val w cs q :
  __controls__ w !! nm = Some cs ->
  ControlConfig.lerp (ControlState.__cfg__ cs) val = Ok q ->
  exists w', set_value nm val w = Ret tt w' /\
    clock w' = S (clock w) /\
    __controls__ w' = Spec.applied [(nm, val)] (clock w) (__controls__ w).
Proof.
  intros Hcs Hq. unfold set_value, bind, gets. rewrite Hcs.
  unfold now, bind, gets, modify, print. simpl. rewrite Hq. simpl.
  eexists. split; [reflexivity|]. simpl. rewrite Hcs. auto.
Qed.

Lemma for_each_applied l : forall w,
  Forall (fun p => exists cs q, __controls__ w !! fst p = Some cs /\
            ControlConfig.lerp (ControlState.__cfg__ cs) (snd p) = Ok q) l ->
  __controls__ (store (for_each l (fun '(nm, val) => set_value nm val) w))
    = Spec.applied l (clock w) (__controls__ w).
Proof.
  induction l as [|[nm val] l IH]; intros w Hall; [reflexivity|].
  inversion Hall as [|? ? (cs & q & Hcs & Hq) Hrest]; subst. simpl in Hcs, Hq.
  destruct (set_value_ok nm val w cs q Hcs Hq) as (w1 & E1 & F1 & _).
  destruct (set_value_applied nm val w cs q Hcs Hq) as (w1' & E1' & Hclock & Hctl).
  rewrite E1 in E1'. injection E1' as <-.
  cbn [for_each]. unfold bind. rewrite E1. rewrite IH.
  - rewrite Hclock, Hctl. cbn [Spec.applied]. rewrite Hcs. reflexivity.
  - eapply Forall_impl; [exact Hrest|]. intros p (cs' & q' & Hc' & Hq').
    pose proof (Frame.f_controls _ _ F1 (fst p)) as E. rewrite Hc' in E.
    destruct (__controls__ w1 !! p.1) as [c1|]; simpl in E; [|discriminate].
    injection E as E. exists c1, q'. rewrite E. auto.
Qed.

(** The controls after the body of a transition whose guard holds. *)
Lemma transition_body_applied src tgt w scfg l :
  __current_state__ w = src ->
  __states__ w !! tgt = Some scfg ->
  StateConfig.control_settings scfg = Ok l ->
  Forall (fun p => exists cs q, __controls__ w !! fst p = Some cs /\
            ControlConfig.lerp (ControlState.__cfg__ cs) (snd p) = Ok q) l ->
  __controls__ (store (transition_body src tgt w))
    = Spec.applied l (clock w) (__controls__ w).
Proof.
  intros Hsrc Hst Hl Hall. rewrite transition_body_eq.
  destruct (decide (__current_state__ w = src)); [|contradiction].
  rewrite Hst. unfold enter. rewrite store_bind. unfold modify at 1. cbv beta iota.
  rewrite store_bind, Hl. unfold lift at 1, ret at 1. cbv beta iota. rewrite store_bind.
  pose proof (for_each_applied l (set_current_state (Some tgt) w) Hall) as V.
  destruct (for_each_settings_ok l (set_current_state (Some tgt) w) Hall) as (w1 & E1 & _).
  rewrite E1 in V |- *. simpl in V.
  rewrite (keeps_rearm_and_cascade __controls__ scfg) by reflexivity.
  exact V.
Qed.

(** C7.  In a machine whose current state is idle, where idle declares
    the one trigger 'sensor temp above 32' to melting, melting declares no
    trigger and the sensor temp maps raw [0,100] to display [0,100], the
    reading 40 of temp moves the machine to melting with exactly one call of
    [transition] (a depth of one call is enough, and any greater depth gives
    the same store).  The reading is stored under temp and no other sensor
    changes.  The settings of melting are applied once each, in declaration
    order: every control that a setting names takes the value of the
    setting and the time at which it was applied, no other control
    changes, and the control hook receives these settings, once each and
    in the same order, and nothing else.  The display value of the reading
    is 40 in binary64 as well, and 'above 32' holds on it. *)
Theorem reading_40_enters_melting (depth : nat) (w : t)
    (idle melting : StateConfig.t) (ss : SensorState.t) (l : list (string * Z)) :
  __current_state__ w = Some "idle" ->
  __states__ w !! "idle" = Some idle ->
  __states__ w !! "melting" = Some melting ->
  StateConfig.triggers idle = [(Spec.above "temp" 32, "melting")] ->
  StateConfig.triggers melting = [] ->
  __sensors__ w !! "temp" = Some ss ->
  SensorConfig.raw_lo (SensorState.__cfg__ ss) = 0 ->
  SensorConfig.raw_hi (SensorState.__cfg__ ss) = Some 100 ->
  SensorConfig.sho_lo (SensorState.__cfg__ ss) = 0 ->
  SensorConfig.sho_hi (SensorState.__cfg__ ss) = 100 ->
  StateConfig.control_settings melting = Ok l ->
  Forall (fun p => exists cs q, __controls__ w !! fst p = Some cs /\
            ControlConfig.lerp (ControlState.__cfg__ cs) (snd p) = Ok q) l ->
  exists w',
    set_sensor (S depth) "temp" 40 w = Ret tt w' /\
    set_sensor 1 "temp" 40 w = Ret tt w' /\
    __current_state__ w' = Some "melting" /\
    __sensors__ w' = <["temp" := SensorState.set_raw ss 40 (clock w)]> (__sensors__ w) /\
    __controls__ w' = Spec.applied l (S (clock w)) (__controls__ w) /\
    stdout w' = stdout w ++ flat_map (Spec.output_of w) l /\
    Binary64.SensorState.val_float (SensorState.set_raw ss 40 (clock w))
      = Ok (Binary64.Float (Binary64.whole 40)) /\
    Binary64.SensorTrigger.triggers
      {| Binary64.SensorTrigger.sensor := "temp";
         Binary64.SensorTrigger.direction := 1;
         Binary64.SensorTrigger.threshold := Binary64.whole 32 |}
      (Binary64.Float (Binary64.whole 40)) = Ok true.
Proof.
  intros Hcur Hidle Hmelt Hti Htm Hss Hrl Hrh Hsl Hsh Hl Hall.
  set (w1 := set_sensors (<["temp" := SensorState.set_raw ss 40 (clock w)]> (__sensors__ w))
               (set_clock (S (clock w)) w)).
  destruct (transition_body_ok (Some "idle") "melting" w1 melting l)
    as (w' & E & Hcur' & Hsens' & _ & _ & Hout & _); try assumption.
  pose proof (transition_body_applied (Some "idle") "melting" w1 melting l
                Hcur Hmelt Hl Hall) as Happ.
  rewrite E, Htm in Happ. cbn [cascade lift store] in Happ.
  assert (Hpre : forall d, set_sensor (S d) "temp" 40 w
                           = transition (S d) (Some "idle") "melting" w1).
  { intros d. unfold set_sensor, current_state, now, bind, gets, modify, ret.
    rewrite Hss. simpl. rewrite Hcur, Hidle. simpl.
    unfold SensorState.val_float, SensorConfig.lerp, SensorConfig.__lerp__. simpl.
    rewrite Hrh, Hrl, Hsl, Hsh. simpl.
    unfold StateConfig.trigger. unfold StateConfig.triggers in Hti. rewrite Hti.
    reflexivity. }
  assert (Hrun : forall d, transition (S d) (Some "idle") "melting" w1 = Ret tt w').
  { intros d. simpl. unfold bind. rewrite E, Htm. reflexivity. }
  exists w'. rewrite !Hpre, !Hrun.
  split; [reflexivity|]. split; [reflexivity|]. split; [exact Hcur'|].
  split; [exact Hsens'|]. split; [exact Happ|]. split; [exact Hout|].
  split; [|vm_compute; reflexivity].
  unfold Binary64.SensorState.val_float, Binary64.SensorConfig.lerp,
    Binary64.SensorConfig.__lerp__. cbn [SensorState.set_raw SensorState.__as_of__
    SensorState.__cfg__ SensorState.__val__]. rewrite Hrh, Hrl, Hsl, Hsh.
  vm_compute. reflexivity.
Qed.

End Applied.

(** * The scenarios, run *)

Import IceMeltState.


Lemma stale_or_unknown_transition_is_noop_witness :
  let w := Scenario.boot Scenario.idle_melting in
  __current_state__ w <> Some "melting" /\
  (transition (H := Decimal.builtins) 1 (Some "melting") "idle" w = Ret tt w /\
   transition_body (H := Decimal.builtins) (Some "melting") "idle" w = Ret None w /\
   forall d, store (transition (H := Decimal.builtins) d (Some "melting") "idle" w) = w).
Proof.
  intros w.
  assert (Hstale : __current_state__ w <> Some "melting") by (vm_compute; discriminate).
  split; [exact Hstale|].
  apply (stale_or_unknown_transition_is_noop (H := Decimal.builtins) 0
           (Some "melting") "idle" w).
  left. exact Hstale.
Defined.




Lemma current_state_stays_valid_witness :
  let w := Scenario.boot Scenario.idle_melting in
  Spec.current_valid w /\
  forall depth' evs, Spec.current_valid (Sched.run (H := Decimal.builtins) depth' evs w).
Proof.
  intros w.
  apply (current_state_stays_valid (H := Decimal.builtins) 10 Scenario.idle_melting
           blank w "idle").
  - vm_compute. reflexivity.
  - vm_compute. reflexivity.
  - vm_compute. eexists. reflexivity.
Defined.

Lemma unknown_initial_state_stays_unset :
  init (H := Decimal.builtins) 10 Scenario.unknown_initial blank
    = Ret tt (Scenario.boot Scenario.unknown_initial) /\
  __current_state__ (Scenario.boot Scenario.unknown_initial) = None /\
  ~ Spec.valid_after_construction.
Proof.
  assert (E : init (H := Decimal.builtins) 10 Scenario.unknown_initial blank
              = Ret tt (Scenario.boot Scenario.unknown_initial))
    by (vm_compute; reflexivity).
  assert (N : __current_state__ (Scenario.boot Scenario.unknown_initial) = None)
    by (vm_compute; reflexivity).
  split; [exact E|]. split; [exact N|].
  intros Hc. destruct (Hc Decimal.builtins 10%nat _ _ E) as (nm & Hnm & _).
  rewrite N in Hnm. discriminate.
Qed.



Lemma one_timer_and_guarded_fire_witness :
  let w := Scenario.boot Scenario.timed_xyz in
  Spec.timers_ok w /\
  forall evs, (Spec.armed_count (Sched.run (H := Decimal.builtins) 10 evs w) <= 1)%nat.
Proof.
  intros w.
  assert (Hok : Spec.timers_ok w).
  { intros i tm. destruct i as [|i]; vm_compute; [reflexivity|].
    destruct i; discriminate. }
  split; [exact Hok|].
  intros evs.
  destruct (one_timer_and_guarded_fire (H := Decimal.builtins) 10 w Hok) as (Hrun & _).
  apply Hrun.
Defined.

(** The timer of X wakes up just before the machine leaves X for Z; the
    machine comes back to X; only then does the timer thread obtain the
    lock. *)
Lemma late_fire_after_return_takes_effect :
  let w0 := Scenario.boot Scenario.timed_xyz in
  let w1 := Sched.run (H := Decimal.builtins) 10
              [Sched.Wake 0; Sched.Request "X" "Z"] w0 in
  let w2 := Sched.run (H := Decimal.builtins) 10 [Sched.Request "Z" "X"] w1 in
  __current_state__ w0 = Some "X" /\
  __current_state__ w1 = Some "Z" /\
  (Timer.finished <$> timers w1 !! 0%nat) = Some true /\
  __current_state__ w2 = Some "X" /\
  __current_state__ (Sched.step (H := Decimal.builtins) 10 (Sched.Call 0) w2) = Some "Y" /\
  ~ Spec.late_fire_dead.
Proof.
  intros w0 w1 w2.
  assert (H0 : __current_state__ w0 = Some "X") by (vm_compute; reflexivity).
  assert (H1 : __current_state__ w1 = Some "Z") by (vm_compute; reflexivity).
  assert (H2 : __current_state__ w2 = Some "X") by (vm_compute; reflexivity).
  assert (H3 : __current_state__ (Sched.step (H := Decimal.builtins) 10 (Sched.Call 0) w2)
               = Some "Y") by (vm_compute; reflexivity).
  repeat (split; [first [assumption | vm_compute; reflexivity]|]).
  intros Hc.
  pose proof (Hc Decimal.builtins 10%nat w0
                [Sched.Wake 0; Sched.Request "X" "Z"] [Sched.Request "Z" "X"] 0%nat
                {| Timer.interval := 5; Timer.src := "X"; Timer.tgt := "Y";
                   Timer.finished := false; Timer.stage := Timer.Sleeping |}) as Hd.
  cbv zeta in Hd. fold w1 in Hd. fold w2 in Hd.
  rewrite H3, H2 in Hd. 
  assert (Hbad : Some "Y" = Some "X"); [|discriminate Hbad].
  apply Hd.
  - intros i tm. destruct i as [|i]; vm_compute; [reflexivity|].
    destruct i; discriminate.
  - vm_compute. reflexivity.
  - exact H0.
  - rewrite H1. discriminate.
Qed.

Lemma out_of_reach_trigger_never_matches_witness :
  let w := Scenario.boot Scenario.idle_melting in
  let c := SensorState.__cfg__ (Scenario.the_sensor w "temp") in
  (SensorConfig.lerp c 150 = Ok 100%Q /\
   SensorTrigger.triggers (Spec.above "temp" 100) 100 = false) /\
  (SensorConfig.lerp c (-20) = Ok 0%Q /\
   SensorTrigger.triggers (Spec.below "temp" 0) 0 = false).
Proof.
  intros w c.
  assert (Hhi : SensorConfig.lerp c 150 = Ok 100%Q) by (vm_compute; reflexivity).
  assert (Hlo : SensorConfig.lerp c (-20) = Ok 0%Q) by (vm_compute; reflexivity).
  destruct (out_of_reach_trigger_never_matches (H := Decimal.builtins) w "temp"
              (Scenario.the_sensor w "temp")) as (Hone & _).
  - vm_compute. reflexivity.
  - split; (split; [assumption|]).
    + apply (Hone _ 150 _ Hhi).
      left. split; [reflexivity|]. vm_compute. discriminate.
    + apply (Hone _ (-20) _ Hlo).
      right. split; [reflexivity|]. split; vm_compute; discriminate.
Defined.

Lemma inverted_scale_below_trigger_matches :
  SensorConfig.lerp Scenario.inverted 50 = Ok 0%Q /\
  Spec.beyond_range Scenario.inverted (Spec.below "temp" 100) /\
  SensorTrigger.triggers (Spec.below "temp" 100) 0 = true /\
  ~ Spec.beyond_range_never_matches.
Proof.
  assert (Hl : SensorConfig.lerp Scenario.inverted 50 = Ok 0%Q) by (vm_compute; reflexivity).
  assert (Hb : Spec.beyond_range Scenario.inverted (Spec.below "temp" 100)).
  { right. split; [reflexivity|]. vm_compute. discriminate. }
  split; [exact Hl|]. split; [exact Hb|]. split; [vm_compute; reflexivity|].
  intros Hc. specialize (Hc _ _ _ _ Hl Hb). vm_compute in Hc. discriminate.
Qed.

(** * The further scenarios, run *)



Lemma reading_without_current_state_raises_witness :
  let w := Scenario.boot Scenario.unknown_initial in
  __current_state__ w = None /\
  exists w', set_sensor (H := Decimal.builtins) 10 "temp" 40 w = Raise KeyError w' /\
             SensorState.__val__ (Scenario.the_sensor w' "temp") = 40.
Proof.
  intros w. split; [vm_compute; reflexivity|].
  eexists. split.
  - apply (reading_without_current_state_raises (H := Decimal.builtins) 10 "temp" 40 w
             (Scenario.the_sensor w "temp")).
    + vm_compute. reflexivity.
    + vm_compute. reflexivity.
  - vm_compute. reflexivity.
Defined.



Lemma non_integer_setting_interrupts_transition_witness :
  let w := Scenario.boot Scenario.ghost_control in
  transition (H := Decimal.builtins) 1 (Some "idle") "garbled" w
  = Raise ValueError (set_current_state (Some "garbled") w).
Proof.
  intros w.
  apply (non_integer_setting_interrupts_transition (H := Decimal.builtins) 0
           (Some "idle") "garbled" w (Scenario.the_state w "garbled")).
  - vm_compute. reflexivity.
  - vm_compute. reflexivity.
  - apply Exists_cons_hd. split; vm_compute; reflexivity.
Defined.

Lemma cancelled_sleeping_timer_never_calls_witness :
  let w := Scenario.boot Scenario.timed_xyz in
  let w1 := store (transition_body (H := Decimal.builtins) (Some "X") "Z" w) in
  let w2 := Sched.run (H := Decimal.builtins) 10 [Sched.Wake 0; Sched.Call 0] w1 in
  __timer__ w = Some 0%nat /\
  dead (timers w2) 0 /\
  Sched.step (H := Decimal.builtins) 10 (Sched.Call 0) w2 = w2.
Proof.
  intros w w1 w2. split; [vm_compute; reflexivity|].
  apply (cancelled_sleeping_timer_never_calls (H := Decimal.builtins) 10 w (Some "X") "Z"
           (Scenario.the_state w "Z") 0
           {| Timer.src := "X"; Timer.tgt := "Y"; Timer.interval := 5;
              Timer.finished := false; Timer.stage := Timer.Sleeping |}).
  - vm_compute. reflexivity.
  - vm_compute. reflexivity.
  - exists []. split; [vm_compute; reflexivity|constructor].
  - vm_compute. reflexivity.
  - vm_compute. reflexivity.
  - reflexivity.
Defined.

Lemma constructed_machine_is_named_by_key_witness :
  named_by_key (Scenario.boot Scenario.idle_melting).
Proof.
  apply (constructed_machine_is_named_by_key (H := Decimal.builtins) 10
           Scenario.idle_melting blank (Scenario.boot Scenario.idle_melting)).
  vm_compute. reflexivity.
Defined.


Lemma re_entry_reapplies_settings_witness :
  let w := Scenario.boot Scenario.idle_melting in
  let w1 := store (transition_body (H := Decimal.builtins) (Some "idle") "idle" w) in
  let w2 := store (transition_body (H := Decimal.builtins) (Some "idle") "idle" w1) in
  __current_state__ w2 = Some "idle" /\
  stdout w1 = stdout w ++ [("heater", 0%Q)] /\
  stdout w2 = stdout w1 ++ [("heater", 0%Q)] /\
  control_values w1 = apply_values [("heater", 0)] (control_values w) /\
  control_values w2 = control_values w1.
Proof.
  intros w.
  apply (re_entry_reapplies_settings (H := Decimal.builtins) w "idle"
           (Scenario.the_state w "idle") [("heater", 0)]).
  - vm_compute. reflexivity.
  - vm_compute. reflexivity.
  - vm_compute. reflexivity.
  - repeat constructor. cbn [fst snd]. eexists _, _.
    split; [vm_compute; reflexivity|vm_compute; reflexivity].
Defined.

Lemma parsed_trigger_is_at_rightmost_keyword_witness :
  let description := "sensor below deck above 5" in
  exists tr,
    parse_sensor_trigger (H := Decimal.builtins) description = Ok (Some tr) /\
    SensorTrigger.sensor tr = "below deck" /\ SensorTrigger.direction tr = 1 /\
    exists kw p,
      (kw = "above" /\ SensorTrigger.direction tr = 1 \/
       kw = "below" /\ SensorTrigger.direction tr = -1) /\
      occurs kw description p /\ (6 <= p)%nat /\
      (forall kw' q, keyword kw' -> occurs kw' description q -> (q <= p)%nat) /\
      SensorTrigger.sensor tr
        = Str.strip (Str.slice description (Str.len SENSOR_PREFIX) (Z.of_nat p - 1)).
Proof.
  intros description. eexists. split; [vm_compute; reflexivity|].
  split; [reflexivity|]. split; [reflexivity|].
  apply (parsed_trigger_is_at_rightmost_keyword (H := Decimal.builtins) description).
  vm_compute. reflexivity.
Defined.


Lemma read_sensor_line_splits_at_last_space_witness :
  let w := Scenario.boot Scenario.cascade_abc in
  read_sensor_line (H := Decimal.builtins) 10 "level 60" w
  = set_sensor (H := Decimal.builtins) 10 "level" 60 w.
Proof.
  intros w.
  apply (read_sensor_line_splits_at_last_space (H := Decimal.builtins) 10 "level" "60" w).
  intros Hin. repeat (apply elem_of_cons in Hin as [Hin|Hin]; [discriminate Hin|]).
  apply elem_of_nil in Hin. exact Hin.
Defined.

Lemma read_sensor_line_without_space_raises_witness :
  let w := Scenario.boot Scenario.cascade_abc in
  read_sensor_line (H := Decimal.builtins) 10 "level60" w = Raise IndexError w.
Proof.
  intros w.
  apply (read_sensor_line_without_space_raises (H := Decimal.builtins) 10 "level60" w).
  intros Hin. repeat (apply elem_of_cons in Hin as [Hin|Hin]; [discriminate Hin|]).
  apply elem_of_nil in Hin. exact Hin.
Defined.

(** * The scenarios of the binary64 arithmetic, run *)

Lemma table_by_list {V} (P : string -> V -> Prop) (m : gmap string V) :
  Forall (fun p => P (fst p) (snd p)) (map_to_list m) ->
  forall nm x, m !! nm = Some x -> P nm x.
Proof.
  intros HF nm x Hnm. apply elem_of_map_to_list in Hnm.
  rewrite Forall_forall in HF. exact (HF (nm, x) Hnm).
Qed.



Lemma reading_40_enters_melting_witness :
  let w := Scenario.boot Scenario.idle_melting in
  exists w',
    set_sensor (H := Decimal.builtins) 1 "temp" 40 w = Ret tt w' /\
    __current_state__ w' = Some "melting" /\
    ControlState.__val__ <$> __controls__ w' !! "heater" = Some 100 /\
    ControlState.__as_of__ <$> __controls__ w' !! "heater" = Some (Some (S (clock w))) /\
    ControlState.__val__ <$> __controls__ w' !! "fan" = Some 50 /\
    ControlState.__as_of__ <$> __controls__ w' !! "fan" = Some (Some (S (S (clock w)))) /\
    stdout w' = stdout w ++ [("heater", 255%Q); ("fan", (500 # 100)%Q)].
Proof.
  intros w.
  destruct (reading_40_enters_melting (H := Decimal.builtins) 0 w
              (Scenario.the_state w "idle") (Scenario.the_state w "melting") (Scenario.the_sensor w "temp")
              [("heater", 100); ("fan", 50)])
    as (w' & _ & E & Hcur & _ & Hctl & Hout & _).
  - vm_compute. reflexivity.
  - vm_compute. reflexivity.
  - vm_compute. reflexivity.
  - vm_compute. reflexivity.
  - vm_compute. reflexivity.
  - vm_compute. reflexivity.
  - vm_compute. reflexivity.
  - vm_compute. reflexivity.
  - vm_compute. reflexivity.
  - vm_compute. reflexivity.
  - vm_compute. reflexivity.
  - repeat constructor; cbn [fst snd]; eexists _, _;
      (split; [vm_compute; reflexivity|vm_compute; reflexivity]).
  - exists w'. split; [exact E|]. split; [exact Hcur|]. rewrite Hctl.
    split; [vm_compute; reflexivity|]. split; [vm_compute; reflexivity|].
    split; [vm_compute; reflexivity|]. split; [vm_compute; reflexivity|].
    rewrite Hout. f_equal.
Defined.

Lemma lerp_rounds_and_clamps_witness :
  Binary64.SensorConfig.lerp Scenario.ten_bit 0 = Ok (Binary64.Int 0) /\
  Binary64.SensorConfig.lerp Scenario.ten_bit 1023 = Ok (Binary64.Int 100) /\
  Binary64.SensorConfig.lerp Scenario.ten_bit (-100) = Ok (Binary64.Int 0) /\
  exists x, Binary64.SensorConfig.__lerp__ Scenario.ten_bit 512 = Ok x /\
            Binary64.SensorConfig.lerp Scenario.ten_bit 512 = Ok (Binary64.Float x) /\
            Binary64.within 0 100 (Binary64.Float x).
Proof.
  destruct (lerp_rounds_and_clamps Scenario.ten_bit 512 1023) as (_ & Hrun & Hex).
  - reflexivity.
  - vm_compute. discriminate.
  - vm_compute. discriminate.
  - destruct Hex as (E0 & E1 & E2); try reflexivity.
    split; [exact E0|]. split; [exact E1|]. split; [exact E2|].
    destruct (Binary64.SensorConfig.__lerp__ Scenario.ten_bit 512) as [x|e] eqn:E;
      [|destruct Hrun as [_ Hr]; vm_compute in Hr; discriminate Hr].
    destruct Hrun as (v & Hv & Hin & _ & Hmid & _).
    exists x. split; [reflexivity|].
    assert (Ev : v = Binary64.Float x).
    { apply Hmid; vm_compute in E; injection E as <-; vm_compute; reflexivity. }
    subst v. split; [exact Hv|exact Hin].
Defined.

Lemma lerp_rounds_overflows_and_inverts :
  let below_29 := S754_finite false 8162774324609023 (-48) in
  Binary64.SensorConfig.lerp Scenario.percent 29 = Ok (Binary64.Float below_29) /\
  Binary64.ltb (Binary64.Float below_29) (Binary64.Int 29) = true /\
  (Spec.interpolate 29 0 100 0 100 == 29)%Q /\
  Binary64.SensorConfig.lerp Scenario.percent (10 ^ 400) = Err OverflowError /\
  Binary64.SensorConfig.lerp Scenario.inverted 50 = Ok (Binary64.Int 0) /\
  (Spec.interpolate 50 0 100 100 0 == 50)%Q /\
  ~ Binary64.lerp_clamps_every_scale.
Proof.
  intros below_29.
  assert (E29 : Binary64.SensorConfig.lerp Scenario.percent 29
                = Ok (Binary64.Float below_29)) by (vm_compute; reflexivity).
  split; [exact E29|]. split; [vm_compute; reflexivity|]. split; [reflexivity|].
  split; [vm_compute; reflexivity|]. split; [vm_compute; reflexivity|].
  split; [reflexivity|].
  intros Hc. destruct (Hc Scenario.percent 29 100) as (v & q & Hv & Hq & _ & _ & Hmid & _).
  - reflexivity.
  - vm_compute. discriminate.
  - rewrite E29 in Hv. injection Hv as <-. injection Hq as <-.
    assert (Hbad : ~ (inject_Z 8162774324609023 * 2 ^ (-48) == 29)%Q)
      by (vm_compute; discriminate).
    apply Hbad. transitivity (Spec.interpolate 29 0 100 0 100); [|reflexivity].
    apply Hmid; vm_compute; discriminate.
Qed.


Lemma html_marks_what_lerp_clamps_witness :
  Binary64.SensorConfig.html (H := Scenario.whole_format) Scenario.halved 150 = Ok ">50" /\
  Binary64.SensorConfig.html (H := Scenario.whole_format) Scenario.halved (-100) = Ok "<0" /\
  Binary64.SensorConfig.html (H := Scenario.whole_format) Scenario.halved 40 = Ok "20.0".
Proof.
  assert (Hle : SensorConfig.sho_lo Scenario.halved <= SensorConfig.sho_hi Scenario.halved)
    by (vm_compute; discriminate).
  split; [|split].
  - pose proof (html_marks_what_lerp_clamps (H := Scenario.whole_format)
                  Scenario.halved 150 Hle) as Hrun. cbv zeta in Hrun.
    destruct (Binary64.SensorConfig.__lerp__ Scenario.halved 150) as [x|e] eqn:E;
      [|vm_compute in E; discriminate E].
    destruct Hrun as (_ & Hgt & _). vm_compute in E. injection E as <-.
    destruct Hgt as [_ ->]; vm_compute; reflexivity.
  - pose proof (html_marks_what_lerp_clamps (H := Scenario.whole_format)
                  Scenario.halved (-100) Hle) as Hrun. cbv zeta in Hrun.
    destruct (Binary64.SensorConfig.__lerp__ Scenario.halved (-100)) as [x|e] eqn:E;
      [|vm_compute in E; discriminate E].
    destruct Hrun as (Hlt & _ & _). vm_compute in E. injection E as <-.
    destruct Hlt as [_ ->]; vm_compute; reflexivity.
  - pose proof (html_marks_what_lerp_clamps (H := Scenario.whole_format)
                  Scenario.halved 40 Hle) as Hrun. cbv zeta in Hrun.
    destruct (Binary64.SensorConfig.__lerp__ Scenario.halved 40) as [x|e] eqn:E;
      [|vm_compute in E; discriminate E].
    destruct Hrun as (_ & _ & Hmid). vm_compute in E. injection E as <-.
    rewrite Hmid; vm_compute; reflexivity.
Defined.

Lemma transition_follows_trigger_chain_witness :
  let w := Scenario.after_reading Scenario.cascade_abc "level" 60 in
  let next := fun s : string =>
    if String.eqb s "A" then Some "B" else if String.eqb s "B" then Some "C" else None in
  Chain.follow (__states__ w) next 3 (Some "start") "A" = Some (Some "C") /\
  exists w', transition (H := Decimal.builtins) 3 (Some "start") "A" w = Ret tt w' /\
             __current_state__ w' = Some "C".
Proof.
  intros w next.
  assert (L : Chain.follow (__states__ w) next 3 (Some "start") "A" = Some (Some "C"))
    by (vm_compute; reflexivity).
  split; [exact L|].
  pose proof (transition_follows_trigger_chain (H := Decimal.builtins) 3 w
                (Some "start") "A" next) as T.
  rewrite L in T. apply T.
  - vm_compute. reflexivity.
  - apply (table_by_list
             (fun nm scfg => Spec.settings_ok (H := Decimal.builtins) w scfg /\
                cascade (__sensors__ w) (StateConfig.triggers scfg) = Ok (next nm))).
    match goal with
    | |- Forall _ ?m =>
        let l := eval vm_compute in m in
        replace m with l by (vm_compute; reflexivity)
    end.
    repeat (apply Forall_cons_2; [cbn [fst snd]; split|]); try apply Forall_nil_2;
      try (vm_compute; reflexivity);
      (eexists; split; [vm_compute; reflexivity|]);
      repeat (apply Forall_cons_2; [cbn [fst snd]; eexists _, _;
                split; vm_compute; reflexivity|]); apply Forall_nil_2.
Defined.
